(** * Conversation store, reply generator and chat routes

    A shallow embedding of the backend of the customer-support chat relay:

    - [backend/src/db/database.ts]            the two SQLite tables,
    - [backend/src/services/conversationService.ts]  the store operations,
    - [backend/src/services/llmService.ts]    the reply generator,
    - [backend/src/routes/chatRoutes.ts]      the two HTTP handlers.

    JavaScript strings are embedded as [string]; one character stands for
    one UTF-16 code unit, so the embedding covers the strings whose code
    units are below 256, which include every constant of the program.
    Exceptions and the database are threaded through a small
    state-and-exception monad; a request is served from its first statement
    to its last without another request in between. *)

From Stdlib Require Import String Ascii List Lia Arith ZArith.
From stdpp Require Import base option list gmap strings sorting.

Local Open Scope string_scope.

(* ===================================================================== *)
(** ** JavaScript string primitives used by the program *)
(* ===================================================================== *)

Module Js.

(** [WhiteSpace] and [LineTerminator] code units below 256, the ones
    [String.prototype.trim] strips: TAB, LF, VT, FF, CR, SP, NBSP. *)
Definition isWhite (c : ascii) : bool :=
  match nat_of_ascii c with
  | 9 | 10 | 11 | 12 | 13 | 32 | 160 => true
  | _ => false
  end.

Fixpoint trimStart (s : string) : string :=
  match s with
  | EmptyString => EmptyString
  | String c s' => if isWhite c then trimStart s' else s
  end.

Fixpoint trimEnd (s : string) : string :=
  match s with
  | EmptyString => EmptyString
  | String c s' =>
      match trimEnd s' with
      | EmptyString => if isWhite c then EmptyString else String c EmptyString
      | r => String c r
      end
  end.

(** [s.trim()] *)
Definition trim (s : string) : string := trimEnd (trimStart s).

(** [s.substring(start, end)]; the smaller index comes first. *)
Definition substring (s : string) (i j : nat) : string :=
  String.substring (Nat.min i j) (Nat.max i j - Nat.min i j) s.

(** [s.includes(needle)] *)
Fixpoint includes (s needle : string) : bool :=
  String.prefix needle s
  || match s with
     | EmptyString => false
     | String _ s' => includes s' needle
     end.

(** [xs.join(sep)] *)
Definition join (sep : string) (xs : list string) : string :=
  String.concat sep xs.

(** [xs.slice(-n)]: the last [n] elements, all of them when there are
    fewer. *)
Definition sliceLast {A : Type} (n : nat) (xs : list A) : list A :=
  drop (length xs - n) xs.

(** Truthiness of a string: the empty string is falsy. *)
Definition truthy (s : string) : bool :=
  match s with EmptyString => false | _ => true end.

(** [a || b] on strings. *)
Definition orElse (a b : string) : string := if truthy a then a else b.

End Js.

(* ===================================================================== *)
(** ** Thrown values and the state-and-exception monad *)
(* ===================================================================== *)

(** What a [catch (error: any)] clause of the program looks at: the
    [message] and the [code] of the thrown value, either of which can be
    missing. *)
Record JsError : Type := mkJsError {
  message : option string;
  code : option string
}.

(** [new Error(msg)] *)
Definition newError (msg : string) : JsError :=
  {| message := Some msg; code := None |}.

Inductive Completion (A : Type) : Type :=
| Return (a : A)
| Throw (e : JsError).
Arguments Return {A} a.
Arguments Throw {A} e.

(** A computation over a state [S] that returns normally or throws; the
    state reached when it throws is kept (nothing rolls back). *)
Definition M (S A : Type) : Type := S -> S * Completion A.

Definition ret {S A} (a : A) : M S A := fun s => (s, Return a).

Definition throw {S A} (e : JsError) : M S A := fun s => (s, Throw e).

Definition bind {S A B} (m : M S A) (k : A -> M S B) : M S B :=
  fun s =>
    match m s with
    | (s', Return a) => k a s'
    | (s', Throw e) => (s', Throw e)
    end.

(** [try { m } catch (error) { h error }] *)
Definition tryCatch {S A} (m : M S A) (h : JsError -> M S A) : M S A :=
  fun s =>
    match m s with
    | (s', Return a) => (s', Return a)
    | (s', Throw e) => h e s'
    end.

Definition gets {S A} (f : S -> A) : M S A := fun s => (s, Return (f s)).

Definition modify {S} (f : S -> S) : M S unit := fun s => (f s, Return tt).

Notation "'let*' x ':=' m 'in' k" := (bind m (fun x => k))
  (at level 10, x pattern, m at level 100, k at level 200).

(* ===================================================================== *)
(** ** The identifier format *)
(* ===================================================================== *)

(** [[0-9a-f]] under the [i] flag. *)
Definition isHexDigit (c : ascii) : bool :=
  let n := nat_of_ascii c in
  (((48 <=? n) && (n <=? 57)) || ((97 <=? n) && (n <=? 102))
   || ((65 <=? n) && (n <=? 70)))%nat.

(** Consume exactly [n] hexadecimal digits. *)
Fixpoint hexRun (n : nat) (s : string) : option string :=
  match n with
  | 0 => Some s
  | S n' =>
      match s with
      | String c s' => if isHexDigit c then hexRun n' s' else None
      | EmptyString => None
      end
  end.

Definition dash (s : string) : option string :=
  match s with
  | String "-"%char s' => Some s'
  | _ => None
  end.

(** The test
    [/^[0-9a-f]{8}-[0-9a-f]{4}-[0-9a-f]{4}-[0-9a-f]{4}-[0-9a-f]{12}$/i]
    of [chatRoutes.ts]: a run of 8 digits, then four dash-led runs. *)
Definition dashHexRun (n : nat) (s : string) : option string :=
  match dash s with
  | Some s' => hexRun n s'
  | None => None
  end.

Definition isUuid (s : string) : bool :=
  match
    (((hexRun 8 s ≫= dashHexRun 4) ≫= dashHexRun 4) ≫= dashHexRun 4)
      ≫= dashHexRun 12
  with
  | Some EmptyString => true
  | _ => false
  end.

(* ===================================================================== *)
(** ** The database: [database.ts] *)
(* ===================================================================== *)

Inductive Sender : Type := user | ai.

Global Instance Sender_eq_dec : EqDecision Sender.
Proof. solve_decision. Defined.

(** A row of [conversations] as the service returns it. *)
Record ConversationData : Type := mkConversation {
  conv_id : string;
  conv_createdAt : string;
  conv_updatedAt : string
}.

(** A row of [messages]. *)
Record MessageData : Type := mkMessage {
  msg_id : string;
  msg_conversationId : string;
  msg_sender : Sender;
  msg_text : string;
  msg_timestamp : string
}.

(** The columns of [conversations] other than its primary key. *)
Record ConversationRow : Type := mkRow {
  row_createdAt : string;
  row_updatedAt : string
}.

(** The two tables.  [conversations] is keyed by its primary key [id];
    [messages] lists the rows in insertion (rowid) order. *)
Record Db : Type := mkDb {
  conversations : gmap string ConversationRow;
  messages : list MessageData
}.

Definition emptyDb : Db := {| conversations := ∅; messages := [] |}.

(** The errors better-sqlite3 throws when a constraint of the schema
    rejects an [INSERT]. *)
Definition uniqueViolation (column : string) : JsError :=
  {| message := Some ("UNIQUE constraint failed: " +:+ column);
     code := Some "SQLITE_CONSTRAINT_PRIMARYKEY" |}.

Definition foreignKeyViolation : JsError :=
  {| message := Some "FOREIGN KEY constraint failed";
     code := Some "SQLITE_CONSTRAINT_FOREIGNKEY" |}.

Definition hasMessageId (id : string) (rows : list MessageData) : bool :=
  existsb (fun m => String.eqb (msg_id m) id) rows.

(** [INSERT INTO conversations (id, createdAt, updatedAt) VALUES (?, ?, ?)] *)
Definition insertConversation (id createdAt updatedAt : string) : M Db unit :=
  fun db =>
    match conversations db !! id with
    | Some _ => (db, Throw (uniqueViolation "conversations.id"))
    | None =>
        ({| conversations :=
              <[id := mkRow createdAt updatedAt]> (conversations db);
            messages := messages db |}, Return tt)
    end.

(** [INSERT INTO messages (id, conversationId, sender, text, timestamp)
    VALUES (?, ?, ?, ?, ?)], with [PRIMARY KEY (id)] and the foreign key
    on [conversationId] ([foreign_keys = ON]). *)
Definition insertMessage (m : MessageData) : M Db unit :=
  fun db =>
    if hasMessageId (msg_id m) (messages db)
    then (db, Throw (uniqueViolation "messages.id"))
    else
      match conversations db !! msg_conversationId m with
      | None => (db, Throw foreignKeyViolation)
      | Some _ =>
          ({| conversations := conversations db;
              messages := messages db ++ [m] |}, Return tt)
      end.

(** [UPDATE conversations SET updatedAt = ? WHERE id = ?] *)
Definition updateUpdatedAt (updatedAt id : string) : M Db unit :=
  modify (fun db =>
    {| conversations :=
         alter (fun r => mkRow (row_createdAt r) updatedAt) id
               (conversations db);
       messages := messages db |}).

(** [SELECT * FROM conversations WHERE id = ?] *)
Definition selectConversation (id : string) (db : Db)
  : option ConversationData :=
  (fun r => mkConversation id (row_createdAt r) (row_updatedAt r))
    <$> conversations db !! id.

(** [ORDER BY timestamp ASC] over rows in rowid order.  [timestamp] is a
    TEXT column, so rows compare by their strings, byte by byte.  SQLite
    does not fix the order of rows with equal keys; here they keep their
    rowid order. *)
Fixpoint insertByTimestamp (m : MessageData) (sorted : list MessageData)
  : list MessageData :=
  match sorted with
  | [] => [m]
  | x :: rest =>
      if String.leb (msg_timestamp x) (msg_timestamp m)
      then x :: insertByTimestamp m rest
      else m :: sorted
  end.

Definition orderByTimestamp (rows : list MessageData) : list MessageData :=
  foldl (fun acc m => insertByTimestamp m acc) [] rows.

Definition ofConversation (conversationId : string) (rows : list MessageData)
  : list MessageData :=
  filter (fun m => msg_conversationId m = conversationId) rows.

(** [SELECT * FROM messages WHERE conversationId = ? ORDER BY timestamp ASC] *)
Definition selectMessages (conversationId : string) (db : Db)
  : list MessageData :=
  orderByTimestamp (ofConversation conversationId (messages db)).

(* ===================================================================== *)
(** ** [ConversationService]: [conversationService.ts] *)
(* ===================================================================== *)

(** [randomUUID()] and [new Date().toISOString()] read the environment;
    the value each call returns is an argument of the operation that makes
    the call ([id] and [now] below). *)
Module ConversationService.

Definition createConversation (id now : string) : M Db ConversationData :=
  let* _ := insertConversation id now now in
  ret (mkConversation id now now).

Definition getConversation (conversationId : string)
  : M Db (option ConversationData) :=
  gets (selectConversation conversationId).

Definition getOrCreateConversation (id now : string)
    (conversationId : option string) : M Db ConversationData :=
  let create := createConversation id now in
  match conversationId with
  | Some cid =>
      if Js.truthy cid then
        let* existing := getConversation cid in
        match existing with
        | Some c => ret c
        | None => create
        end
      else create
  | None => create
  end.

Definition addMessage (id now : string)
    (conversationId : string) (sender : Sender) (text : string)
  : M Db MessageData :=
  let m := mkMessage id conversationId sender text now in
  let* _ := insertMessage m in
  let* _ := updateUpdatedAt now conversationId in
  ret m.

Definition getMessages (conversationId : string)
  : M Db (list MessageData) :=
  gets (selectMessages conversationId).

End ConversationService.

(* ===================================================================== *)
(** ** [LLMService]: [llmService.ts] *)
(* ===================================================================== *)

Definition MAX_MESSAGE_LENGTH : nat := 2000.
Definition MAX_TOKENS : nat := 500.
Definition MAX_HISTORY_MESSAGES : nat := 10.

Definition dquote : string := String "034"%char EmptyString.
Definition newline : string := String "010"%char EmptyString.

Definition DOMAIN_KNOWLEDGE : string :=
  "
You are a helpful and friendly customer support agent for " +:+ dquote +:+
  "SpurStore" +:+ dquote +:+
  ", a small e-commerce store. 
Here's important information about our store:

SHIPPING POLICY:
- We ship worldwide via standard shipping (5-7 business days) and express shipping (2-3 business days)
- Standard shipping: $5.99 (free for orders over $50)
- Express shipping: $12.99
- We ship to USA, Canada, UK, Australia, and most European countries
- Orders are processed within 1-2 business days

RETURN/REFUND POLICY:
- 30-day return policy for unused items in original packaging
- Full refunds are processed within 5-7 business days after we receive the item
- Customers are responsible for return shipping costs unless the item is defective
- Refunds are issued to the original payment method

SUPPORT HOURS:
- Monday to Friday: 9 AM - 6 PM EST
- Saturday: 10 AM - 4 PM EST
- Sunday: Closed
- Email support: support@spurstore.com
- Response time: Within 24 hours during business hours

PRODUCT INFORMATION:
- We offer a wide range of products including electronics, clothing, home goods, and accessories
- Most items are in stock and ready to ship
- We offer gift wrapping and gift messages for orders

IMPORTANT GUIDELINES:
- Answer customer questions clearly, concisely, and in a friendly tone using ONLY the information provided above.
- Format your responses using markdown for better readability:
  * Use bullet points (- or *) for lists
  * Use **bold** for important information
  * Use line breaks to separate different topics
  * Keep paragraphs short and easy to read
- If a customer asks about something NOT covered in the knowledge base above (e.g., specific product details, pricing for individual items, technical specifications, order status, account issues, payment problems, or questions unrelated to our store policies), politely acknowledge that you don't have that specific information.
- For out-of-scope questions, respond with: " +:+ dquote +:+
  "I don't have that specific information in my knowledge base, but I'd be happy to connect you with our human support team who can help you with that. Please email us at support@spurstore.com or contact us during our support hours." +:+ dquote +:+
  "
- Stay focused on shipping, returns, support hours, and general product information as outlined above.
- Never make up information or guess about details not provided in the knowledge base.
- Always maintain a helpful and professional tone, even when redirecting to human support.
- When listing multiple items or topics, use markdown bullet points for clarity.
".

(** What one call [await this.model.generateContent(prompt)] followed by
    [result.response.text()] does: it yields the text, or something is
    thrown on the way. *)
Inductive ProviderOutcome : Type :=
| Responded (text : string)
| Rejected (e : JsError).

(** The model handle of the SDK, as this program uses it. *)
Definition GenerativeModel : Type := string -> ProviderOutcome.

(** The calls the claims speak about, recorded in the order they are
    made. *)
Inductive Event : Type :=
| CallGenerateReply (userMessage : string) (history : list MessageData)
| CallGenerateContent (prompt : string).

(** The mutable state of the server process: the database, the module
    variable [llmServiceInstance], and the record of calls. *)
Record World : Type := mkWorld {
  db : Db;
  llmServiceInstance : option GenerativeModel;
  trace : list Event
}.

Definition logged (e : Event) (w : World) : World :=
  {| db := db w; llmServiceInstance := llmServiceInstance w;
     trace := trace w ++ [e] |}.

Definition emit (e : Event) : M World unit := modify (logged e).

(** Run a database computation on the database of the process. *)
Definition liftDb {A} (m : M Db A) : M World A :=
  fun w =>
    match m (db w) with
    | (d, r) =>
        ({| db := d; llmServiceInstance := llmServiceInstance w;
            trace := trace w |}, r)
    end.

Module LLMService.

Definition EMPTY_INPUT : string := "Message cannot be empty".
Definition EMPTY_RESPONSE : string := "Empty response from LLM".
Definition INVALID_KEY : string :=
  "Invalid API key. Please check your GEMINI_API_KEY environment variable.".
Definition RATE_LIMITED : string :=
  "API rate limit exceeded. Please try again in a moment.".
Definition TIMED_OUT : string := "Request timed out. Please try again.".
Definition GENERIC_FAILURE : string :=
  "Failed to generate reply. Please try again later.".

(** [`${role}: ${msg.text}`] *)
Definition renderTurn (msg : MessageData) : string :=
  (match msg_sender msg with
   | user => "Customer"
   | ai => "Support Agent"
   end) +:+ ": " +:+ msg_text msg.

Definition recentHistory (conversationHistory : list MessageData)
  : list MessageData :=
  Js.sliceLast MAX_HISTORY_MESSAGES conversationHistory.

Definition historyText (conversationHistory : list MessageData) : string :=
  Js.join newline (map renderTurn (recentHistory conversationHistory)).

(** The user message as it goes into the prompt. *)
Definition truncated (userMessage : string) : string :=
  if (MAX_MESSAGE_LENGTH <? String.length userMessage)%nat
  then Js.substring userMessage 0 MAX_MESSAGE_LENGTH +:+ "..."
  else userMessage.

(** The template literal of [generateReply]. *)
Definition promptOf (userMessage : string)
    (conversationHistory : list MessageData) : string :=
  DOMAIN_KNOWLEDGE +:+ newline +:+ newline
    +:+ "Previous conversation:" +:+ newline
    +:+ Js.orElse (historyText conversationHistory)
          "This is the start of the conversation."
    +:+ newline +:+ newline
    +:+ "Customer: " +:+ userMessage +:+ newline
    +:+ "Support Agent:".

Definition callModel (model : GenerativeModel) (prompt : string)
  : M World string :=
  let* _ := emit (CallGenerateContent prompt) in
  match model prompt with
  | Responded text => ret text
  | Rejected e => throw e
  end.

(** [error.message?.includes(needle)] *)
Definition messageIncludes (error : JsError) (needle : string) : bool :=
  match message error with
  | Some m => Js.includes m needle
  | None => false
  end.

Definition codeIs (error : JsError) (c : string) : bool :=
  match code error with
  | Some c' => String.eqb c' c
  | None => false
  end.

(** The [try] block of [generateReply]. *)
Definition attempt (model : GenerativeModel) (userMessage : string)
    (conversationHistory : list MessageData) : M World string :=
  if negb (Js.truthy userMessage)
     || (String.length (Js.trim userMessage) =? 0)%nat
  then throw (newError EMPTY_INPUT)
  else
    let userMessage := truncated userMessage in
    let prompt := promptOf userMessage conversationHistory in
    let* text := callModel model prompt in
    let reply := Js.trim text in
    if negb (Js.truthy reply) || (String.length reply =? 0)%nat
    then throw (newError EMPTY_RESPONSE)
    else ret reply.

(** The [catch] block of [generateReply]. *)
Definition rethrow (error : JsError) : JsError :=
  if messageIncludes error "API_KEY" then newError INVALID_KEY
  else if messageIncludes error "quota"
          || messageIncludes error "rate limit"
  then newError RATE_LIMITED
  else if messageIncludes error "timeout" || codeIs error "ETIMEDOUT"
  then newError TIMED_OUT
  else newError (Js.orElse (default "" (message error)) GENERIC_FAILURE).

Definition generateReply (model : GenerativeModel) (userMessage : string)
    (conversationHistory : list MessageData) : M World string :=
  tryCatch (attempt model userMessage conversationHistory)
           (fun error => throw (rethrow error)).

End LLMService.

(** The environment of the process that the generator reads: the variable
    [GEMINI_API_KEY] and the SDK, which turns a key into a model handle. *)
Record LLMEnv : Type := mkLLMEnv {
  GEMINI_API_KEY : option string;
  getGenerativeModel : string -> GenerativeModel
}.

Definition MISSING_KEY : string :=
  "GEMINI_API_KEY environment variable is not set".

(** [new LLMService()] *)
Definition newLLMService (env : LLMEnv) : M World GenerativeModel :=
  match GEMINI_API_KEY env with
  | Some apiKey =>
      if Js.truthy apiKey then ret (getGenerativeModel env apiKey)
      else throw (newError MISSING_KEY)
  | None => throw (newError MISSING_KEY)
  end.

Definition getLLMService (env : LLMEnv) : M World GenerativeModel :=
  fun w =>
    match llmServiceInstance w with
    | Some instance => (w, Return instance)
    | None =>
        match newLLMService env w with
        | (w', Return instance) =>
            ({| db := db w'; llmServiceInstance := Some instance;
                trace := trace w' |}, Return instance)
        | (w', Throw error) => (w', Throw error)
        end
    end.

(** The exported [llmService.generateReply]. *)
Definition llmService_generateReply (env : LLMEnv) (userMessage : string)
    (conversationHistory : list MessageData) : M World string :=
  let* _ := emit (CallGenerateReply userMessage conversationHistory) in
  let* service := getLLMService env in
  LLMService.generateReply service userMessage conversationHistory.

(* ===================================================================== *)
(** ** The chat routes: [chatRoutes.ts] *)
(* ===================================================================== *)

(** A field of the parsed JSON body as the schema sees it. *)
Inductive JsonField : Type :=
| JUndefined
| JString (s : string)
| JOther.

Record RequestBody : Type := mkBody {
  body_message : JsonField;
  body_sessionId : JsonField
}.

Inductive ResponseBody : Type :=
| ChatReply (reply sessionId : string)
| Transcript (sessionId createdAt : string) (msgs : list MessageData)
| ErrorBody (error : string).

Record Response : Type := mkResponse {
  status : nat;
  body : ResponseBody
}.

(** The values the calls of [randomUUID()] and [new Date().toISOString()]
    return during one [POST /chat/message], named after the statement that
    makes the call. *)
Record Entropy : Type := mkEntropy {
  conversation_uuid : string;
  conversation_now : string;
  userMessage_uuid : string;
  userMessage_now : string;
  aiMessage_uuid : string;
  aiMessage_now : string
}.

Definition FALLBACK_REPLY : string :=
  "I apologize, but I'm experiencing technical difficulties right now. Please try again in a moment, or contact our support team at support@spurstore.com for immediate assistance.".

Definition internalServerError : Response :=
  {| status := 500; body := ErrorBody "Internal server error" |}.

Section Routes.

(** [z.string().uuid()] is zod's; its test is taken as given. *)
Variable zodUuid : string -> bool.

(** [messageSchema.safeParse(req.body)]: the parsed data, or nothing when
    the body is refused. *)
Definition messageSchema (b : RequestBody) : option (string * option string) :=
  match body_message b with
  | JString m =>
      if (1 <=? String.length m)%nat && (String.length m <=? 2000)%nat then
        match body_sessionId b with
        | JUndefined => Some (m, None)
        | JString sid => if zodUuid sid then Some (m, Some sid) else None
        | JOther => None
        end
      else None
  | _ => None
  end.

(** [router.post('/message', ...)] *)
Definition postMessage (env : LLMEnv) (ent : Entropy) (b : RequestBody)
  : M World Response :=
  tryCatch
    (match messageSchema b with
     | None => ret {| status := 400; body := ErrorBody "Invalid request" |}
     | Some (message, sessionId) =>
         let* conversation :=
           liftDb (ConversationService.getOrCreateConversation
                     (conversation_uuid ent) (conversation_now ent)
                     sessionId) in
         let* _ :=
           liftDb (ConversationService.addMessage
                     (userMessage_uuid ent) (userMessage_now ent)
                     (conv_id conversation) user message) in
         let* history :=
           liftDb (ConversationService.getMessages (conv_id conversation)) in
         let* aiReply :=
           tryCatch (llmService_generateReply env message history)
                    (fun _ => ret FALLBACK_REPLY) in
         let* _ :=
           liftDb (ConversationService.addMessage
                     (aiMessage_uuid ent) (aiMessage_now ent)
                     (conv_id conversation) ai aiReply) in
         ret {| status := 200;
                body := ChatReply aiReply (conv_id conversation) |}
     end)
    (fun _ => ret internalServerError).

(** [router.get('/history/:sessionId', ...)] *)
Definition getHistory (sessionId : string) : M World Response :=
  tryCatch
    (if negb (isUuid sessionId)
     then ret {| status := 400;
                 body := ErrorBody "Invalid session ID format" |}
     else
       let* conversation :=
         liftDb (ConversationService.getConversation sessionId) in
       match conversation with
       | None =>
           ret {| status := 404; body := ErrorBody "Conversation not found" |}
       | Some conversation =>
           let* msgs := liftDb (ConversationService.getMessages sessionId) in
           ret {| status := 200;
                  body := Transcript (conv_id conversation)
                                     (conv_createdAt conversation) msgs |}
       end)
    (fun _ => ret internalServerError).

End Routes.

(* ===================================================================== *)
(** * Vocabulary of the statements *)
(* ===================================================================== *)

(** ** The store *)

(** The order of the [timestamp] column. *)
Definition tsLe (a b : MessageData) : Prop :=
  String.le (msg_timestamp a) (msg_timestamp b).

(** The database after a successful [createConversation]. *)
Definition withConversation (id : string) (row : ConversationRow) (d : Db)
  : Db :=
  {| conversations := <[id := row]> (conversations d);
     messages := messages d |}.

(** The database after a successful [addMessage] that returned [m]. *)
Definition withMessage (m : MessageData) (d : Db) : Db :=
  {| conversations :=
       alter (fun r => mkRow (row_createdAt r) (msg_timestamp m))
             (msg_conversationId m) (conversations d);
     messages := messages d ++ [m] |}.

(** *** Reachable databases

    The database starts empty and changes only through the two writing
    operations of the service.  [randomUUID()] returns a string in the
    identifier format; [clockOk d now] says which readings [now] the
    clock may give when the database is [d]. *)
Inductive reachableWith (clockOk : Db -> string -> Prop) : Db -> Prop :=
| reachable_empty : reachableWith clockOk emptyDb
| reachable_create (id now : string) (d d' : Db) (c : ConversationData) :
    reachableWith clockOk d ->
    isUuid id = true ->
    clockOk d now ->
    ConversationService.createConversation id now d = (d', Return c) ->
    reachableWith clockOk d'
| reachable_add (id now cid : string) (sender : Sender) (text : string)
    (d d' : Db) (m : MessageData) :
    reachableWith clockOk d ->
    isUuid id = true ->
    clockOk d now ->
    ConversationService.addMessage id now cid sender text d
    = (d', Return m) ->
    reachableWith clockOk d'.

(** Nothing is assumed of the clock. *)
Definition reachable : Db -> Prop := reachableWith (fun _ _ => True).

(** A clock that never reads earlier than a timestamp already stored. *)
Definition clockNotBehind (d : Db) (now : string) : Prop :=
  forall m, m ∈ messages d -> String.le (msg_timestamp m) now.

Definition reachableMonotone : Db -> Prop := reachableWith clockNotBehind.

(** Every conversation id has the identifier format. *)
Definition idsWellFormed (d : Db) : Prop :=
  forall cid row, conversations d !! cid = Some row -> isUuid cid = true.

(** Every message belongs to a conversation of the table. *)
Definition referentialIntegrity (d : Db) : Prop :=
  forall m, m ∈ messages d -> is_Some (conversations d !! msg_conversationId m).

(** [updatedAt] is the timestamp of the row inserted last for the
    conversation. *)
Definition updatedAtTracksLast (d : Db) : Prop :=
  forall cid row m,
    conversations d !! cid = Some row ->
    last (ofConversation cid (messages d)) = Some m ->
    row_updatedAt row = msg_timestamp m.

(** With a clock that never runs backwards, [updatedAt] bounds the
    timestamp of every message of the conversation. *)
Definition updatedAtBoundsAll (d : Db) : Prop :=
  forall cid row m,
    conversations d !! cid = Some row ->
    m ∈ messages d ->
    msg_conversationId m = cid ->
    String.le (msg_timestamp m) (row_updatedAt row).

(** ** The generator *)

(** The failure kinds of the specification.  The program raises plain
    [Error] objects; a caller can tell the kinds apart by the message
    only. *)
Inductive FailureKind : Type :=
| InvalidCredentials
| RateLimited
| TimedOut
| EmptyResponse
| EmptyInput
| ProviderError.

(** The kind a caller reads off a raised error: the kind whose text the
    error carries, and [ProviderError] for everything else. *)
Definition kindOf (e : JsError) : FailureKind :=
  match message e with
  | Some m =>
      if String.eqb m LLMService.INVALID_KEY then InvalidCredentials
      else if String.eqb m LLMService.RATE_LIMITED then RateLimited
      else if String.eqb m LLMService.TIMED_OUT then TimedOut
      else if String.eqb m LLMService.EMPTY_RESPONSE then EmptyResponse
      else if String.eqb m LLMService.EMPTY_INPUT then EmptyInput
      else ProviderError
  | None => ProviderError
  end.

(** What it takes for a failure [e] of [generateReply] to be of kind [k],
    when the message is [userMessage] and the provider call, if it is
    made, has the outcome [answer]: the signal the kind stands for, and the
    error the kind is raised with.  The markers are looked for in the
    order of the [catch] block.  [ProviderError] is the catch-all: the
    provider call threw and no marker is in what it threw; the error
    raised then has the message of the thrown value, or the generic text
    when that message is missing or empty. *)
Definition raisedAs (k : FailureKind) (userMessage : string)
    (answer : ProviderOutcome) (e : JsError) : Prop :=
  match k with
  | EmptyInput =>
      Js.trim userMessage = EmptyString
      /\ e = newError LLMService.EMPTY_INPUT
  | EmptyResponse =>
      Js.trim userMessage <> EmptyString
      /\ (exists text, answer = Responded text /\ Js.trim text = EmptyString)
      /\ e = newError LLMService.EMPTY_RESPONSE
  | InvalidCredentials =>
      Js.trim userMessage <> EmptyString
      /\ exists pe,
          answer = Rejected pe
          /\ LLMService.messageIncludes pe "API_KEY" = true
          /\ e = newError LLMService.INVALID_KEY
  | RateLimited =>
      Js.trim userMessage <> EmptyString
      /\ exists pe,
          answer = Rejected pe
          /\ LLMService.messageIncludes pe "API_KEY" = false
          /\ (LLMService.messageIncludes pe "quota" = true
              \/ LLMService.messageIncludes pe "rate limit" = true)
          /\ e = newError LLMService.RATE_LIMITED
  | TimedOut =>
      Js.trim userMessage <> EmptyString
      /\ exists pe,
          answer = Rejected pe
          /\ LLMService.messageIncludes pe "API_KEY" = false
          /\ LLMService.messageIncludes pe "quota" = false
          /\ LLMService.messageIncludes pe "rate limit" = false
          /\ (LLMService.messageIncludes pe "timeout" = true
              \/ code pe = Some "ETIMEDOUT")
          /\ e = newError LLMService.TIMED_OUT
  | ProviderError =>
      Js.trim userMessage <> EmptyString
      /\ exists pe,
          answer = Rejected pe
          /\ LLMService.messageIncludes pe "API_KEY" = false
          /\ LLMService.messageIncludes pe "quota" = false
          /\ LLMService.messageIncludes pe "rate limit" = false
          /\ LLMService.messageIncludes pe "timeout" = false
          /\ code pe <> Some "ETIMEDOUT"
          /\ e = newError
                   match message pe with
                   | Some (String c pm) => String c pm
                   | _ => LLMService.GENERIC_FAILURE
                   end
  end.

(** The fixed texts a message of the provider could coincide with
    although it carries none of the markers. *)
Definition unmarkedFixedTexts : list string :=
  [LLMService.TIMED_OUT; LLMService.EMPTY_RESPONSE; LLMService.EMPTY_INPUT].

(** What [generateReply] makes of the provider's answer. *)
Definition replyOf (answer : ProviderOutcome) : Completion string :=
  match answer with
  | Responded text =>
      match Js.trim text with
      | EmptyString => Throw (newError LLMService.EMPTY_RESPONSE)
      | reply => Return reply
      end
  | Rejected e => Throw (LLMService.rethrow e)
  end.

(** None of the marker substrings of the [catch] block occurs in the
    message. *)
Definition unmarked (m : string) : Prop :=
  Js.includes m "API_KEY" = false
  /\ Js.includes m "quota" = false
  /\ Js.includes m "rate limit" = false
  /\ Js.includes m "timeout" = false.

(** The model handle [getLLMService()] returns, if it returns one: the
    cached instance, or a new one when the key is set. *)
Definition serviceOf (env : LLMEnv) (w : World) : option GenerativeModel :=
  match llmServiceInstance w with
  | Some instance => Some instance
  | None =>
      match GEMINI_API_KEY env with
      | Some apiKey =>
          if Js.truthy apiKey then Some (getGenerativeModel env apiKey)
          else None
      | None => None
      end
  end.

Definition withInstance (model : GenerativeModel) (w : World) : World :=
  {| db := db w; llmServiceInstance := Some model; trace := trace w |}.

(** The calls one [llmService.generateReply(userMessage, history)] adds to
    the record. *)
Definition generatorEvents (env : LLMEnv) (userMessage : string)
    (history : list MessageData) (w : World) : list Event :=
  CallGenerateReply userMessage history
  :: match serviceOf env w, Js.trim userMessage with
     | Some _, String _ _ =>
         [CallGenerateContent
            (LLMService.promptOf (LLMService.truncated userMessage) history)]
     | _, _ => []
     end.

(** The template literal filled with rendered turns that are not all
    empty. *)
Definition promptWithTurns (turns : list string) (userMessage : string)
  : string :=
  DOMAIN_KNOWLEDGE +:+ newline +:+ newline
    +:+ "Previous conversation:" +:+ newline
    +:+ Js.join newline turns
    +:+ newline +:+ newline
    +:+ "Customer: " +:+ userMessage +:+ newline
    +:+ "Support Agent:".

(** ** The routes *)

(** The reply the handler settles on. *)
Definition replyOrFallback (outcome : Completion string) : string :=
  match outcome with
  | Return reply => reply
  | Throw _ => FALLBACK_REPLY
  end.

(** The payloads C2 lists as invalid. *)
Definition invalidPayload (zodUuid : string -> bool) (b : RequestBody)
  : Prop :=
  body_message b = JString ""
  \/ (exists m, body_message b = JString m /\ 2000 < String.length m)
  \/ (exists sid, body_sessionId b = JString sid /\ zodUuid sid = false).

(** ** Sample data *)

Module Sample.

Definition conversationA : string := "11111111-1111-4111-8111-111111111111".
Definition conversationB : string := "22222222-2222-4222-8222-222222222222".
Definition messageA1 : string := "aaaaaaaa-0000-4000-8000-000000000001".
Definition messageA2 : string := "aaaaaaaa-0000-4000-8000-000000000002".
Definition messageA3 : string := "aaaaaaaa-0000-4000-8000-000000000003".
Definition messageA4 : string := "aaaaaaaa-0000-4000-8000-000000000004".

Definition t0 : string := "2025-01-01T10:00:00.000Z".
Definition t1 : string := "2025-01-01T10:00:00.250Z".
Definition t2 : string := "2025-01-01T10:00:01.500Z".
Definition t3 : string := "2025-01-01T10:05:00.000Z".
Definition t4 : string := "2025-01-01T10:05:02.125Z".

(** One conversation holding one exchange. *)
Definition db0 : Db :=
  (ConversationService.createConversation conversationA t0 emptyDb).1.
Definition db1 : Db :=
  (ConversationService.addMessage
     messageA1 t1 conversationA user "Where is my order?" db0).1.
Definition db2 : Db :=
  (ConversationService.addMessage
     messageA2 t2 conversationA ai "Let me check." db1).1.

End Sample.

Module SampleLLM.

(** A provider that answers, one that answers with blanks, and one whose
    call fails inside the SDK. *)
Definition answering : GenerativeModel :=
  fun _ => Responded "  Standard shipping takes 5-7 business days.  ".
Definition blank : GenerativeModel := fun _ => Responded "   ".
Definition failing : GenerativeModel :=
  fun _ => Rejected
    {| message := Some "[GoogleGenerativeAI Error]: 503 Service Unavailable";
       code := None |}.

(** A provider that refuses the call for an exhausted quota. *)
Definition throttled : GenerativeModel :=
  fun _ => Rejected
    {| message :=
         Some "[GoogleGenerativeAI Error]: [429 Too Many Requests] You exceeded your current quota.";
       code := None |}.

Definition world0 : World :=
  {| db := Sample.db2; llmServiceInstance := None; trace := [] |}.

Fixpoint replicate (n : nat) (c : ascii) : string :=
  match n with
  | 0 => EmptyString
  | S n' => String c (replicate n' c)
  end.

End SampleLLM.

Module SampleRequest.

(** A request in conversation A of [Sample.db2], and what the environment
    hands out while it is served. *)
Definition body : RequestBody :=
  {| body_message := JString "And when will it arrive?";
     body_sessionId := JString Sample.conversationA |}.

Definition entropy : Entropy :=
  {| conversation_uuid := Sample.conversationB;
     conversation_now := Sample.t3;
     userMessage_uuid := Sample.messageA3;
     userMessage_now := Sample.t3;
     aiMessage_uuid := Sample.messageA4;
     aiMessage_now := Sample.t4 |}.

Definition envFailing : LLMEnv :=
  {| GEMINI_API_KEY := Some "key";
     getGenerativeModel := fun _ => SampleLLM.failing |}.

Definition envAnswering : LLMEnv :=
  {| GEMINI_API_KEY := Some "key";
     getGenerativeModel := fun _ => SampleLLM.answering |}.

Definition emptyMessage : RequestBody :=
  {| body_message := JString ""; body_sessionId := JUndefined |}.

End SampleRequest.

Module SampleLong.

Definition digit (n : nat) : string :=
  String (ascii_of_nat (48 + n)) EmptyString.
Definition messageId (n : nat) : string :=
  "bbbbbbbb-0000-4000-8000-00000000000" +:+ digit n.
Definition time (n : nat) : string :=
  "2025-01-01T10:00:1" +:+ digit n +:+ ".000Z".

(** Conversation A after five exchanges: ten messages. *)
Definition dbLong : Db :=
  foldl (fun d n =>
           (ConversationService.addMessage (messageId n) (time n)
              Sample.conversationA (if Nat.even n then user else ai)
              ("turn " +:+ digit n) d).1)
        Sample.db0 (seq 0 10).

Definition worldLong : World :=
  {| db := dbLong; llmServiceInstance := None; trace := [] |}.

End SampleLong.

(* ===================================================================== *)
(** * The rest of the backend and the widget's text formatter *)
(* ===================================================================== *)

(** ** More JavaScript string primitives *)

Module JsText.

(** [s.split(sep)] for a separator of one character. *)
Fixpoint split (sep : ascii) (s : string) : list string :=
  match s with
  | EmptyString => [EmptyString]
  | String c s' =>
      if Ascii.eqb c sep then EmptyString :: split sep s'
      else
        match split sep s' with
        | x :: xs => String c x :: xs
        | [] => [String c EmptyString]
        end
  end.


(** The number of occurrences of a character. *)
Fixpoint count (c : ascii) (s : string) : nat :=
  match s with
  | EmptyString => 0
  | String x s' => (if Ascii.eqb x c then 1 else 0) + count c s'
  end.

End JsText.

(** ** [apiKeyAuth]: [middleware/auth.ts] *)

(** A value of [req.query]: absent, a string, or an array or object (a
    repeated or bracketed parameter). *)
Inductive QueryValue : Type :=
| QAbsent
| QString (s : string)
| QOther.

Inductive AuthOutcome : Type :=
| Next
| Unauthorized.

(** [req.headers['x-api-key'] || req.query.apiKey] *)
Definition presentedKey (header : option string) (query : QueryValue)
  : QueryValue :=
  match header with
  | Some h => if Js.truthy h then QString h else query
  | None => query
  end.

(** [API_KEY] is [process.env.API_KEY]; [Unauthorized] is the 401
    response. *)
Definition apiKeyAuth (API_KEY : option string) (header : option string)
    (query : QueryValue) : AuthOutcome :=
  let apiKey := presentedKey header query in
  match API_KEY with
  | None => Next
  | Some validApiKey =>
      if negb (Js.truthy validApiKey) then Next
      else
        match apiKey with
        | QString k =>
            if Js.truthy k && String.eqb k validApiKey then Next
            else Unauthorized
        | QOther => Unauthorized
        | QAbsent => Unauthorized
        end
  end.

(** ** The CORS origin check: [index.ts] *)

Definition defaultOrigins : list string :=
  ["http://localhost:5173"; "http://localhost:3000"].

(** [allowedOrigins], from [process.env.FRONTEND_URL]. *)
Definition allowedOrigins (FRONTEND_URL : option string) : list string :=
  match FRONTEND_URL with
  | Some url =>
      if Js.truthy url then map Js.trim (JsText.split ","%char url)
      else defaultOrigins
  | None => defaultOrigins
  end.

(** [corsOptions.origin]: [true] for [callback(null, true)], [false] for
    the error [Not allowed by CORS]. *)
Definition corsOrigin (FRONTEND_URL : option string) (origin : option string)
  : bool :=
  match origin with
  | None => true
  | Some o =>
      if negb (Js.truthy o) then true
      else existsb (String.eqb o) (allowedOrigins FRONTEND_URL)
  end.

(** ** [formatMessage]: [ChatWidget.svelte] *)


(** ** The remaining methods of [ConversationService] *)

(** A JavaScript number as [parseInt(text, 10)] returns it and as the
    data routes pass it on: not a number, a finite number, which then has
    no fraction, or an infinity (a run of digits too long for a float64).
    [Int z] stands for the float64 of value [z]. *)
Inductive JsNumber : Type :=
| NaN
| Int (z : Z)
| PosInfinity
| NegInfinity.

(** The error better-sqlite3 throws when SQLite refuses the value bound
    to [LIMIT ?] or [OFFSET ?]. *)
Definition datatypeMismatch : JsError :=
  {| message := Some "datatype mismatch"; code := Some "SQLITE_MISMATCH" |}.

(** The 64-bit integer SQLite makes of a number bound to [LIMIT ?] or
    [OFFSET ?].  The number reaches SQLite as a float64, or as the
    integer it is; SQLite takes a float64 there only when it is an
    integer strictly between -2^63 and 2^63, and [NaN], which is bound as
    NULL, never. *)
Definition sqliteInteger (n : JsNumber) : option Z :=
  match n with
  | Int z => if (- 2 ^ 63 <? z)%Z && (z <? 2 ^ 63)%Z then Some z else None
  | _ => None
  end.

(** The rows [LIMIT l OFFSET o] lets through: a negative limit is no
    limit, a negative offset is 0. *)
Definition limitRows {A : Type} (l o : Z) (rows : list A) : list A :=
  let rows := drop (Z.to_nat o) rows in
  if (l <? 0)%Z then rows else take (Z.to_nat l) rows.

(** [LIMIT ?], and [LIMIT ? OFFSET ?] when an offset is bound, at the end
    of a statement whose rows are [rows]. *)
Definition sqlLimit {A : Type} (limit : JsNumber) (offset : option JsNumber)
    (rows : list A) : Completion (list A) :=
  match sqliteInteger limit with
  | None => Throw datatypeMismatch
  | Some l =>
      match offset with
      | None => Return (limitRows l 0 rows)
      | Some offset =>
          match sqliteInteger offset with
          | None => Throw datatypeMismatch
          | Some o => Return (limitRows l o rows)
          end
      end
  end.

(** The rows of [conversations], in the order the map lists them, which
    is not the rowid order of the table. *)
Definition conversationRows (d : Db) : list ConversationData :=
  (fun kv : string * ConversationRow =>
     mkConversation kv.1 (row_createdAt kv.2) (row_updatedAt kv.2))
    <$> map_to_list (conversations d).

(** [ORDER BY updatedAt DESC], done by a sort that keeps rows with equal
    keys in the order they come in.  In the table that order is the rowid
    order, which [conversationRows] does not have: the listing of
    conversations is as in the program where no two conversations have the
    same [updatedAt], and up to the order of such conversations
    otherwise. *)
Fixpoint insertByUpdatedAtDesc (c : ConversationData)
    (sorted : list ConversationData) : list ConversationData :=
  match sorted with
  | [] => [c]
  | x :: rest =>
      if String.leb (conv_updatedAt c) (conv_updatedAt x)
      then x :: insertByUpdatedAtDesc c rest
      else c :: sorted
  end.

Definition orderByUpdatedAtDesc (rows : list ConversationData)
  : list ConversationData :=
  foldl (fun acc c => insertByUpdatedAtDesc c acc) [] rows.

(** [WHERE conversationId = ? ORDER BY timestamp DESC]: SQLite finds the
    rows through the index on [conversationId] and sorts them; the sort
    keeps rows with equal keys in rowid order. *)
Fixpoint insertByTimestampDesc (m : MessageData) (sorted : list MessageData)
  : list MessageData :=
  match sorted with
  | [] => [m]
  | x :: rest =>
      if String.leb (msg_timestamp m) (msg_timestamp x)
      then x :: insertByTimestampDesc m rest
      else m :: sorted
  end.

Definition orderByTimestampDesc (rows : list MessageData)
  : list MessageData :=
  foldl (fun acc m => insertByTimestampDesc m acc) [] rows.

(** [ORDER BY timestamp DESC] over the whole table: SQLite reads the
    index on [timestamp] backwards, so that rows with equal keys come in
    reverse rowid order. *)
Definition scanByTimestampDesc (rows : list MessageData)
  : list MessageData :=
  rev (orderByTimestamp rows).

(** The integer fields of the result of [getStats]; its fifth field, the
    rounded average, is a floating-point number and has no counterpart
    here. *)
Record StatCounts : Type := mkStatCounts {
  totalConversations : nat;
  totalMessages : nat;
  userMessages : nat;
  aiMessages : nat
}.

(** The methods the data routes use. *)
Module ConversationQueries.

Definition getAllConversations (limit offset : option JsNumber)
  : M Db (list ConversationData) :=
  fun d =>
    let rows := orderByUpdatedAtDesc (conversationRows d) in
    (d, match limit with
        | Some limit => sqlLimit limit offset rows
        | None => Return rows
        end).

Definition getConversationWithMessages (conversationId : string)
  : M Db (option (ConversationData * list MessageData)) :=
  let* conversation := ConversationService.getConversation conversationId in
  match conversation with
  | None => ret None
  | Some c =>
      let* msgs := ConversationService.getMessages conversationId in
      ret (Some (c, msgs))
  end.

Definition getAllMessages (limit offset : option JsNumber)
    (conversationId : option string) : M Db (list MessageData) :=
  fun d =>
    let rows :=
      match conversationId with
      | Some cid =>
          if Js.truthy cid
          then orderByTimestampDesc (ofConversation cid (messages d))
          else scanByTimestampDesc (messages d)
      | None => scanByTimestampDesc (messages d)
      end in
    (d, match limit with
        | Some limit => sqlLimit limit offset rows
        | None => Return rows
        end).

(** [SELECT COUNT( * ) ... FROM messages WHERE sender = ?] *)
Definition countMessagesOf (s : Sender) (d : Db) : nat :=
  length (filter (fun m => msg_sender m = s) (messages d)).

(** The four counting queries of [getStats]. *)
Definition getStatCounts : M Db StatCounts :=
  gets (fun d =>
    {| totalConversations := size (conversations d);
       totalMessages := length (messages d);
       userMessages := countMessagesOf user d;
       aiMessages := countMessagesOf ai d |}).

Definition getConversationCount : M Db nat :=
  gets (fun d => size (conversations d)).

End ConversationQueries.

(** ** The data routes: [dataRoutes.ts] *)

Inductive DataBody : Type :=
| ConversationsPage (page : list ConversationData) (total : Z)
    (limit offset : JsNumber) (hasMore : bool)
| ConversationDetail (conversation : ConversationData)
    (msgs : list MessageData)
| MessagesPage (msgs : list MessageData) (limit offset : JsNumber)
    (conversationId : option string)
| DataError (error : string).

Record DataResponse : Type := mkDataResponse {
  data_status : nat;
  data_body : DataBody
}.

Definition dataServerError : DataResponse :=
  {| data_status := 500; data_body := DataError "Internal server error" |}.

Definition invalidLimitResponse : DataResponse :=
  {| data_status := 400;
     data_body :=
       DataError "Invalid limit parameter. Must be between 1 and 100." |}.

Definition invalidOffsetResponse : DataResponse :=
  {| data_status := 400;
     data_body := DataError "Invalid offset parameter. Must be >= 0." |}.

(** [limit !== undefined && (isNaN(limit) || limit < 1 || limit > 100)] *)
Definition limitRefused (limit : option JsNumber) : bool :=
  match limit with
  | None => false
  | Some NaN => true
  | Some (Int l) => (l <? 1)%Z || (100 <? l)%Z
  | Some PosInfinity => true
  | Some NegInfinity => true
  end.

(** [offset !== undefined && (isNaN(offset) || offset < 0)] *)
Definition offsetRefused (offset : option JsNumber) : bool :=
  match offset with
  | None => false
  | Some NaN => true
  | Some (Int o) => (o <? 0)%Z
  | Some PosInfinity => false
  | Some NegInfinity => true
  end.

(** [a || b], where [a] may be undefined and [b] is a count. *)
Definition numberOr (a : option JsNumber) (b : Z) : JsNumber :=
  match a with
  | None => Int b
  | Some NaN => Int b
  | Some (Int z) => if (z =? 0)%Z then Int b else Int z
  | Some n => n
  end.

(** [a + b].  The sum of two finite numbers is exact below 2^53 and
    rounded beyond. *)
Definition jsAdd (a b : JsNumber) : JsNumber :=
  match a, b with
  | NaN, _ => NaN
  | _, NaN => NaN
  | Int x, Int y => Int (x + y)
  | PosInfinity, NegInfinity => NaN
  | NegInfinity, PosInfinity => NaN
  | PosInfinity, _ => PosInfinity
  | _, PosInfinity => PosInfinity
  | NegInfinity, _ => NegInfinity
  | _, NegInfinity => NegInfinity
  end.

(** [a < total], where [total] is a count of rows.  A count of rows is
    below 2^53, so that a rounded sum compares with it as the exact sum
    does. *)
Definition jsLessThan (a : JsNumber) (total : Z) : bool :=
  match a with
  | Int x => (x <? total)%Z
  | NegInfinity => true
  | _ => false
  end.

(** [router.get('/conversations', ...)]; [limit] and [offset] are
    [undefined] ([None]) when the query field is missing or empty, and the
    value of [parseInt] otherwise. *)
Definition getConversationsRoute (limit offset : option JsNumber)
  : M World DataResponse :=
  tryCatch
    (if limitRefused limit then ret invalidLimitResponse
     else if offsetRefused offset then ret invalidOffsetResponse
     else
       let* page :=
         liftDb (ConversationQueries.getAllConversations limit offset) in
       let* total := liftDb ConversationQueries.getConversationCount in
       ret {| data_status := 200;
              data_body :=
                ConversationsPage page (Z.of_nat total)
                  (numberOr limit (Z.of_nat total))
                  (numberOr offset 0)
                  (match limit, offset with
                   | Some l, Some o =>
                       jsLessThan (jsAdd o l) (Z.of_nat total)
                   | _, _ => false
                   end) |})
    (fun _ => ret dataServerError).

(** [router.get('/conversations/:id', ...)] *)
Definition getConversationRoute (id : string) : M World DataResponse :=
  tryCatch
    (if negb (isUuid id)
     then ret {| data_status := 400;
                 data_body := DataError "Invalid conversation ID format" |}
     else
       let* conversation :=
         liftDb (ConversationQueries.getConversationWithMessages id) in
       match conversation with
       | None =>
           ret {| data_status := 404;
                  data_body := DataError "Conversation not found" |}
       | Some (c, msgs) =>
           ret {| data_status := 200;
                  data_body := ConversationDetail c msgs |}
       end)
    (fun _ => ret dataServerError).

(** [router.get('/messages', ...)]; [conversationId] is the query field,
    when it is a string. *)
Definition getMessagesRoute (limit offset : option JsNumber)
    (conversationId : option string) : M World DataResponse :=
  tryCatch
    (if limitRefused limit then ret invalidLimitResponse
     else if offsetRefused offset then ret invalidOffsetResponse
     else if match conversationId with
             | Some cid => Js.truthy cid && negb (isUuid cid)
             | None => false
             end
     then ret {| data_status := 400;
                 data_body := DataError "Invalid conversation ID format" |}
     else
       let* msgs :=
         liftDb (ConversationQueries.getAllMessages limit offset
                   conversationId) in
       ret {| data_status := 200;
              data_body :=
                MessagesPage msgs
                  (numberOr limit (Z.of_nat (length msgs)))
                  (numberOr offset 0)
                  (match conversationId with
                   | Some cid => if Js.truthy cid then Some cid else None
                   | None => None
                   end) |})
    (fun _ => ret dataServerError).

(** ** Vocabulary of the further statements *)

(** The order of [ORDER BY timestamp DESC] and of
    [ORDER BY updatedAt DESC]. *)
Definition tsGe (a b : MessageData) : Prop :=
  String.le (msg_timestamp b) (msg_timestamp a).

Definition updatedAtGe (a b : ConversationData) : Prop :=
  String.le (conv_updatedAt b) (conv_updatedAt a).

(** Every character is a hexadecimal digit. *)
Fixpoint allHex (s : string) : bool :=
  match s with
  | EmptyString => true
  | String c s' => isHexDigit c && allHex s'
  end.

(** The ids of [messages] are pairwise different. *)
Definition messageIdsUnique (d : Db) : Prop :=
  NoDup (msg_id <$> messages d).

(** No call of the provider is in the record. *)
Definition noProviderCall (events : list Event) : Prop :=
  forall prompt, CallGenerateContent prompt ∉ events.


(** A number SQLite takes for [LIMIT ?] or [OFFSET ?]: a finite one
    strictly between -2^63 and 2^63. *)
Definition bindable (n : JsNumber) : Prop :=
  exists z, n = Int z /\ (- 2 ^ 63 < z < 2 ^ 63)%Z.

(** A database of three conversations, updated at different times, and
    five messages, two of them with the same timestamp. *)
Module SampleData.

Definition conversationC : string := "33333333-3333-4333-8333-333333333333".
Definition messageB1 : string := "cccccccc-0000-4000-8000-000000000001".
Definition messageC1 : string := "dddddddd-0000-4000-8000-000000000001".
Definition messageC2 : string := "dddddddd-0000-4000-8000-000000000002".

Definition db3 : Db :=
  (ConversationService.createConversation
     Sample.conversationB Sample.t2 Sample.db2).1.
Definition db4 : Db :=
  (ConversationService.createConversation conversationC Sample.t3 db3).1.
Definition db4a : Db :=
  (ConversationService.addMessage
     messageC1 Sample.t3 conversationC user "Do you ship to Canada?" db4).1.
Definition db4b : Db :=
  (ConversationService.addMessage
     messageB1 Sample.t3 Sample.conversationB user "Hello" db4a).1.
Definition db5 : Db :=
  (ConversationService.addMessage
     messageC2 Sample.t4 conversationC ai "Yes, we do." db4b).1.

Definition world5 : World :=
  {| db := db5; llmServiceInstance := None; trace := [] |}.

End SampleData.

(** A number the data routes let pass as an offset and SQLite refuses. *)
Definition beyondInt64 (n : JsNumber) : Prop :=
  n = PosInfinity \/ exists z, n = Int z /\ (2 ^ 63 <= z)%Z.
(* ===================================================================== *)
(** * Properties *)
(* ===================================================================== *)

(** ** Strings *)

Section JsFacts.

Lemma trimStart_shape (s : string) :
  Js.trimStart s = EmptyString
  \/ exists c r, Js.trimStart s = String c r /\ Js.isWhite c = false.
Proof.
  induction s as [|c s IH]; simpl; [by left|].
  destruct (Js.isWhite c) eqn:Hc; [exact IH|].
  right. by exists c, s.
Qed.

Lemma trimEnd_cons_nonwhite (c : ascii) (s : string) :
  Js.isWhite c = false -> Js.trimEnd (String c s) = String c (Js.trimEnd s).
Proof. intros Hc. simpl. rewrite Hc. by destruct (Js.trimEnd s). Qed.

Lemma trimEnd_idem (s : string) : Js.trimEnd (Js.trimEnd s) = Js.trimEnd s.
Proof.
  induction s as [|c s IH]; [done|].
  simpl. destruct (Js.trimEnd s) as [|d r] eqn:Hs.
  - destruct (Js.isWhite c) eqn:Hc; [done|]. simpl. by rewrite Hc.
  - change (Js.trimEnd (String c (String d r))) with
      (match Js.trimEnd (String d r) with
       | EmptyString =>
           if Js.isWhite c then EmptyString else String c EmptyString
       | String a b => String c (String a b)
       end).
    by rewrite IH.
Qed.

Lemma trim_idem (s : string) : Js.trim (Js.trim s) = Js.trim s.
Proof.
  unfold Js.trim.
  destruct (trimStart_shape s) as [->|(c & r & -> & Hc)]; [done|].
  rewrite (trimEnd_cons_nonwhite _ _ Hc). simpl Js.trimStart. rewrite Hc.
  rewrite (trimEnd_cons_nonwhite _ _ Hc). by rewrite trimEnd_idem.
Qed.

Lemma length_zero_empty (s : string) :
  (String.length s =? 0)%nat = true <-> s = EmptyString.
Proof. destruct s; simpl; split; intros; congruence. Qed.

Lemma truthy_false_empty (s : string) :
  Js.truthy s = false <-> s = EmptyString.
Proof. destruct s; simpl; split; intros; congruence. Qed.

(** The test [!s || s.trim().length === 0] holds exactly of the strings
    that are empty after trimming. *)
Lemma blank_test (s : string) :
  negb (Js.truthy s) || (String.length (Js.trim s) =? 0)%nat = true
  <-> Js.trim s = EmptyString.
Proof.
  rewrite orb_true_iff, negb_true_iff, truthy_false_empty, length_zero_empty.
  split; [intros [->|H]; [done|exact H] | by right].
Qed.

Lemma blank_test_false (s : string) :
  negb (Js.truthy s) || (String.length (Js.trim s) =? 0)%nat = false
  <-> Js.trim s <> EmptyString.
Proof.
  rewrite <- blank_test. destruct (negb _ || _); split; congruence.
Qed.

Lemma length_append (a b : string) :
  String.length (a +:+ b) = String.length a + String.length b.
Proof. induction a as [|c a IH]; simpl; [done|]. by rewrite IH. Qed.

Lemma length_take (n : nat) (s : string) :
  String.length (String.substring 0 n s) = Nat.min n (String.length s).
Proof.
  revert s. induction n as [|n IH]; intros [|c s]; simpl; try done.
  by rewrite IH.
Qed.

(** The first [n] characters of [s] followed by the rest give [s] back. *)
Lemma take_is_prefix (n : nat) (s : string) :
  exists rest, s = String.substring 0 n s +:+ rest.
Proof.
  revert s. induction n as [|n IH]; intros [|c s].
  - by exists EmptyString.
  - by exists (String c s).
  - by exists EmptyString.
  - destruct (IH s) as [rest Hr]. exists rest.
    change (String c s = String c (String.substring 0 n s +:+ rest)).
    by rewrite <- Hr.
Qed.

Lemma sliceLast_length {A} (n : nat) (xs : list A) :
  length (Js.sliceLast n xs) = Nat.min n (length xs).
Proof. unfold Js.sliceLast. rewrite length_drop. lia. Qed.

Lemma sliceLast_suffix {A} (n : nat) (xs : list A) :
  Js.sliceLast n xs `suffix_of` xs.
Proof. unfold Js.sliceLast. apply suffix_drop. Qed.

Lemma sliceLast_snoc {A} (n : nat) (xs : list A) (x : A) :
  exists front, Js.sliceLast (S n) (xs ++ [x])%list = (front ++ [x])%list.
Proof.
  unfold Js.sliceLast. rewrite length_app. simpl.
  replace (length xs + 1 - S n) with (length xs - n) by lia.
  rewrite drop_app_le by lia. by eexists.
Qed.

End JsFacts.

(** ** [ORDER BY timestamp ASC] *)

Section Ordering.

Local Instance tsLe_trans : Transitive tsLe.
Proof. intros a b c. unfold tsLe. apply transitivity. Qed.

Lemma leb_tsLe (a b : MessageData) :
  String.leb (msg_timestamp a) (msg_timestamp b) = true <-> tsLe a b.
Proof. unfold tsLe, String.le. symmetry. apply Is_true_true. Qed.

Lemma leb_false_tsLe (a b : MessageData) :
  String.leb (msg_timestamp a) (msg_timestamp b) = false -> tsLe b a.
Proof.
  intros H. apply leb_tsLe.
  destruct (String.leb_total (msg_timestamp a) (msg_timestamp b)); congruence.
Qed.

Lemma insertByTimestamp_perm (m : MessageData) (l : list MessageData) :
  insertByTimestamp m l ≡ₚ m :: l.
Proof.
  induction l as [|x l IH]; simpl; [done|].
  destruct (String.leb _ _); [|done].
  rewrite IH. apply perm_swap.
Qed.

Lemma insertByTimestamp_sorted (m : MessageData) (l : list MessageData) :
  StronglySorted tsLe l -> StronglySorted tsLe (insertByTimestamp m l).
Proof.
  induction l as [|x l IH]; simpl; intros Hs.
  - repeat constructor.
  - apply StronglySorted_inv in Hs as [Hl Hx].
    destruct (String.leb _ _) eqn:Hle.
    + constructor; [by apply IH|].
      rewrite insertByTimestamp_perm. constructor; [by apply leb_tsLe|done].
    + apply leb_false_tsLe in Hle.
      constructor; [by constructor|].
      constructor; [done|].
      eapply Forall_impl; [exact Hx|]. intros y Hy. by etrans.
Qed.

(** A row that is not earlier than any row of a sorted list goes last. *)
Lemma insertByTimestamp_latest (m : MessageData) (l : list MessageData) :
  Forall (fun x => tsLe x m) l -> insertByTimestamp m l = (l ++ [m])%list.
Proof.
  induction 1 as [|x l Hx _ IH]; simpl; [done|].
  apply leb_tsLe in Hx. by rewrite Hx, IH.
Qed.

Lemma orderByTimestamp_snoc (l : list MessageData) (m : MessageData) :
  orderByTimestamp (l ++ [m]) = insertByTimestamp m (orderByTimestamp l).
Proof. unfold orderByTimestamp. by rewrite foldl_app. Qed.

Lemma orderByTimestamp_perm (l : list MessageData) : orderByTimestamp l ≡ₚ l.
Proof.
  induction l as [|m l IH] using rev_ind; [done|].
  rewrite orderByTimestamp_snoc, insertByTimestamp_perm, IH.
  by rewrite Permutation_app_comm.
Qed.

Lemma orderByTimestamp_sorted (l : list MessageData) :
  StronglySorted tsLe (orderByTimestamp l).
Proof.
  induction l as [|m l IH] using rev_ind; [constructor|].
  rewrite orderByTimestamp_snoc. by apply insertByTimestamp_sorted.
Qed.

Lemma orderByTimestamp_length (l : list MessageData) :
  length (orderByTimestamp l) = length l.
Proof. by rewrite orderByTimestamp_perm. Qed.

Lemma elem_of_orderByTimestamp (l : list MessageData) (x : MessageData) :
  x ∈ orderByTimestamp l <-> x ∈ l.
Proof. by rewrite orderByTimestamp_perm. Qed.

Lemma elem_of_selectMessages (cid : string) (d : Db) (x : MessageData) :
  x ∈ selectMessages cid d <-> msg_conversationId x = cid /\ x ∈ messages d.
Proof.
  unfold selectMessages, ofConversation.
  by rewrite elem_of_orderByTimestamp, list_elem_of_filter.
Qed.

End Ordering.

(** ** The store operations *)

Section Store.

Import ConversationService.

Lemma createConversation_fresh (id now : string) (d : Db) :
  conversations d !! id = None ->
  createConversation id now d
  = (withConversation id (mkRow now now) d, Return (mkConversation id now now)).
Proof.
  intros H. unfold createConversation, bind, insertConversation, ret.
  by rewrite H.
Qed.

Lemma createConversation_inv (id now : string) (d d' : Db)
    (c : ConversationData) :
  createConversation id now d = (d', Return c) ->
  conversations d !! id = None
  /\ d' = withConversation id (mkRow now now) d
  /\ c = mkConversation id now now.
Proof.
  unfold createConversation, bind, insertConversation, ret.
  destruct (conversations d !! id) eqn:H; intros [= <- <-]; done.
Qed.

Lemma addMessage_ok (id now cid : string) (sender : Sender) (text : string)
    (d : Db) :
  hasMessageId id (messages d) = false ->
  is_Some (conversations d !! cid) ->
  addMessage id now cid sender text d
  = (withMessage (mkMessage id cid sender text now) d,
     Return (mkMessage id cid sender text now)).
Proof.
  intros Hid [row Hrow].
  unfold addMessage, bind, insertMessage, updateUpdatedAt, modify, ret.
  simpl. by rewrite Hid, Hrow.
Qed.

Lemma addMessage_inv (id now cid : string) (sender : Sender) (text : string)
    (d d' : Db) (m : MessageData) :
  addMessage id now cid sender text d = (d', Return m) ->
  hasMessageId id (messages d) = false
  /\ is_Some (conversations d !! cid)
  /\ m = mkMessage id cid sender text now
  /\ d' = withMessage m d.
Proof.
  unfold addMessage, bind, insertMessage, updateUpdatedAt, modify, ret.
  simpl. destruct (hasMessageId id (messages d)); [by intros [=]|].
  destruct (conversations d !! cid) eqn:Hrow; [|by intros [=]].
  intros [= <- <-]. by eauto.
Qed.

(** A failed [addMessage] leaves the database as it was. *)
Lemma addMessage_throw (id now cid : string) (sender : Sender) (text : string)
    (d d' : Db) (e : JsError) :
  addMessage id now cid sender text d = (d', Throw e) -> d' = d.
Proof.
  unfold addMessage, bind, insertMessage, updateUpdatedAt, modify, ret.
  simpl. destruct (hasMessageId id (messages d)); [by intros [= <-]|].
  destruct (conversations d !! cid); by intros [=].
Qed.

Lemma selectConversation_Some (cid : string) (d : Db) (c : ConversationData) :
  selectConversation cid d = Some c <->
  exists row, conversations d !! cid = Some row
              /\ c = mkConversation cid (row_createdAt row) (row_updatedAt row).
Proof.
  unfold selectConversation. destruct (conversations d !! cid) as [row|];
    simpl; split.
  - intros [= <-]. by exists row.
  - intros (row' & [= <-] & ->). done.
  - intros [=].
  - intros (row' & [=] & _).
Qed.

Lemma selectConversation_None (cid : string) (d : Db) :
  selectConversation cid d = None <-> conversations d !! cid = None.
Proof.
  unfold selectConversation. destruct (conversations d !! cid); simpl;
    split; congruence.
Qed.

Lemma selectConversation_id (cid : string) (d : Db) (c : ConversationData) :
  selectConversation cid d = Some c -> conv_id c = cid.
Proof. intros (row & _ & ->)%selectConversation_Some. done. Qed.

Lemma reachableMonotone_reachable (d : Db) :
  reachableMonotone d -> reachable d.
Proof.
  induction 1; [apply reachable_empty
               |by eapply reachable_create
               |by eapply reachable_add].
Qed.

Lemma ofConversation_snoc (cid : string) (rows : list MessageData)
    (m : MessageData) :
  ofConversation cid (rows ++ [m])
  = (ofConversation cid rows
     ++ if decide (msg_conversationId m = cid) then [m] else [])%list.
Proof.
  unfold ofConversation. by rewrite filter_app.
Qed.

Lemma ofConversation_absent (cid : string) (d : Db) :
  referentialIntegrity d ->
  conversations d !! cid = None ->
  ofConversation cid (messages d) = [].
Proof.
  intros Hfk Hnone. unfold ofConversation.
  destruct (filter _ _) as [|m l] eqn:Hf; [done|].
  assert (Hm : m ∈ filter (fun m => msg_conversationId m = cid) (messages d))
    by (rewrite Hf; left).
  apply list_elem_of_filter in Hm as [Hc Hm].
  apply Hfk in Hm as [row Hrow]. congruence.
Qed.

Lemma reachable_idsWellFormed (d : Db) : reachable d -> idsWellFormed d.
Proof.
  induction 1 as [|id now d d' c _ IH Hid _ Hrun
                  |id now cid sender text d d' m _ IH Hid _ Hrun].
  - intros cid row H. simpl in H. by rewrite lookup_empty in H.
  - apply createConversation_inv in Hrun as (_ & -> & _).
    intros cid row. simpl. rewrite lookup_insert.
    case_decide; [by subst|]. apply IH.
  - apply addMessage_inv in Hrun as (_ & _ & _ & ->).
    intros cid' row. simpl. intros Hl.
    apply lookup_alter_Some in Hl as [(_ & row' & Hl & _)|[_ Hl]];
      by eapply IH.
Qed.

Lemma reachable_referentialIntegrity (d : Db) :
  reachable d -> referentialIntegrity d.
Proof.
  induction 1 as [|id now d d' c _ IH Hid _ Hrun
                  |id now cid sender text d d' m _ IH Hid _ Hrun].
  - intros m Hm. by apply elem_of_nil in Hm.
  - apply createConversation_inv in Hrun as (_ & -> & _).
    intros m Hm. simpl in *. rewrite lookup_insert.
    case_decide; [by eexists|]. by apply IH.
  - apply addMessage_inv in Hrun as (_ & Hconv & -> & ->).
    intros m' Hm'. simpl in *.
    assert (is_Some (conversations d !! msg_conversationId m')) as [r Hr].
    { apply elem_of_app in Hm' as [Hm'|Hm']; [by apply IH|].
      apply list_elem_of_singleton in Hm' as ->. exact Hconv. }
    rewrite lookup_alter. case_decide as Hc; [rewrite Hc|]; rewrite Hr;
      by eexists.
Qed.

Lemma reachable_updatedAtTracksLast (d : Db) :
  reachable d -> updatedAtTracksLast d.
Proof.
  induction 1 as [|id now d d' c Hd IH Hid _ Hrun
                  |id now cid sender text d d' m Hd IH Hid _ Hrun].
  - intros cid row m H. simpl in H. by rewrite lookup_empty in H.
  - apply createConversation_inv in Hrun as (Hfresh & -> & _).
    intros cid row m. simpl. rewrite lookup_insert.
    case_decide as Hc; [subst cid|by apply IH].
    rewrite ofConversation_absent;
      [done|by apply reachable_referentialIntegrity|done].
  - apply addMessage_inv in Hrun as (_ & _ & -> & ->).
    intros cid' row m'. simpl. rewrite ofConversation_snoc. simpl.
    rewrite lookup_alter.
    destruct (decide (cid = cid')) as [->|Hne].
    + rewrite last_snoc.
      destruct (conversations d !! cid'); simpl; by intros [= <-] [= <-].
    + rewrite app_nil_r. by apply IH.
Qed.

Lemma reachableMonotone_updatedAtBoundsAll (d : Db) :
  reachableMonotone d -> updatedAtBoundsAll d.
Proof.
  induction 1 as [|id now d d' c Hd IH Hid Hclock Hrun
                  |id now cid sender text d d' m Hd IH Hid Hclock Hrun].
  - intros cid row m _ Hm. by apply elem_of_nil in Hm.
  - apply createConversation_inv in Hrun as (Hfresh & -> & _).
    intros cid row m. simpl. rewrite lookup_insert.
    case_decide as Hc; [subst cid|by apply IH].
    intros _ Hm Hcid.
    apply reachableMonotone_reachable, reachable_referentialIntegrity in Hd.
    apply Hd in Hm as [r Hr]. congruence.
  - apply addMessage_inv in Hrun as (_ & _ & -> & ->).
    intros cid' row m'. simpl. rewrite lookup_alter.
    intros Hrow [Hm'|Hm']%elem_of_app Hcid.
    + case_decide as Hc; [|by eapply IH].
      destruct (conversations d !! cid); simplify_eq/=. by apply Hclock.
    + apply list_elem_of_singleton in Hm' as ->. simpl in *. subst cid'.
      rewrite decide_True in Hrow by done.
      destruct (conversations d !! cid); simplify_eq/=. done.
Qed.

End Store.

Section StoreClaims.

Import ConversationService.

Lemma isUuid_truthy (s : string) : isUuid s = true -> Js.truthy s = true.
Proof. by destruct s. Qed.

Lemma sample_db2_reachableMonotone : reachableMonotone Sample.db2.
Proof.
  eapply (reachable_add _ Sample.messageA2 Sample.t2 Sample.conversationA ai
            "Let me check." Sample.db1);
    [|reflexivity| |by vm_compute].
  - eapply (reachable_add _ Sample.messageA1 Sample.t1 Sample.conversationA
              user "Where is my order?" Sample.db0);
      [|reflexivity| |by vm_compute].
    + eapply (reachable_create _ Sample.conversationA Sample.t0 emptyDb);
        [apply reachable_empty|reflexivity| |by vm_compute].
      intros m Hm. by apply elem_of_nil in Hm.
    + intros m Hm. by apply elem_of_nil in Hm.
  - intros m Hm. apply list_elem_of_singleton in Hm as ->. by vm_compute.
Qed.

Lemma sample_db2_reachable : reachable Sample.db2.
Proof. apply reachableMonotone_reachable, sample_db2_reachableMonotone. Qed.



(** C9.  [addMessage] leaves the parent conversation with [updatedAt]
    equal to the timestamp of the message it returns; in every reachable
    database the [updatedAt] of a conversation is the timestamp of the
    message inserted last for it, hence not earlier than it; and when the
    clock never runs backwards it is not earlier than the timestamp of any
    message of the conversation. *)
Theorem addMessage_updatedAt_invariant :
  (forall id now cid sender text d d' m,
      addMessage id now cid sender text d = (d', Return m) ->
      exists c, selectConversation cid d' = Some c
                /\ conv_updatedAt c = msg_timestamp m
                /\ last (ofConversation cid (messages d')) = Some m)
  /\ (forall d cid c m,
        reachable d ->
        selectConversation cid d = Some c ->
        last (ofConversation cid (messages d)) = Some m ->
        conv_updatedAt c = msg_timestamp m
        /\ String.le (msg_timestamp m) (conv_updatedAt c))
  /\ (forall d cid c m,
        reachableMonotone d ->
        selectConversation cid d = Some c ->
        m ∈ selectMessages cid d ->
        String.le (msg_timestamp m) (conv_updatedAt c)).
Proof.
  split; [|split].
  - intros id now cid sender text d d' m Hrun.
    apply addMessage_inv in Hrun as (_ & [row Hrow] & -> & ->).
    exists (mkConversation cid (row_createdAt row) now). split; [|split].
    + unfold selectConversation. simpl. by rewrite lookup_alter_eq, Hrow.
    + done.
    + simpl. rewrite ofConversation_snoc. simpl.
      rewrite decide_True by done. apply last_snoc.
  - intros d cid c m Hreach Hsel Hlast.
    apply selectConversation_Some in Hsel as (row & Hrow & ->). simpl.
    rewrite (reachable_updatedAtTracksLast d Hreach cid row m Hrow Hlast).
    split; [done|]. reflexivity.
  - intros d cid c m Hreach Hsel Hm.
    apply selectConversation_Some in Hsel as (row & Hrow & ->). simpl.
    apply elem_of_selectMessages in Hm as [Hcid Hm].
    by eapply reachableMonotone_updatedAtBoundsAll.
Qed.

(** The sample conversation: [updatedAt] is the time of its last
    message. *)
Example updatedAt_sample :
  selectConversation Sample.conversationA Sample.db2
  = Some (mkConversation Sample.conversationA Sample.t0 Sample.t2)
  /\ last (ofConversation Sample.conversationA (messages Sample.db2))
     = Some (mkMessage Sample.messageA2 Sample.conversationA ai
                       "Let me check." Sample.t2).
Proof. by vm_compute. Qed.

End StoreClaims.

(** ** The reply generator *)

Section Generator.

Import LLMService.

Variable model : GenerativeModel.

Lemma rethrow_EMPTY_INPUT : rethrow (newError EMPTY_INPUT) = newError EMPTY_INPUT.
Proof. reflexivity. Qed.

Lemma rethrow_EMPTY_RESPONSE :
  rethrow (newError EMPTY_RESPONSE) = newError EMPTY_RESPONSE.
Proof. reflexivity. Qed.

(** A blank message is refused before the provider is called. *)
Lemma generateReply_blank (userMessage : string) (history : list MessageData)
    (w : World) :
  Js.trim userMessage = EmptyString ->
  generateReply model userMessage history w
  = (w, Throw (newError EMPTY_INPUT)).
Proof.
  intros Hblank. apply blank_test in Hblank.
  unfold generateReply, tryCatch, attempt. rewrite Hblank.
  unfold throw. by rewrite rethrow_EMPTY_INPUT.
Qed.

(** Any other message reaches the provider, once, and the outcome is read
    off the provider's answer. *)
Lemma generateReply_sends (userMessage : string) (history : list MessageData)
    (w : World) :
  Js.trim userMessage <> EmptyString ->
  generateReply model userMessage history w
  = (logged (CallGenerateContent (promptOf (truncated userMessage) history)) w,
     replyOf (model (promptOf (truncated userMessage) history))).
Proof.
  intros Hblank. apply blank_test_false in Hblank.
  unfold generateReply, tryCatch, attempt. rewrite Hblank.
  unfold callModel, bind, emit, modify. simpl.
  destruct (model _) as [text|e]; simpl; [|done].
  unfold ret, throw.
  destruct (Js.trim text) as [|c r] eqn:Ht; simpl; [|done].
  by rewrite rethrow_EMPTY_RESPONSE.
Qed.

End Generator.

Section GeneratorClaims.

Import LLMService.

Lemma kindOf_EmptyInput (e : JsError) :
  kindOf e = EmptyInput <-> message e = Some EMPTY_INPUT.
Proof.
  unfold kindOf. destruct (message e) as [m|]; [|split; discriminate].
  destruct (String.eqb_spec m INVALID_KEY) as [->|?];
    [split; intros H; [discriminate H|by vm_compute in H]|].
  destruct (String.eqb_spec m RATE_LIMITED) as [->|?];
    [split; intros H; [discriminate H|by vm_compute in H]|].
  destruct (String.eqb_spec m TIMED_OUT) as [->|?];
    [split; intros H; [discriminate H|by vm_compute in H]|].
  destruct (String.eqb_spec m EMPTY_RESPONSE) as [->|?];
    [split; intros H; [discriminate H|by vm_compute in H]|].
  destruct (String.eqb_spec m EMPTY_INPUT) as [->|?]; [done|].
  split; [discriminate|congruence].
Qed.

Lemma rethrow_cases (pe : JsError) :
  rethrow pe = newError INVALID_KEY
  \/ rethrow pe = newError RATE_LIMITED
  \/ rethrow pe = newError TIMED_OUT
  \/ rethrow pe = newError GENERIC_FAILURE
  \/ exists pm, message pe = Some pm /\ pm <> EmptyString /\ unmarked pm
                /\ codeIs pe "ETIMEDOUT" = false
                /\ rethrow pe = newError pm.
Proof.
  unfold rethrow, messageIncludes.
  destruct (message pe) as [pm|] eqn:Hm.
  - destruct (Js.includes pm "API_KEY") eqn:H1; [by left|].
    destruct (Js.includes pm "quota") eqn:H2; [by right; left|].
    destruct (Js.includes pm "rate limit") eqn:H3; [by right; left|].
    destruct (Js.includes pm "timeout") eqn:H4; [by right; right; left|].
    simpl. destruct (codeIs pe "ETIMEDOUT") eqn:H5; [by right; right; left|].
    destruct pm as [|c pm]; [by right; right; right; left|].
    right; right; right; right. exists (String c pm). by repeat split.
  - simpl. destruct (codeIs pe "ETIMEDOUT"); [by right; right; left|].
    by right; right; right; left.
Qed.

(** C5.  A message that is not blank reaches the provider whatever its
    length.  The prompt sent is the template filled in with the message as
    it is when it has at most 2000 characters, and with its first 2000
    characters followed by an ellipsis of three dots when it is longer.
    The call then returns or fails as the provider's answer decides: a
    text that is not blank is returned trimmed, so that the length of the
    message is never a reason of failure. *)
Theorem generateReply_truncates (model : GenerativeModel)
    (userMessage : string) (history : list MessageData) (w : World) :
  Js.trim userMessage <> EmptyString ->
  exists sent prompt,
    prompt
    = DOMAIN_KNOWLEDGE +:+ newline +:+ newline
        +:+ "Previous conversation:" +:+ newline
        +:+ Js.orElse (historyText history)
              "This is the start of the conversation."
        +:+ newline +:+ newline
        +:+ "Customer: " +:+ sent +:+ newline
        +:+ "Support Agent:"
    /\ (generateReply model userMessage history w).1
       = logged (CallGenerateContent prompt) w
    /\ (forall text,
          model prompt = Responded text -> Js.trim text <> EmptyString ->
          (generateReply model userMessage history w).2
          = Return (Js.trim text))
    /\ (forall text,
          model prompt = Responded text -> Js.trim text = EmptyString ->
          (generateReply model userMessage history w).2
          = Throw (newError EMPTY_RESPONSE))
    /\ (forall pe,
          model prompt = Rejected pe ->
          (generateReply model userMessage history w).2
          = Throw (rethrow pe))
    /\ (String.length userMessage <= 2000 -> sent = userMessage)
    /\ (2000 < String.length userMessage ->
        sent = String.substring 0 2000 userMessage +:+ "..."
        /\ String.length sent = 2003
        /\ exists rest,
            userMessage = String.substring 0 2000 userMessage +:+ rest).
Proof.
  intros Hblank.
  exists (truncated userMessage), (promptOf (truncated userMessage) history).
  split; [reflexivity|].
  rewrite generateReply_sends by done. cbn [fst snd].
  split; [done|]. split; [|split; [|split]].
  - intros text -> Htext. simpl. by destruct (Js.trim text).
  - intros text -> Htext. simpl. by rewrite Htext.
  - by intros pe ->.
  - unfold truncated, MAX_MESSAGE_LENGTH, Js.substring.
    change (Init.Nat.max 0 2000 - Init.Nat.min 0 2000) with 2000.
    change (Init.Nat.min 0 2000) with 0.
    split.
    + intros Hle. by rewrite (proj2 (Nat.ltb_ge _ _) Hle).
    + intros Hlt. rewrite (proj2 (Nat.ltb_lt _ _) Hlt).
      split; [done|]. split; [|apply take_is_prefix].
      rewrite length_append, length_take.
      change (String.length "...") with 3. lia.
Qed.

(** A message of 2001 characters: the prompt carries its first 2000
    characters and the dots, and the provider's answer is returned. *)
Lemma generateReply_truncates_witness :
  exists sent prompt,
    2000 < String.length (SampleLLM.replicate 2001 "x")
    /\ sent = SampleLLM.replicate 2000 "x" +:+ "..."
    /\ String.length sent = 2003
    /\ prompt
       = DOMAIN_KNOWLEDGE +:+ newline +:+ newline
           +:+ "Previous conversation:" +:+ newline
           +:+ "This is the start of the conversation."
           +:+ newline +:+ newline
           +:+ "Customer: " +:+ sent +:+ newline
           +:+ "Support Agent:"
    /\ generateReply SampleLLM.answering (SampleLLM.replicate 2001 "x") []
         SampleLLM.world0
       = (logged (CallGenerateContent prompt) SampleLLM.world0,
          Return "Standard shipping takes 5-7 business days.").
Proof.
  assert (Hlong : 2000 < String.length (SampleLLM.replicate 2001 "x")).
  { apply Nat.ltb_lt. by vm_compute. }
  destruct (generateReply_truncates SampleLLM.answering
              (SampleLLM.replicate 2001 "x") [] SampleLLM.world0)
    as (sent & prompt & Hprompt & Hworld & Hreturn & _ & _ & _ & Hsent);
    [by vm_compute|].
  destruct (Hsent Hlong) as (Hcut & Hlength & _).
  assert (Hvalue : sent = SampleLLM.replicate 2000 "x" +:+ "...").
  { rewrite Hcut. by vm_compute. }
  exists sent, prompt. split; [exact Hlong|]. split; [exact Hvalue|].
  split; [exact Hlength|]. split; [exact Hprompt|].
  rewrite (surjective_pairing (generateReply _ _ _ _)), Hworld.
  by rewrite (Hreturn "  Standard shipping takes 5-7 business days.  "
                eq_refl ltac:(by vm_compute)).
Defined.

End GeneratorClaims.

Section GeneratorFailures.

Import LLMService.

Lemma replyOf_Return (answer : ProviderOutcome) (r : string) :
  replyOf answer = Return r ->
  exists text, answer = Responded text /\ r = Js.trim text
               /\ Js.trim text <> EmptyString.
Proof.
  destruct answer as [text|e]; simpl; [|discriminate].
  destruct (Js.trim text) eqn:Ht; [discriminate|].
  intros [= <-]. exists text. by rewrite Ht.
Qed.

Lemma replyOf_Throw (answer : ProviderOutcome) (e : JsError) :
  replyOf answer = Throw e ->
  (exists text, answer = Responded text /\ Js.trim text = EmptyString
                /\ e = newError EMPTY_RESPONSE)
  \/ (exists pe, answer = Rejected pe /\ e = rethrow pe).
Proof.
  destruct answer as [text|pe]; simpl.
  - destruct (Js.trim text) eqn:Ht; [|discriminate].
    intros [= <-]. left. by exists text.
  - intros [= <-]. right. by exists pe.
Qed.

Lemma logged_trace_neq (ev : Event) (w : World) :
  trace (logged ev w) <> trace w.
Proof.
  simpl. intros H. apply (f_equal length) in H.
  rewrite length_app in H. simpl in H. lia.
Qed.

Lemma generateReply_Return_nonblank (model : GenerativeModel)
    (userMessage : string) (history : list MessageData) (w w' : World)
    (r : string) :
  generateReply model userMessage history w = (w', Return r) ->
  Js.trim r <> EmptyString /\ r <> EmptyString.
Proof.
  destruct (decide (Js.trim userMessage = EmptyString)) as [Hblank|Hblank].
  - by rewrite generateReply_blank.
  - rewrite generateReply_sends by done. intros [= <- Hr].
    apply replyOf_Return in Hr as (text & _ & -> & Hne).
    rewrite trim_idem. done.
Qed.

(** C6.  A message that is blank after trimming makes [generateReply] fail
    with the EmptyInput error, and the provider is not called; a failure
    of a call that did not reach the provider is that one and comes from
    a blank message only; when the provider's own errors do not carry the
    EmptyInput text, a failure has the EmptyInput kind exactly when the
    message is blank; a provider answer that is blank after trimming fails
    with the EmptyResponse error; and a returned reply is not blank. *)
Theorem generateReply_empty_input_and_response (model : GenerativeModel)
    (userMessage : string) (history : list MessageData) (w : World) :
  (Js.trim userMessage = EmptyString ->
   generateReply model userMessage history w
   = (w, Throw (newError EMPTY_INPUT))
   /\ kindOf (newError EMPTY_INPUT) = EmptyInput)
  /\ (forall w' e,
        generateReply model userMessage history w = (w', Throw e) ->
        (e = newError EMPTY_INPUT /\ trace w' = trace w
         <-> Js.trim userMessage = EmptyString))
  /\ (forall w' e,
        (forall prompt pe, model prompt = Rejected pe ->
                           message pe <> Some EMPTY_INPUT) ->
        generateReply model userMessage history w = (w', Throw e) ->
        (kindOf e = EmptyInput <-> Js.trim userMessage = EmptyString))
  /\ (forall text,
        Js.trim userMessage <> EmptyString ->
        model (promptOf (truncated userMessage) history) = Responded text ->
        Js.trim text = EmptyString ->
        (generateReply model userMessage history w).2
        = Throw (newError EMPTY_RESPONSE)
        /\ kindOf (newError EMPTY_RESPONSE) = EmptyResponse)
  /\ (forall w' r,
        generateReply model userMessage history w = (w', Return r) ->
        Js.trim r <> EmptyString /\ r <> EmptyString).
Proof.
  destruct (decide (Js.trim userMessage = EmptyString)) as [Hblank|Hblank].
  - pose proof (generateReply_blank model _ history w Hblank) as Hrun.
    split; [done|]. split; [|split; [|split]].
    + intros w' e. rewrite Hrun. by intros [= <- <-].
    + intros w' e _. rewrite Hrun. by intros [= <- <-].
    + intros text Hne. by destruct Hne.
    + intros w' r. rewrite Hrun. discriminate.
  - pose proof (generateReply_sends model _ history w Hblank) as Hrun.
    split; [done|]. split; [|split; [|split]].
    + intros w' e. rewrite Hrun. intros [= <- He]. split; [|done].
      intros [_ Htrace]. by apply logged_trace_neq in Htrace.
    + intros w' e Hprovider. rewrite Hrun. intros [= <- He].
      split; [|done]. intros Hkind. exfalso.
      apply kindOf_EmptyInput in Hkind.
      apply replyOf_Throw in He as [(text & _ & _ & ->)|(pe & Hpe & ->)];
        [by vm_compute in Hkind|].
      apply Hprovider in Hpe.
      destruct (rethrow_cases pe)
        as [H|[H|[H|[H|(pm & Hm & _ & _ & _ & H)]]]];
        rewrite H in Hkind; try by vm_compute in Hkind.
      simpl in Hkind. congruence.
    + intros text _ Hanswer Htext. rewrite Hrun. simpl.
      by rewrite Hanswer; simpl; rewrite Htext.
    + intros w' r. apply generateReply_Return_nonblank.
Qed.

Lemma rethrow_raisedAs (userMessage : string) (pe : JsError) :
  Js.trim userMessage <> EmptyString ->
  exists k, raisedAs k userMessage (Rejected pe) (rethrow pe).
Proof.
  intros Hblank. unfold rethrow.
  destruct (messageIncludes pe "API_KEY") eqn:H1.
  { exists InvalidCredentials. split; [done|]. by exists pe. }
  destruct (messageIncludes pe "quota") eqn:H2.
  { exists RateLimited. split; [done|]. exists pe.
    split; [done|]. split; [done|]. split; [by left|done]. }
  destruct (messageIncludes pe "rate limit") eqn:H3.
  { exists RateLimited. split; [done|]. exists pe.
    split; [done|]. split; [done|]. split; [by right|done]. }
  destruct (messageIncludes pe "timeout") eqn:H4.
  { exists TimedOut. split; [done|]. exists pe.
    split; [done|]. split; [done|]. split; [done|]. split; [done|].
    split; [by left|done]. }
  unfold codeIs. simpl orb.
  destruct (code pe) as [c|] eqn:Hcode.
  - destruct (String.eqb_spec c "ETIMEDOUT") as [->|Hc].
    + exists TimedOut. split; [done|]. exists pe.
      split; [done|]. split; [done|]. split; [done|]. split; [done|].
      split; [by right|done].
    + exists ProviderError. split; [done|]. exists pe.
      split; [done|]. split; [done|]. split; [done|]. split; [done|].
      split; [done|]. split; [congruence|].
      by destruct (message pe) as [[|c0 pm]|].
  - exists ProviderError. split; [done|]. exists pe.
    split; [done|]. split; [done|]. split; [done|]. split; [done|].
    split; [done|]. split; [congruence|].
    by destruct (message pe) as [[|c0 pm]|].
Qed.

Lemma raisedAs_unique (k k' : FailureKind) (userMessage : string)
    (answer : ProviderOutcome) (e e' : JsError) :
  raisedAs k userMessage answer e -> raisedAs k' userMessage answer e' ->
  k' = k.
Proof.
  destruct k, k'; try done; unfold raisedAs; intros H H';
    repeat match goal with
           | H : _ /\ _ |- _ => destruct H
           | H : _ \/ _ |- _ => destruct H
           | H : ex _ |- _ => destruct H
           end;
    simplify_eq; congruence.
Qed.

(** C7.  A failure of [generateReply] is a fresh [Error]: it has a message
    that is not empty, and nothing else, whatever the provider threw.  It
    is of exactly one of the six kinds.  Five kinds are raised with a
    text of their own, which the caller reads the kind from: a blank
    message ([EmptyInput]), a blank answer ([EmptyResponse]), and a
    thrown value that carries [API_KEY] ([InvalidCredentials]), [quota]
    or [rate limit] ([RateLimited]), [timeout] or the code [ETIMEDOUT]
    ([TimedOut]).  Every other thrown value is a [ProviderError], raised
    with the message of the thrown value or the generic text; the caller
    reads [ProviderError] from it, unless that message is itself one of
    the three fixed texts that carry no marker. *)
Theorem generateReply_failure_taxonomy (model : GenerativeModel)
    (userMessage : string) (history : list MessageData) (w w' : World)
    (e : JsError) :
  generateReply model userMessage history w = (w', Throw e) ->
  let prompt :=
    DOMAIN_KNOWLEDGE +:+ newline +:+ newline
      +:+ "Previous conversation:" +:+ newline
      +:+ Js.orElse (historyText history)
            "This is the start of the conversation."
      +:+ newline +:+ newline
      +:+ "Customer: " +:+ truncated userMessage +:+ newline
      +:+ "Support Agent:" in
  (exists m, m <> EmptyString /\ e = {| message := Some m; code := None |})
  /\ exists k,
      raisedAs k userMessage (model prompt) e
      /\ (forall k' e', raisedAs k' userMessage (model prompt) e' -> k' = k)
      /\ (k <> ProviderError -> kindOf e = k)
      /\ (k = ProviderError ->
          kindOf e = ProviderError
          \/ exists m, message e = Some m /\ m ∈ unmarkedFixedTexts).
Proof.
  intros Hrun prompt.
  assert (Hprompt : prompt = promptOf (truncated userMessage) history)
    by reflexivity.
  rewrite Hprompt. clear Hprompt prompt.
  assert (Hkind : exists k,
    raisedAs k userMessage
      (model (promptOf (truncated userMessage) history)) e).
  { destruct (decide (Js.trim userMessage = EmptyString)) as [Hblank|Hblank].
    - rewrite generateReply_blank in Hrun by done. injection Hrun as _ <-.
      by exists EmptyInput.
    - rewrite generateReply_sends in Hrun by done. injection Hrun as _ He.
      apply replyOf_Throw in He as [(text & Hanswer & Htext & ->)
                                   |(pe & Hanswer & ->)].
      + exists EmptyResponse. split; [done|]. split; [|done]. by exists text.
      + rewrite Hanswer.
        destruct (rethrow_raisedAs userMessage pe Hblank) as (k & Hk).
        by exists k. }
  destruct Hkind as (k & Hk). split.
  - destruct k; unfold raisedAs in Hk;
      repeat match goal with
             | H : _ /\ _ |- _ => destruct H
             | H : ex _ |- _ => destruct H
             end; subst e; try (by eexists; split; [|reflexivity]).
    destruct (message x) as [[|c pm]|];
      by eexists; split; [|reflexivity].
  - exists k. split; [exact Hk|]. split; [|split].
    + intros k' e' Hk'. by eapply raisedAs_unique.
    + intros Hne. destruct k; try done; unfold raisedAs in Hk;
        repeat match goal with
               | H : _ /\ _ |- _ => destruct H
               | H : ex _ |- _ => destruct H
               end; by subst e.
    + intros ->. unfold raisedAs in Hk.
      destruct Hk as (_ & pe & _ & H1 & H2 & H3 & H4 & _ & ->).
      unfold messageIncludes in *.
      destruct (message pe) as [[|c pm]|]; [by left| |by left].
      unfold kindOf, unmarkedFixedTexts. cbn [message newError].
      destruct (String.eqb_spec (String c pm) INVALID_KEY) as [Heq|_];
        [rewrite Heq in H1; by vm_compute in H1|].
      destruct (String.eqb_spec (String c pm) RATE_LIMITED) as [Heq|_];
        [rewrite Heq in H3; by vm_compute in H3|].
      destruct (String.eqb_spec (String c pm) TIMED_OUT) as [Heq|_];
        [right; eexists; split; [reflexivity|rewrite Heq; set_solver]|].
      destruct (String.eqb_spec (String c pm) EMPTY_RESPONSE) as [Heq|_];
        [right; eexists; split; [reflexivity|rewrite Heq; set_solver]|].
      destruct (String.eqb_spec (String c pm) EMPTY_INPUT) as [Heq|_];
        [right; eexists; split; [reflexivity|rewrite Heq; set_solver]|].
      by left.
Qed.

(** An exhausted quota is raised as [RateLimited], with the text of the
    kind and nothing of what the provider threw. *)
Lemma generateReply_failure_taxonomy_witness :
  generateReply SampleLLM.throttled "Where is my order?" [] SampleLLM.world0
  = (logged (CallGenerateContent
               (promptOf (truncated "Where is my order?") []))
            SampleLLM.world0,
     Throw (newError RATE_LIMITED))
  /\ raisedAs RateLimited "Where is my order?"
       (SampleLLM.throttled (promptOf (truncated "Where is my order?") []))
       (newError RATE_LIMITED)
  /\ kindOf (newError RATE_LIMITED) = RateLimited.
Proof.
  assert (Hrun :
    generateReply SampleLLM.throttled "Where is my order?" []
      SampleLLM.world0
    = (logged (CallGenerateContent
                 (promptOf (truncated "Where is my order?") []))
              SampleLLM.world0,
       Throw (newError RATE_LIMITED))) by (by vm_compute).
  split; [exact Hrun|].
  destruct (generateReply_failure_taxonomy SampleLLM.throttled
              "Where is my order?" [] SampleLLM.world0 _ _ Hrun)
    as (_ & k & Hk & Hunique & Hread & _).
  assert (Hrate : raisedAs RateLimited "Where is my order?"
            (SampleLLM.throttled (promptOf (truncated "Where is my order?") []))
            (newError RATE_LIMITED)).
  { split; [by vm_compute|]. eexists. split; [reflexivity|].
    split; [by vm_compute|]. split; [left; by vm_compute|reflexivity]. }
  split; [exact Hrate|].
  pose proof (Hunique _ _ Hrate) as <-. by apply Hread.
Defined.

(** A thrown value without a marker is a [ProviderError]; its message
    reaches the caller as it is, its code does not. *)
Example generateReply_provider_error :
  (generateReply SampleLLM.failing "Where is my order?" [] SampleLLM.world0).2
  = Throw {| message :=
               Some "[GoogleGenerativeAI Error]: 503 Service Unavailable";
             code := None |}.
Proof. by vm_compute. Qed.

(** The three outcomes C6 tells apart, on sample providers. *)
Example generateReply_blank_message :
  generateReply SampleLLM.answering "   " [] SampleLLM.world0
  = (SampleLLM.world0, Throw (newError "Message cannot be empty")).
Proof. by vm_compute. Qed.

Example generateReply_blank_answer :
  (generateReply SampleLLM.blank "Where is my order?" [] SampleLLM.world0).2
  = Throw (newError "Empty response from LLM").
Proof. by vm_compute. Qed.

Example generateReply_answer :
  (generateReply SampleLLM.answering "Where is my order?" []
     SampleLLM.world0).2
  = Return "Standard shipping takes 5-7 business days.".
Proof. by vm_compute. Qed.

End GeneratorFailures.

(** ** The exported generator *)

Section ExportedGenerator.

Variable env : LLMEnv.

Lemma llmService_generateReply_unfold (userMessage : string)
    (history : list MessageData) (w : World) :
  llmService_generateReply env userMessage history w
  = match serviceOf env w with
    | Some model =>
        LLMService.generateReply model userMessage history
          (withInstance model (logged (CallGenerateReply userMessage history) w))
    | None =>
        (logged (CallGenerateReply userMessage history) w,
         Throw (newError MISSING_KEY))
    end.
Proof.
  unfold llmService_generateReply, serviceOf, bind, emit, modify,
    getLLMService, newLLMService.
  destruct w as [d [instance|] tr]; simpl; [done|].
  destruct (GEMINI_API_KEY env) as [apiKey|]; [|done].
  by destruct (Js.truthy apiKey).
Qed.

Lemma generateReply_db (model : GenerativeModel) (userMessage : string)
    (history : list MessageData) (w : World) :
  db (LLMService.generateReply model userMessage history w).1 = db w.
Proof.
  destruct (decide (Js.trim userMessage = EmptyString)) as [Hblank|Hblank].
  - by rewrite generateReply_blank.
  - by rewrite generateReply_sends.
Qed.

(** The generator does not touch the database. *)
Lemma llmService_generateReply_db (userMessage : string)
    (history : list MessageData) (w : World) :
  db (llmService_generateReply env userMessage history w).1 = db w.
Proof.
  rewrite llmService_generateReply_unfold.
  destruct (serviceOf env w); [by rewrite generateReply_db|done].
Qed.

(** A reply it returns is not blank. *)
Lemma llmService_generateReply_Return (userMessage : string)
    (history : list MessageData) (w w' : World) (r : string) :
  llmService_generateReply env userMessage history w = (w', Return r) ->
  Js.trim r <> EmptyString /\ r <> EmptyString.
Proof.
  rewrite llmService_generateReply_unfold.
  destruct (serviceOf env w) as [model|]; [|discriminate].
  apply generateReply_Return_nonblank.
Qed.

(** Without a key the exported function fails before [generateReply] is
    entered, with the constructor's own message. *)
Example llmService_generateReply_missing_key :
  (llmService_generateReply
     {| GEMINI_API_KEY := None;
        getGenerativeModel := fun _ => SampleLLM.answering |}
     "Where is my order?" [] SampleLLM.world0).2
  = Throw (newError "GEMINI_API_KEY environment variable is not set").
Proof. by vm_compute. Qed.

End ExportedGenerator.

(** ** [POST /chat/message] *)

Section PostMessage.

Import ConversationService.

Variable zodUuid : string -> bool.
Variable env : LLMEnv.

Lemma hasMessageId_false (id : string) (rows : list MessageData) :
  hasMessageId id rows = false <-> forall m, m ∈ rows -> msg_id m <> id.
Proof.
  unfold hasMessageId. induction rows as [|x rows IH]; simpl.
  - split; [|done]. intros _ m Hm. by apply elem_of_nil in Hm.
  - rewrite orb_false_iff, IH, String.eqb_neq. split.
    + intros [Hx Hrows] m [->|Hm]%elem_of_cons; [done|by apply Hrows].
    + intros H. split; [apply H; left|intros m Hm; apply H; by right].
Qed.

Lemma hasMessageId_snoc (id : string) (rows : list MessageData)
    (m : MessageData) :
  hasMessageId id rows = false -> msg_id m <> id ->
  hasMessageId id (rows ++ [m]) = false.
Proof.
  rewrite !hasMessageId_false. intros Hrows Hm x [Hx|Hx]%elem_of_app.
  - by apply Hrows.
  - by apply list_elem_of_singleton in Hx as ->.
Qed.

(** What [getOrCreateConversation] returns is a row of the table it
    leaves, and it adds no message. *)
Lemma getOrCreateConversation_result (id now : string)
    (sessionId : option string) (d d1 : Db) (c : ConversationData) :
  getOrCreateConversation id now sessionId d = (d1, Return c) ->
  selectConversation (conv_id c) d1 = Some c
  /\ messages d1 = messages d
  /\ (d1 = d
      \/ (conversations d !! id = None
          /\ d1 = withConversation id (mkRow now now) d
          /\ c = mkConversation id now now)).
Proof.
  intros Hrun.
  assert (Hcreate :
    createConversation id now d = (d1, Return c) ->
    selectConversation (conv_id c) d1 = Some c
    /\ messages d1 = messages d
    /\ (d1 = d
        \/ (conversations d !! id = None
            /\ d1 = withConversation id (mkRow now now) d
            /\ c = mkConversation id now now))).
  { intros (Hfresh & -> & ->)%createConversation_inv.
    split; [|split; [done|by right]].
    unfold selectConversation. simpl. by rewrite lookup_insert_eq. }
  unfold getOrCreateConversation in Hrun.
  destruct sessionId as [cid|]; [|by apply Hcreate].
  destruct (Js.truthy cid); [|by apply Hcreate].
  unfold bind at 1 in Hrun. unfold getConversation, gets at 1 in Hrun.
  destruct (selectConversation cid d) as [c0|] eqn:Hsel; [|by apply Hcreate].
  injection Hrun as <- <-.
  rewrite (selectConversation_id _ _ _ Hsel). by repeat split; [|left].
Qed.

(** With a fresh [randomUUID()] it always returns. *)
Lemma getOrCreateConversation_total (id now : string)
    (sessionId : option string) (d : Db) :
  conversations d !! id = None ->
  exists d1 c, getOrCreateConversation id now sessionId d = (d1, Return c).
Proof.
  intros Hfresh. unfold getOrCreateConversation.
  pose proof (createConversation_fresh id now d Hfresh) as Hcreate.
  destruct sessionId as [cid|]; [|by eauto].
  destruct (Js.truthy cid); [|by eauto].
  unfold bind at 1. unfold getConversation, gets at 1.
  destruct (selectConversation cid d) as [c0|]; by eauto.
Qed.

(** The run of the handler on a body the schema accepts, when none of
    the statements on the database throws. *)
Lemma postMessage_run (ent : Entropy) (b : RequestBody) (w : World)
    (message : string) (sessionId : option string) (d1 : Db)
    (conversation : ConversationData) :
  messageSchema zodUuid b = Some (message, sessionId) ->
  getOrCreateConversation (conversation_uuid ent) (conversation_now ent)
    sessionId (db w) = (d1, Return conversation) ->
  hasMessageId (userMessage_uuid ent) (messages d1) = false ->
  hasMessageId (aiMessage_uuid ent) (messages d1) = false ->
  userMessage_uuid ent <> aiMessage_uuid ent ->
  let userTurn :=
    mkMessage (userMessage_uuid ent) (conv_id conversation) user message
              (userMessage_now ent) in
  let d2 := withMessage userTurn d1 in
  let history := selectMessages (conv_id conversation) d2 in
  let generation :=
    llmService_generateReply env message history
      (mkWorld d2 (llmServiceInstance w) (trace w)) in
  let reply := replyOrFallback generation.2 in
  let aiTurn :=
    mkMessage (aiMessage_uuid ent) (conv_id conversation) ai reply
              (aiMessage_now ent) in
  postMessage zodUuid env ent b w
  = (mkWorld (withMessage aiTurn d2) (llmServiceInstance generation.1)
             (trace generation.1),
     Return {| status := 200;
               body := ChatReply reply (conv_id conversation) |}).
Proof.
  intros Hschema Hresolve Huser Hai Hne userTurn d2 history generation reply
    aiTurn.
  pose proof (getOrCreateConversation_result _ _ _ _ _ _ Hresolve)
    as (Hsel & _ & _).
  assert (Hconv : is_Some (conversations d1 !! conv_id conversation)).
  { apply selectConversation_Some in Hsel as (row & Hrow & _). by eexists. }
  assert (Hconv2 : is_Some (conversations d2 !! conv_id conversation)).
  { destruct Hconv as [row Hrow]. unfold d2, withMessage. simpl.
    rewrite lookup_alter_eq, Hrow. by eexists. }
  assert (Hai2 : hasMessageId (aiMessage_uuid ent) (messages d2) = false).
  { unfold d2, withMessage. simpl. by apply hasMessageId_snoc. }
  pose proof (llmService_generateReply_db env message history
                (mkWorld d2 (llmServiceInstance w) (trace w))) as Hdb.
  fold generation in Hdb.
  unfold postMessage. rewrite Hschema.
  unfold tryCatch at 1. unfold bind at 1. unfold liftDb at 1.
  rewrite Hresolve.
  unfold bind at 1. unfold liftDb at 1. simpl db.
  rewrite (addMessage_ok _ _ _ _ _ _ Huser Hconv). fold userTurn. fold d2.
  unfold bind at 1. unfold liftDb at 1, getMessages, gets. simpl db.
  fold history.
  unfold bind at 1. unfold tryCatch at 1.
  subst reply aiTurn. unfold generation in *. clear generation.
  destruct (llmService_generateReply env message history _)
    as [w3 outcome]. simpl in Hdb.
  assert (Hstep : forall r,
    bind (liftDb (addMessage (aiMessage_uuid ent) (aiMessage_now ent)
                    (conv_id conversation) ai r))
         (fun _ => ret {| status := 200;
                          body := ChatReply r (conv_id conversation) |}) w3
    = (mkWorld (withMessage
                  (mkMessage (aiMessage_uuid ent) (conv_id conversation) ai r
                             (aiMessage_now ent)) d2)
               (llmServiceInstance w3) (trace w3),
       Return {| status := 200;
                 body := ChatReply r (conv_id conversation) |})).
  { intros r. unfold bind, liftDb. rewrite Hdb.
    by rewrite (addMessage_ok _ _ _ _ _ _ Hai2 Hconv2). }
  destruct outcome as [r|e]; simpl.
  - by rewrite Hstep.
  - unfold ret at 1. by rewrite Hstep.
Qed.

End PostMessage.

Section PostMessageClaims.

Import ConversationService.

Variable zodUuid : string -> bool.
Variable env : LLMEnv.

Lemma invalidPayload_refused (b : RequestBody) :
  invalidPayload zodUuid b -> messageSchema zodUuid b = None.
Proof.
  unfold messageSchema.
  intros [Hm|[(m & Hm & Hlen)|(sid & Hsid & Hzod)]].
  - by rewrite Hm.
  - rewrite Hm. apply Nat.leb_gt in Hlen. rewrite Hlen.
    by rewrite andb_false_r.
  - rewrite Hsid, Hzod. destruct (body_message b); [done| |done].
    by destruct (_ && _).
Qed.

(** A refused body is answered with 400 and nothing is touched. *)
Lemma postMessage_refused (ent : Entropy) (b : RequestBody) (w : World) :
  messageSchema zodUuid b = None ->
  postMessage zodUuid env ent b w
  = (w, Return {| status := 400; body := ErrorBody "Invalid request" |}).
Proof. intros H. unfold postMessage, tryCatch. by rewrite H. Qed.

(** C2.  A request whose message is empty or longer than 2000 characters,
    or whose sessionId is supplied and fails the identifier test, is
    answered with 400, and the state of the process is the one before the
    request: no conversation, no message, no call of the generator. *)
Theorem postMessage_invalid_payload (ent : Entropy) (b : RequestBody)
    (w : World) :
  invalidPayload zodUuid b ->
  exists response,
    postMessage zodUuid env ent b w = (w, Return response)
    /\ status response = 400.
Proof.
  intros Hinvalid. eexists.
  split; [by apply postMessage_refused, invalidPayload_refused|done].
Qed.

Lemma ofConversation_two (cid : string) (rows : list MessageData)
    (a b : MessageData) :
  msg_conversationId a = cid -> msg_conversationId b = cid ->
  ofConversation cid (rows ++ [a; b])
  = (ofConversation cid rows ++ [a; b])%list.
Proof.
  intros Ha Hb. unfold ofConversation. rewrite filter_app. f_equal.
  rewrite filter_cons_True by done. by rewrite filter_cons_True by done.
Qed.

(** C1.  A request the schema accepts, served with fresh identifiers: the
    handler calls the generator once, on the message and the history that
    holds the stored user turn.  Whether that call returns or throws, the
    response is 200 with a reply that is not empty, the reply being the
    fixed fallback text when the call throws, and the rows added to
    [messages] are exactly two: the user's text as sent, then the
    reply. *)
Theorem postMessage_fallback (ent : Entropy) (b : RequestBody) (w : World)
    (message : string) (sessionId : option string) :
  messageSchema zodUuid b = Some (message, sessionId) ->
  conversations (db w) !! conversation_uuid ent = None ->
  hasMessageId (userMessage_uuid ent) (messages (db w)) = false ->
  hasMessageId (aiMessage_uuid ent) (messages (db w)) = false ->
  userMessage_uuid ent <> aiMessage_uuid ent ->
  exists conversation d1,
    getOrCreateConversation (conversation_uuid ent) (conversation_now ent)
      sessionId (db w) = (d1, Return conversation)
    /\ let userTurn :=
         mkMessage (userMessage_uuid ent) (conv_id conversation) user message
                   (userMessage_now ent) in
       let generation :=
         llmService_generateReply env message
           (selectMessages (conv_id conversation) (withMessage userTurn d1))
           (mkWorld (withMessage userTurn d1) (llmServiceInstance w)
                    (trace w)) in
       let reply := replyOrFallback generation.2 in
       let aiTurn :=
         mkMessage (aiMessage_uuid ent) (conv_id conversation) ai reply
                   (aiMessage_now ent) in
       let served := postMessage zodUuid env ent b w in
       served.2 = Return {| status := 200;
                            body := ChatReply reply (conv_id conversation) |}
       /\ (forall e, generation.2 = Throw e -> reply = FALLBACK_REPLY)
       /\ (forall r, generation.2 = Return r -> reply = r)
       /\ reply <> EmptyString
       /\ messages (db served.1)
          = (messages (db w) ++ [userTurn; aiTurn])%list
       /\ length (selectMessages (conv_id conversation) (db served.1))
          = length (selectMessages (conv_id conversation) (db w)) + 2.
Proof.
  intros Hschema Hfresh Huser Hai Hne.
  destruct (getOrCreateConversation_total (conversation_uuid ent)
              (conversation_now ent) sessionId (db w) Hfresh)
    as (d1 & conversation & Hresolve).
  exists conversation, d1. split; [done|].
  pose proof (getOrCreateConversation_result _ _ _ _ _ _ Hresolve)
    as (_ & Hmsgs & _).
  rewrite <- Hmsgs in Huser, Hai.
  pose proof (postMessage_run zodUuid env ent b w message sessionId d1
                conversation Hschema Hresolve Huser Hai Hne) as Hrun.
  cbv zeta in *. rewrite Hrun. simpl.
  set (generation := llmService_generateReply _ _ _ _).
  repeat split.
  - intros e He. by rewrite He.
  - intros r He. by rewrite He.
  - destruct generation as [w3 [r|e]] eqn:Hgen; simpl; [|done].
    by apply llmService_generateReply_Return in Hgen as [_ Hr].
  - by rewrite Hmsgs, <- app_assoc.
  - unfold selectMessages. rewrite !orderByTimestamp_length. simpl.
    rewrite Hmsgs, <- app_assoc. simpl.
    rewrite ofConversation_two by done. rewrite length_app. simpl. lia.
Qed.

End PostMessageClaims.

Section PostMessageWitnesses.

Import ConversationService.

Lemma postMessage_invalid_payload_witness :
  exists response,
    postMessage isUuid SampleRequest.envAnswering SampleRequest.entropy
      SampleRequest.emptyMessage SampleLLM.world0
    = (SampleLLM.world0, Return response)
    /\ status response = 400.
Proof.
  apply (postMessage_invalid_payload isUuid SampleRequest.envAnswering
           SampleRequest.entropy SampleRequest.emptyMessage SampleLLM.world0).
  left. reflexivity.
Defined.

Lemma postMessage_fallback_witness :
  exists conversation d1,
    getOrCreateConversation Sample.conversationB Sample.t3
      (Some Sample.conversationA) Sample.db2 = (d1, Return conversation)
    /\ let userTurn :=
         mkMessage Sample.messageA3 (conv_id conversation) user
                   "And when will it arrive?" Sample.t3 in
       let generation :=
         llmService_generateReply SampleRequest.envFailing
           "And when will it arrive?"
           (selectMessages (conv_id conversation) (withMessage userTurn d1))
           (mkWorld (withMessage userTurn d1) None []) in
       let reply := replyOrFallback generation.2 in
       let aiTurn :=
         mkMessage Sample.messageA4 (conv_id conversation) ai reply
                   Sample.t4 in
       let served :=
         postMessage isUuid SampleRequest.envFailing SampleRequest.entropy
           SampleRequest.body SampleLLM.world0 in
       served.2 = Return {| status := 200;
                            body := ChatReply reply (conv_id conversation) |}
       /\ (forall e, generation.2 = Throw e -> reply = FALLBACK_REPLY)
       /\ (forall r, generation.2 = Return r -> reply = r)
       /\ reply <> EmptyString
       /\ messages (db served.1)
          = (messages Sample.db2 ++ [userTurn; aiTurn])%list
       /\ length (selectMessages (conv_id conversation) (db served.1))
          = length (selectMessages (conv_id conversation) Sample.db2) + 2.
Proof.
  apply (postMessage_fallback isUuid SampleRequest.envFailing
           SampleRequest.entropy SampleRequest.body SampleLLM.world0
           "And when will it arrive?" (Some Sample.conversationA));
    by vm_compute.
Defined.

(** The same request run: the provider's failure is absorbed. *)
Example postMessage_failing_provider :
  let served :=
    postMessage isUuid SampleRequest.envFailing SampleRequest.entropy
      SampleRequest.body SampleLLM.world0 in
  served.2
  = Return {| status := 200;
              body := ChatReply FALLBACK_REPLY Sample.conversationA |}
  /\ messages (db served.1)
     = (messages Sample.db2
        ++ [mkMessage Sample.messageA3 Sample.conversationA user
                      "And when will it arrive?" Sample.t3;
            mkMessage Sample.messageA4 Sample.conversationA ai
                      FALLBACK_REPLY Sample.t4])%list.
Proof. by vm_compute. Qed.

End PostMessageWitnesses.

(** ** [GET /chat/history/:sessionId] *)

Section History.

Import ConversationService.

(** C8.  The handler answers 400 when the id fails the identifier test;
    else 404 when the table has no conversation with the id; else 200
    with the id, the creation time of the row and the messages of the
    conversation: all of them, none of another conversation, in
    non-decreasing order of timestamp.  It answers nothing else and
    changes nothing. *)
Theorem getHistory_responses (sessionId : string) (w : World) :
  exists response,
    getHistory sessionId w = (w, Return response)
    /\ (status response = 400 <-> isUuid sessionId = false)
    /\ (status response = 404
        <-> isUuid sessionId = true
            /\ conversations (db w) !! sessionId = None)
    /\ (status response = 200
        <-> isUuid sessionId = true
            /\ is_Some (conversations (db w) !! sessionId))
    /\ (isUuid sessionId = false ->
        response
        = {| status := 400; body := ErrorBody "Invalid session ID format" |})
    /\ (isUuid sessionId = true ->
        conversations (db w) !! sessionId = None ->
        response
        = {| status := 404; body := ErrorBody "Conversation not found" |})
    /\ (isUuid sessionId = true ->
        forall row,
          conversations (db w) !! sessionId = Some row ->
          exists msgs,
            response
            = {| status := 200;
                 body := Transcript sessionId (row_createdAt row) msgs |}
            /\ msgs ≡ₚ filter (fun m => msg_conversationId m = sessionId)
                               (messages (db w))
            /\ (forall m, m ∈ msgs -> msg_conversationId m = sessionId)
            /\ (forall m, m ∈ messages (db w) ->
                          msg_conversationId m = sessionId -> m ∈ msgs)
            /\ StronglySorted tsLe msgs).
Proof.
  unfold getHistory, tryCatch.
  destruct (isUuid sessionId) eqn:Hid; simpl.
  - unfold bind at 1. unfold liftDb at 1, getConversation, gets.
    destruct w as [d inst tr]. simpl.
    unfold selectConversation.
    destruct (conversations d !! sessionId) as [row|] eqn:Hrow; simpl.
    + eexists. split; [reflexivity|]. simpl.
      split; [done|]. split; [by split; [|intros [_ [=]]]|].
      split; [by split; [|]|]. split; [done|]. split; [done|].
      intros _ row' [= <-]. eexists. split; [reflexivity|].
      split; [apply orderByTimestamp_perm|]. split; [|split].
      * by intros m [? _]%elem_of_selectMessages.
      * intros m Hm Hc. by apply elem_of_selectMessages.
      * apply orderByTimestamp_sorted.
    + eexists. split; [reflexivity|]. simpl.
      split; [done|]. split; [done|].
      split; [by split; [|intros [_ []%is_Some_None]]|]. by repeat split.
  - eexists. split; [reflexivity|]. simpl.
    split; [done|]. split; [by split; [|intros [[=] _]]|].
    split; [by split; [|intros [[=] _]]|]. by repeat split.
Qed.

Example getHistory_sample :
  (getHistory Sample.conversationA SampleLLM.world0).2
  = Return {| status := 200;
              body := Transcript Sample.conversationA Sample.t0
                        [mkMessage Sample.messageA1 Sample.conversationA user
                                   "Where is my order?" Sample.t1;
                         mkMessage Sample.messageA2 Sample.conversationA ai
                                   "Let me check." Sample.t2] |}.
Proof. by vm_compute. Qed.

Example getHistory_unknown :
  (getHistory Sample.conversationB SampleLLM.world0).2
  = Return {| status := 404; body := ErrorBody "Conversation not found" |}.
Proof. by vm_compute. Qed.

Example getHistory_malformed :
  (getHistory "not-an-id" SampleLLM.world0).2
  = Return {| status := 400; body := ErrorBody "Invalid session ID format" |}.
Proof. by vm_compute. Qed.

End History.

(** ** The prompt of a request *)

Section Prompt.

Import LLMService.

Lemma append_assoc (a b c : string) : (a +:+ b) +:+ c = a +:+ (b +:+ c).
Proof.
  induction a as [|x a IH]; [done|].
  change (String x ((a +:+ b) +:+ c) = String x (a +:+ (b +:+ c))).
  by rewrite IH.
Qed.

Lemma append_empty_r (a : string) : a +:+ EmptyString = a.
Proof.
  induction a as [|x a IH]; [done|].
  change (String x (a +:+ EmptyString) = String x a). by rewrite IH.
Qed.

Lemma append_truthy_l (a b : string) :
  Js.truthy a = true -> Js.truthy (a +:+ b) = true.
Proof. by destruct a. Qed.

Lemma append_truthy_r (a b : string) :
  Js.truthy b = true -> Js.truthy (a +:+ b) = true.
Proof. by destruct a. Qed.

Lemma join_cons (sep x : string) (xs : list string) :
  exists post, Js.join sep (x :: xs) = x +:+ post.
Proof.
  unfold Js.join. simpl. destruct xs; [|by eexists].
  exists EmptyString. by rewrite append_empty_r.
Qed.

(** A turn of the list stands in the joined text. *)
Lemma join_middle (sep x : string) (l1 l2 : list string) :
  exists pre post, Js.join sep (l1 ++ x :: l2) = pre +:+ x +:+ post.
Proof.
  induction l1 as [|y l1 (pre & post & IH)].
  - destruct (join_cons sep x l2) as [post Hpost].
    exists EmptyString, post. exact Hpost.
  - exists (y +:+ sep +:+ pre), post.
    unfold Js.join in *. simpl.
    destruct (l1 ++ x :: l2)%list eqn:Hl; [by destruct l1|].
    rewrite IH. by rewrite !append_assoc.
Qed.

(** The last turn ends the joined text. *)
Lemma join_last (sep x : string) (l1 : list string) :
  exists pre, Js.join sep (l1 ++ [x]) = pre +:+ x.
Proof.
  induction l1 as [|y l1 (pre & IH)].
  - by exists EmptyString.
  - exists (y +:+ sep +:+ pre).
    unfold Js.join in *. simpl.
    destruct (l1 ++ [x])%list eqn:Hl; [by destruct l1|].
    rewrite IH. by rewrite !append_assoc.
Qed.

Lemma join_truthy (sep x : string) (l1 l2 : list string) :
  Js.truthy x = true -> Js.truthy (Js.join sep (l1 ++ x :: l2)) = true.
Proof.
  intros Hx. induction l1 as [|y l1 IH].
  - change ([] ++ x :: l2)%list with (x :: l2).
    destruct (join_cons sep x l2) as [post ->]. by apply append_truthy_l.
  - unfold Js.join in *. simpl.
    destruct (l1 ++ x :: l2)%list eqn:Hl; [by destruct l1|].
    by do 2 apply append_truthy_r.
Qed.

Lemma renderTurn_truthy (m : MessageData) : Js.truthy (renderTurn m) = true.
Proof. unfold renderTurn. by destruct (msg_sender m). Qed.

(** When the window is not empty the prompt is the template filled with
    its turns. *)
Lemma promptOf_window (userMessage : string) (history : list MessageData) :
  history <> [] ->
  promptOf userMessage history
  = promptWithTurns (map renderTurn (recentHistory history)) userMessage.
Proof.
  intros Hne. unfold promptOf, promptWithTurns, historyText.
  assert (Hwin : exists front x,
             recentHistory history = (front ++ [x])%list).
  { destruct history as [|m history _] using rev_ind; [done|].
    destruct (sliceLast_snoc 9 history m) as [front Hfront].
    by exists front, m. }
  destruct Hwin as (front & x & ->).
  unfold Js.orElse. rewrite map_app. simpl map.
  by rewrite join_truthy by apply renderTurn_truthy.
Qed.

Lemma truncated_short (userMessage : string) :
  String.length userMessage <= 2000 -> truncated userMessage = userMessage.
Proof.
  intros Hle. unfold truncated, MAX_MESSAGE_LENGTH.
  by rewrite (proj2 (Nat.ltb_ge _ _) Hle).
Qed.

Lemma llmService_generateReply_trace (env : LLMEnv) (userMessage : string)
    (history : list MessageData) (w : World) :
  trace (llmService_generateReply env userMessage history w).1
  = (trace w ++ generatorEvents env userMessage history w)%list.
Proof.
  rewrite llmService_generateReply_unfold. unfold generatorEvents.
  destruct (serviceOf env w) as [model|]; [|done].
  destruct (Js.trim userMessage) as [|c r] eqn:Htrim.
  - by rewrite generateReply_blank.
  - rewrite generateReply_sends by (by rewrite Htrim). simpl.
    by rewrite <- app_assoc.
Qed.

Lemma messageSchema_bounds (zodUuid : string -> bool) (b : RequestBody)
    (message : string) (sessionId : option string) :
  messageSchema zodUuid b = Some (message, sessionId) ->
  1 <= String.length message <= 2000.
Proof.
  unfold messageSchema. destruct (body_message b) as [|m|]; try done.
  destruct (1 <=? String.length m)%nat eqn:H1; [|done].
  destruct (String.length m <=? 2000)%nat eqn:H2; [|done].
  apply Nat.leb_le in H1, H2. simpl.
  destruct (body_sessionId b) as [|sid|]; [| |done].
  - by intros [= <- _].
  - destruct (zodUuid sid); [|done]. by intros [= <- _].
Qed.

(** The history after the user turn is stored. *)
Lemma selectMessages_withMessage (m : MessageData) (d : Db) :
  selectMessages (msg_conversationId m) (withMessage m d)
  = insertByTimestamp m (selectMessages (msg_conversationId m) d).
Proof.
  unfold selectMessages, withMessage. simpl.
  rewrite ofConversation_snoc, decide_True by done.
  apply orderByTimestamp_snoc.
Qed.

End Prompt.

Section PromptClaims.

Import ConversationService.
Import LLMService.

Variable zodUuid : string -> bool.
Variable env : LLMEnv.

(** C4 as stated fails: with ten messages stored in the conversation, the
    handler hands the generator a history of eleven. *)
Lemma postMessage_passes_whole_history :
  exists history rest,
    trace (postMessage isUuid SampleRequest.envAnswering SampleRequest.entropy
             SampleRequest.body SampleLong.worldLong).1
    = CallGenerateReply "And when will it arrive?" history :: rest
    /\ length history = 11
    /\ ~ length history <= MAX_HISTORY_MESSAGES.
Proof.
  eexists _, _. split; [by vm_compute|].
  split; [done|]. unfold MAX_HISTORY_MESSAGES. simpl. lia.
Qed.

(** The trace and the history of a served request. *)
Lemma postMessage_trace (ent : Entropy) (b : RequestBody) (w : World)
    (message : string) (sessionId : option string) (d1 : Db)
    (conversation : ConversationData) :
  messageSchema zodUuid b = Some (message, sessionId) ->
  getOrCreateConversation (conversation_uuid ent) (conversation_now ent)
    sessionId (db w) = (d1, Return conversation) ->
  hasMessageId (userMessage_uuid ent) (messages d1) = false ->
  hasMessageId (aiMessage_uuid ent) (messages d1) = false ->
  userMessage_uuid ent <> aiMessage_uuid ent ->
  let userTurn :=
    mkMessage (userMessage_uuid ent) (conv_id conversation) user message
              (userMessage_now ent) in
  let history :=
    insertByTimestamp userTurn
      (selectMessages (conv_id conversation) (db w)) in
  trace (postMessage zodUuid env ent b w).1
  = (trace w
     ++ CallGenerateReply message history
        :: match serviceOf env w, Js.trim message with
           | Some _, String _ _ =>
               [CallGenerateContent
                  (promptWithTurns (map renderTurn (recentHistory history))
                                   message)]
           | _, _ => []
           end)%list.
Proof.
  intros Hschema Hresolve Huser Hai Hne userTurn history.
  pose proof (postMessage_run zodUuid env ent b w message sessionId d1
                conversation Hschema Hresolve Huser Hai Hne) as Hrun.
  pose proof (getOrCreateConversation_result _ _ _ _ _ _ Hresolve)
    as (_ & Hmsgs & _).
  assert (Hhistory :
    selectMessages (conv_id conversation) (withMessage userTurn d1)
    = history).
  { change (conv_id conversation) with (msg_conversationId userTurn) at 1.
    rewrite selectMessages_withMessage. unfold history, selectMessages.
    simpl. by rewrite Hmsgs. }
  assert (Hne' : history <> []).
  { unfold history. intros Hnil. apply (f_equal length) in Hnil.
    rewrite insertByTimestamp_perm in Hnil. discriminate. }
  cbv zeta in Hrun. fold userTurn in Hrun. rewrite Hhistory in Hrun.
  rewrite Hrun. simpl.
  rewrite llmService_generateReply_trace. simpl. unfold generatorEvents.
  unfold serviceOf. simpl.
  rewrite truncated_short
    by (by apply messageSchema_bounds in Hschema as [_ ?]).
  by rewrite promptOf_window.
Qed.

End PromptClaims.

Section WindowClaims.

Import ConversationService.
Import LLMService.

Variable zodUuid : string -> bool.
Variable env : LLMEnv.

Lemma recentHistory_sorted (history : list MessageData) :
  StronglySorted tsLe history -> StronglySorted tsLe (recentHistory history).
Proof.
  intros Hs. unfold recentHistory, Js.sliceLast.
  rewrite <- (take_drop (length history - MAX_HISTORY_MESSAGES) history) in Hs.
  by apply StronglySorted_app_1_r in Hs.
Qed.

(** C4, amended.  A request the schema accepts, served with fresh
    identifiers: the handler hands the generator the whole history of the
    conversation, the stored user turn included, in timestamp order; the
    generator calls the provider at most once, and the prompt of that call
    renders a window of the history: its last 10 messages, all of them
    when there are fewer, oldest first. *)
Theorem postMessage_context_window (ent : Entropy) (b : RequestBody)
    (w : World) (message : string) (sessionId : option string) :
  messageSchema zodUuid b = Some (message, sessionId) ->
  conversations (db w) !! conversation_uuid ent = None ->
  hasMessageId (userMessage_uuid ent) (messages (db w)) = false ->
  hasMessageId (aiMessage_uuid ent) (messages (db w)) = false ->
  userMessage_uuid ent <> aiMessage_uuid ent ->
  exists conversation history window sent,
    trace (postMessage zodUuid env ent b w).1
    = (trace w ++ CallGenerateReply message history :: sent)%list
    /\ history
       ≡ₚ (selectMessages (conv_id conversation) (db w)
           ++ [mkMessage (userMessage_uuid ent) (conv_id conversation) user
                         message (userMessage_now ent)])%list
    /\ StronglySorted tsLe history
    /\ (sent = []
        \/ sent = [CallGenerateContent
                     (promptWithTurns (map renderTurn window) message)])
    /\ window = drop (length history - 10) history
    /\ length window = Nat.min 10 (length history)
    /\ length window <= 10
    /\ window `suffix_of` history
    /\ StronglySorted tsLe window.
Proof.
  intros Hschema Hfresh Huser Hai Hne.
  destruct (getOrCreateConversation_total (conversation_uuid ent)
              (conversation_now ent) sessionId (db w) Hfresh)
    as (d1 & conversation & Hresolve).
  pose proof (getOrCreateConversation_result _ _ _ _ _ _ Hresolve)
    as (_ & Hmsgs & _).
  rewrite <- Hmsgs in Huser, Hai.
  pose proof (postMessage_trace zodUuid env ent b w message sessionId d1
                conversation Hschema Hresolve Huser Hai Hne) as Htrace.
  cbv zeta in Htrace.
  set (userTurn := mkMessage _ _ _ _ _) in *.
  set (history := insertByTimestamp userTurn _) in *.
  assert (Hsorted : StronglySorted tsLe history).
  { apply insertByTimestamp_sorted, orderByTimestamp_sorted. }
  exists conversation, history, (recentHistory history). eexists.
  split; [exact Htrace|].
  split.
  { unfold history. rewrite insertByTimestamp_perm.
    by rewrite Permutation_app_comm. }
  split; [done|]. split.
  { destruct (serviceOf env w); [|by left].
    destruct (Js.trim message); [by left|by right]. }
  split; [done|]. split; [apply sliceLast_length|].
  split.
  { unfold recentHistory. rewrite sliceLast_length.
    unfold MAX_HISTORY_MESSAGES. lia. }
  split; [apply sliceLast_suffix|by apply recentHistory_sorted].
Qed.

(** C10.  A request the schema accepts, served with fresh identifiers,
    whose message is not blank, while the generator has its model handle:
    the provider is called once.  The stored user turn is part of the
    history handed to the generator; whenever the window holds it, the
    prompt has the line [Customer: message] among the rendered turns and
    again as its last-but-one line; and when the clock read for the user
    turn is not earlier than the timestamps of the conversation, the user
    turn is the last turn of the window, so that the two lines follow one
    another with an empty line between them. *)
Theorem postMessage_prompt_repeats_user_message (ent : Entropy)
    (b : RequestBody) (w : World) (message : string)
    (sessionId : option string) :
  messageSchema zodUuid b = Some (message, sessionId) ->
  conversations (db w) !! conversation_uuid ent = None ->
  hasMessageId (userMessage_uuid ent) (messages (db w)) = false ->
  hasMessageId (aiMessage_uuid ent) (messages (db w)) = false ->
  userMessage_uuid ent <> aiMessage_uuid ent ->
  Js.trim message <> EmptyString ->
  is_Some (serviceOf env w) ->
  exists conversation history,
    let userTurn :=
      mkMessage (userMessage_uuid ent) (conv_id conversation) user message
                (userMessage_now ent) in
    let window := recentHistory history in
    let prompt := promptWithTurns (map renderTurn window) message in
    let line := "Customer: " +:+ message in
    trace (postMessage zodUuid env ent b w).1
    = (trace w ++ [CallGenerateReply message history;
                   CallGenerateContent prompt])%list
    /\ userTurn ∈ history
    /\ (userTurn ∈ window ->
        exists pre mid,
          prompt = pre +:+ line +:+ mid +:+ line +:+ newline
                       +:+ "Support Agent:")
    /\ ((forall m, m ∈ messages (db w) ->
                   msg_conversationId m = conv_id conversation ->
                   String.le (msg_timestamp m) (userMessage_now ent)) ->
        last window = Some userTurn
        /\ exists pre,
            prompt = pre +:+ line +:+ newline +:+ newline +:+ line +:+ newline
                         +:+ "Support Agent:").
Proof.
  intros Hschema Hfresh Huser Hai Hne Hblank [model Hmodel].
  destruct (getOrCreateConversation_total (conversation_uuid ent)
              (conversation_now ent) sessionId (db w) Hfresh)
    as (d1 & conversation & Hresolve).
  pose proof (getOrCreateConversation_result _ _ _ _ _ _ Hresolve)
    as (_ & Hmsgs & _).
  rewrite <- Hmsgs in Huser, Hai.
  pose proof (postMessage_trace zodUuid env ent b w message sessionId d1
                conversation Hschema Hresolve Huser Hai Hne) as Htrace.
  cbv zeta in Htrace. rewrite Hmodel in Htrace.
  destruct (Js.trim message) as [|c r] eqn:Htrim; [done|].
  exists conversation. eexists. cbv zeta.
  split; [exact Htrace|].
  set (userTurn := mkMessage _ _ _ _ _) in *.
  set (history := insertByTimestamp userTurn _) in *.
  assert (Hline : renderTurn userTurn = "Customer: " +:+ message) by done.
  split; [|split].
  - unfold history. rewrite insertByTimestamp_perm. left.
  - intros (l1 & l2 & Hsplit)%list_elem_of_split.
    rewrite Hsplit, map_app. simpl map. rewrite Hline.
    destruct (join_middle newline ("Customer: " +:+ message)
                (map renderTurn l1) (map renderTurn l2))
      as (pre & post & Hjoin).
    exists (DOMAIN_KNOWLEDGE +:+ newline +:+ newline
              +:+ "Previous conversation:" +:+ newline +:+ pre),
      (post +:+ newline +:+ newline).
    unfold promptWithTurns. rewrite Hjoin.
    generalize DOMAIN_KNOWLEDGE. intros domain.
    rewrite !append_assoc. reflexivity.
  - intros Hclock.
    assert (Hlatest : history
                      = (selectMessages (conv_id conversation) (db w)
                         ++ [userTurn])%list).
    { unfold history. apply insertByTimestamp_latest.
      apply Forall_forall. intros m [Hc Hm]%elem_of_selectMessages.
      by apply Hclock. }
    destruct (sliceLast_snoc 9 (selectMessages (conv_id conversation) (db w))
                userTurn) as [front Hfront].
    unfold recentHistory, MAX_HISTORY_MESSAGES. rewrite Hlatest, Hfront.
    split; [apply last_snoc|].
    rewrite map_app. simpl map. rewrite Hline.
    destruct (join_last newline ("Customer: " +:+ message)
                (map renderTurn front)) as (pre & Hjoin).
    exists (DOMAIN_KNOWLEDGE +:+ newline +:+ newline
              +:+ "Previous conversation:" +:+ newline +:+ pre).
    unfold promptWithTurns. rewrite Hjoin.
    generalize DOMAIN_KNOWLEDGE. intros domain.
    rewrite !append_assoc. reflexivity.
Qed.

End WindowClaims.

Section WindowWitnesses.

Import ConversationService.
Import LLMService.

Lemma postMessage_context_window_witness :
  exists conversation history window sent,
    trace (postMessage isUuid SampleRequest.envAnswering SampleRequest.entropy
             SampleRequest.body SampleLong.worldLong).1
    = (trace SampleLong.worldLong
       ++ CallGenerateReply "And when will it arrive?" history :: sent)%list
    /\ history
       ≡ₚ (selectMessages (conv_id conversation) (db SampleLong.worldLong)
           ++ [mkMessage Sample.messageA3 (conv_id conversation) user
                         "And when will it arrive?" Sample.t3])%list
    /\ StronglySorted tsLe history
    /\ (sent = []
        \/ sent = [CallGenerateContent
                     (promptWithTurns (map renderTurn window)
                                      "And when will it arrive?")])
    /\ window = drop (length history - 10) history
    /\ length window = Nat.min 10 (length history)
    /\ length window <= 10
    /\ window `suffix_of` history
    /\ StronglySorted tsLe window.
Proof.
  apply (postMessage_context_window isUuid SampleRequest.envAnswering
           SampleRequest.entropy SampleRequest.body SampleLong.worldLong
           "And when will it arrive?" (Some Sample.conversationA));
    by vm_compute.
Defined.

(** The eleven-message history of the sample: the prompt renders the last
    ten turns, the oldest one is left out. *)
Example postMessage_window_sample :
  let served :=
    postMessage isUuid SampleRequest.envAnswering SampleRequest.entropy
      SampleRequest.body SampleLong.worldLong in
  exists history,
    trace served.1
    = [CallGenerateReply "And when will it arrive?" history;
       CallGenerateContent
         (promptWithTurns (map renderTurn (drop 1 history))
                          "And when will it arrive?")]
    /\ length history = 11
    /\ map msg_text (take 2 history) = ["turn 0"; "turn 1"]
    /\ map msg_text (drop 9 history)
       = ["turn 9"; "And when will it arrive?"].
Proof.
  exists (selectMessages Sample.conversationA SampleLong.dbLong
          ++ [mkMessage Sample.messageA3 Sample.conversationA user
                        "And when will it arrive?" Sample.t3])%list.
  by vm_compute.
Qed.

Lemma postMessage_prompt_repeats_user_message_witness :
  exists conversation history,
    let userTurn :=
      mkMessage Sample.messageA3 (conv_id conversation) user
                "And when will it arrive?" Sample.t3 in
    let window := recentHistory history in
    let prompt :=
      promptWithTurns (map renderTurn window) "And when will it arrive?" in
    let line := "Customer: " +:+ "And when will it arrive?" in
    trace (postMessage isUuid SampleRequest.envAnswering SampleRequest.entropy
             SampleRequest.body SampleLLM.world0).1
    = (trace SampleLLM.world0
       ++ [CallGenerateReply "And when will it arrive?" history;
           CallGenerateContent prompt])%list
    /\ userTurn ∈ history
    /\ (userTurn ∈ window ->
        exists pre mid,
          prompt = pre +:+ line +:+ mid +:+ line +:+ newline
                       +:+ "Support Agent:")
    /\ ((forall m, m ∈ messages (db SampleLLM.world0) ->
                   msg_conversationId m = conv_id conversation ->
                   String.le (msg_timestamp m) Sample.t3) ->
        last window = Some userTurn
        /\ exists pre,
            prompt = pre +:+ line +:+ newline +:+ newline +:+ line +:+ newline
                         +:+ "Support Agent:").
Proof.
  apply (postMessage_prompt_repeats_user_message isUuid
           SampleRequest.envAnswering SampleRequest.entropy SampleRequest.body
           SampleLLM.world0 "And when will it arrive?"
           (Some Sample.conversationA));
    try (by vm_compute).
  by eexists.
Defined.

(** The prompt of the sample request ends with the user's line twice. *)
Example postMessage_prompt_sample :
  exists history pre,
    trace (postMessage isUuid SampleRequest.envAnswering SampleRequest.entropy
             SampleRequest.body SampleLLM.world0).1
    = [CallGenerateReply "And when will it arrive?" history;
       CallGenerateContent
         (pre +:+ "Customer: Where is my order?" +:+ newline
              +:+ "Support Agent: Let me check." +:+ newline
              +:+ "Customer: And when will it arrive?" +:+ newline +:+ newline
              +:+ "Customer: And when will it arrive?" +:+ newline
              +:+ "Support Agent:")].
Proof.
  exists (selectMessages Sample.conversationA Sample.db2
          ++ [mkMessage Sample.messageA3 Sample.conversationA user
                        "And when will it arrive?" Sample.t3])%list.
  exists (DOMAIN_KNOWLEDGE +:+ newline +:+ newline
            +:+ "Previous conversation:" +:+ newline).
  by vm_compute.
Qed.

End WindowWitnesses.

(* ===================================================================== *)
(** * Further properties *)
(* ===================================================================== *)

(** ** The store *)

Section StoreExtras.

Import ConversationService.

Lemma hasMessageId_true (id : string) (rows : list MessageData) :
  hasMessageId id rows = true <-> exists m, m ∈ rows /\ msg_id m = id.
Proof.
  unfold hasMessageId. rewrite existsb_exists. split.
  - intros (m & Hm & Heq). exists m. split; [by apply list_elem_of_In|].
    by apply String.eqb_eq.
  - intros (m & Hm & Heq). exists m. split; [by apply list_elem_of_In|].
    by apply String.eqb_eq.
Qed.

Lemma hasMessageId_fmap (id : string) (rows : list MessageData) :
  hasMessageId id rows = false <-> id ∉ msg_id <$> rows.
Proof.
  rewrite hasMessageId_false, list_elem_of_fmap. split.
  - intros H (m & -> & Hm). by apply (H m).
  - intros H m Hm Heq. apply H. exists m. by split.
Qed.

Lemma reachable_messageIdsUnique (d : Db) :
  reachable d -> messageIdsUnique d.
Proof.
  unfold messageIdsUnique.
  induction 1 as [|id now d d' c _ IH Hid _ Hrun
                  |id now cid sender text d d' m _ IH Hid _ Hrun].
  - constructor.
  - by apply createConversation_inv in Hrun as (_ & -> & _).
  - apply addMessage_inv in Hrun as (Hfresh & _ & -> & ->). simpl.
    rewrite fmap_app. apply NoDup_app. split; [done|]. split.
    + intros x Hx [->|[]%elem_of_nil]%elem_of_cons.
      by apply hasMessageId_fmap in Hfresh.
    + apply NoDup_singleton.
Qed.

Lemma reachable_messageIdsWellFormed (d : Db) :
  reachable d -> forall m, m ∈ messages d -> isUuid (msg_id m) = true.
Proof.
  induction 1 as [|id now d d' c _ IH Hid _ Hrun
                  |id now cid sender text d d' m _ IH Hid _ Hrun].
  - intros m Hm. by apply elem_of_nil in Hm.
  - by apply createConversation_inv in Hrun as (_ & -> & _).
  - apply addMessage_inv in Hrun as (_ & _ & -> & ->). simpl.
    intros m' [Hm'|Hm']%elem_of_app; [by apply IH|].
    by apply list_elem_of_singleton in Hm' as ->.
Qed.

(** X1.  [addMessage] throws exactly when the id is already the id of a
    message or no conversation has the given id; what it throws is the
    constraint error of the [INSERT], and the database is left as it was:
    no message is added and [updatedAt] is not touched. *)
Theorem addMessage_failure (id now cid : string) (sender : Sender)
    (text : string) (d : Db) :
  ((exists d' e, addMessage id now cid sender text d = (d', Throw e))
   <-> hasMessageId id (messages d) = true \/ conversations d !! cid = None)
  /\ (forall d' e,
        addMessage id now cid sender text d = (d', Throw e) ->
        d' = d
        /\ (e = uniqueViolation "messages.id" \/ e = foreignKeyViolation)).
Proof.
  unfold addMessage, bind, insertMessage, updateUpdatedAt, modify, ret.
  simpl. destruct (hasMessageId id (messages d)).
  - split.
    + split; [by left|]. intros _. by eexists _, _.
    + intros d' e [= <- <-]. by split; [|left].
  - destruct (conversations d !! cid) as [row|] eqn:Hrow.
    + split.
      * split; [by intros (d' & e & [=])|]. by intros [[=]|[=]].
      * by intros d' e [=].
    + split.
      * split; [by right|]. intros _. by eexists _, _.
      * intros d' e [= <- <-]. by split; [|right].
Qed.

(** X2.  [createConversation] with an id that is not in the table returns
    a row whose [createdAt] and [updatedAt] are both the clock reading;
    [getConversation] then finds exactly that row, every other id
    resolves as before, and no message is touched; on a reachable
    database the new conversation has no messages.  With an id that is in
    the table it throws and changes nothing. *)
Theorem createConversation_lookup (id now : string) (d : Db) :
  (conversations d !! id = None ->
   exists d',
     createConversation id now d = (d', Return (mkConversation id now now))
     /\ getConversation id d' = (d', Return (Some (mkConversation id now now)))
     /\ (forall other, other <> id ->
                       selectConversation other d' = selectConversation other d)
     /\ messages d' = messages d
     /\ size (conversations d') = S (size (conversations d))
     /\ (reachable d -> selectMessages id d' = []))
  /\ (is_Some (conversations d !! id) ->
      createConversation id now d
      = (d, Throw (uniqueViolation "conversations.id"))).
Proof.
  split.
  - intros Hfresh. eexists. split; [by apply createConversation_fresh|].
    split; [|split; [|split; [|split]]].
    + unfold getConversation, gets, selectConversation. simpl.
      by rewrite lookup_insert_eq.
    + intros other Hne. unfold selectConversation. simpl.
      by rewrite lookup_insert_ne.
    + done.
    + simpl. by apply map_size_insert_None.
    + intros Hreach. unfold selectMessages. simpl.
      rewrite ofConversation_absent;
        [done|by apply reachable_referentialIntegrity|done].
  - intros [row Hrow].
    unfold createConversation, bind, insertConversation. by rewrite Hrow.
Qed.

(** X3.  A successful [addMessage] changes one conversation only: the
    messages of the conversation are the old ones with the new message
    inserted in timestamp order, at the end when it is not earlier than
    any of them; the row of the conversation keeps its [createdAt]; the
    rows and the messages of every other conversation are as before. *)
Theorem addMessage_frame (id now cid : string) (sender : Sender)
    (text : string) (d d' : Db) (m : MessageData) :
  addMessage id now cid sender text d = (d', Return m) ->
  m = mkMessage id cid sender text now
  /\ selectMessages cid d' = insertByTimestamp m (selectMessages cid d)
  /\ selectMessages cid d' ≡ₚ m :: selectMessages cid d
  /\ (Forall (fun x => tsLe x m) (selectMessages cid d) ->
      selectMessages cid d' = (selectMessages cid d ++ [m])%list)
  /\ (exists c, selectConversation cid d = Some c
                /\ selectConversation cid d'
                   = Some (mkConversation cid (conv_createdAt c) now))
  /\ (forall other, other <> cid ->
        selectMessages other d' = selectMessages other d
        /\ selectConversation other d' = selectConversation other d).
Proof.
  intros (_ & [row Hrow] & -> & ->)%addMessage_inv.
  set (m := mkMessage id cid sender text now).
  assert (Hsel : selectMessages cid (withMessage m d)
                 = insertByTimestamp m (selectMessages cid d)).
  { apply (selectMessages_withMessage m d). }
  split; [done|]. split; [done|]. split.
  { rewrite Hsel. apply insertByTimestamp_perm. }
  split.
  { intros Hlate. rewrite Hsel. by apply insertByTimestamp_latest. }
  split.
  { exists (mkConversation cid (row_createdAt row) (row_updatedAt row)).
    unfold selectConversation. simpl. by rewrite lookup_alter_eq, Hrow. }
  intros other Hne. split.
  - unfold selectMessages. simpl. rewrite ofConversation_snoc. simpl.
    rewrite decide_False by done. by rewrite app_nil_r.
  - unfold selectConversation. simpl. by rewrite lookup_alter_ne.
Qed.

Lemma addMessage_frame_witness :
  mkMessage Sample.messageA2 Sample.conversationA ai "Let me check." Sample.t2
  = mkMessage Sample.messageA2 Sample.conversationA ai "Let me check."
              Sample.t2
  /\ selectMessages Sample.conversationA Sample.db2
     = insertByTimestamp
         (mkMessage Sample.messageA2 Sample.conversationA ai "Let me check."
                    Sample.t2)
         (selectMessages Sample.conversationA Sample.db1)
  /\ selectMessages Sample.conversationA Sample.db2
     ≡ₚ mkMessage Sample.messageA2 Sample.conversationA ai "Let me check."
                  Sample.t2
        :: selectMessages Sample.conversationA Sample.db1
  /\ (Forall (fun x =>
                tsLe x (mkMessage Sample.messageA2 Sample.conversationA ai
                                  "Let me check." Sample.t2))
             (selectMessages Sample.conversationA Sample.db1) ->
      selectMessages Sample.conversationA Sample.db2
      = (selectMessages Sample.conversationA Sample.db1
         ++ [mkMessage Sample.messageA2 Sample.conversationA ai
                       "Let me check." Sample.t2])%list)
  /\ (exists c, selectConversation Sample.conversationA Sample.db1 = Some c
                /\ selectConversation Sample.conversationA Sample.db2
                   = Some (mkConversation Sample.conversationA
                             (conv_createdAt c) Sample.t2))
  /\ (forall other, other <> Sample.conversationA ->
        selectMessages other Sample.db2 = selectMessages other Sample.db1
        /\ selectConversation other Sample.db2
           = selectConversation other Sample.db1).
Proof.
  apply (addMessage_frame Sample.messageA2 Sample.t2 Sample.conversationA ai
           "Let me check." Sample.db1 Sample.db2).
  by vm_compute.
Defined.

(** X4.  In every reachable database each message belongs to a
    conversation of the table, the message ids are pairwise different,
    and the ids of conversations and messages have the identifier
    format. *)
Theorem reachable_store_invariants (d : Db) :
  reachable d ->
  referentialIntegrity d
  /\ messageIdsUnique d
  /\ idsWellFormed d
  /\ (forall m, m ∈ messages d -> isUuid (msg_id m) = true).
Proof.
  intros Hreach. split; [by apply reachable_referentialIntegrity|].
  split; [by apply reachable_messageIdsUnique|].
  split; [by apply reachable_idsWellFormed|].
  by apply reachable_messageIdsWellFormed.
Qed.

Lemma reachable_store_invariants_witness :
  referentialIntegrity Sample.db2
  /\ messageIdsUnique Sample.db2
  /\ idsWellFormed Sample.db2
  /\ (forall m, m ∈ messages Sample.db2 -> isUuid (msg_id m) = true).
Proof.
  apply (reachable_store_invariants Sample.db2). exact sample_db2_reachable.
Defined.

End StoreExtras.

(** ** The generator's model handle *)

Section SingletonExtras.

Lemma generateReply_instance (model : GenerativeModel) (userMessage : string)
    (history : list MessageData) (w : World) :
  llmServiceInstance (LLMService.generateReply model userMessage history w).1
  = llmServiceInstance w.
Proof.
  destruct (decide (Js.trim userMessage = EmptyString)) as [Hblank|Hblank].
  - by rewrite generateReply_blank.
  - by rewrite generateReply_sends.
Qed.

(** X5.  The model handle is built on first use and kept.  While the key
    is missing or empty, every call of the exported [generateReply] fails
    with the constructor's error, calls no provider and leaves the handle
    unset, so that a later call can still build it.  A call that finds the
    key builds the handle from it and stores it; every later call uses the
    stored handle, whatever the environment then holds. *)
Theorem getLLMService_singleton (env : LLMEnv) (userMessage : string)
    (history : list MessageData) (w : World) :
  llmServiceInstance w = None ->
  (serviceOf env w = None ->
   llmService_generateReply env userMessage history w
   = (logged (CallGenerateReply userMessage history) w,
      Throw (newError MISSING_KEY))
   /\ llmServiceInstance
        (llmService_generateReply env userMessage history w).1 = None)
  /\ (forall apiKey,
        GEMINI_API_KEY env = Some apiKey ->
        Js.truthy apiKey = true ->
        let w1 := (llmService_generateReply env userMessage history w).1 in
        llmServiceInstance w1 = Some (getGenerativeModel env apiKey)
        /\ forall env' userMessage' history',
            llmService_generateReply env' userMessage' history' w1
            = LLMService.generateReply (getGenerativeModel env apiKey)
                userMessage' history'
                (logged (CallGenerateReply userMessage' history') w1)).
Proof.
  intros Hnone. split.
  - intros Hservice. rewrite llmService_generateReply_unfold, Hservice.
    by split.
  - intros apiKey Hkey Htruthy w1.
    assert (Hw1 : llmServiceInstance w1 = Some (getGenerativeModel env apiKey)).
    { unfold w1. rewrite llmService_generateReply_unfold.
      unfold serviceOf. rewrite Hnone, Hkey, Htruthy.
      by rewrite generateReply_instance. }
    split; [done|]. intros env' userMessage' history'.
    rewrite llmService_generateReply_unfold. unfold serviceOf.
    rewrite Hw1. f_equal. unfold withInstance, logged. simpl.
    rewrite Hw1. by destruct w1.
Qed.

Lemma getLLMService_singleton_witness :
  (serviceOf SampleRequest.envAnswering SampleLLM.world0 = None ->
   llmService_generateReply SampleRequest.envAnswering "Where is my order?"
     [] SampleLLM.world0
   = (logged (CallGenerateReply "Where is my order?" []) SampleLLM.world0,
      Throw (newError MISSING_KEY))
   /\ llmServiceInstance
        (llmService_generateReply SampleRequest.envAnswering
           "Where is my order?" [] SampleLLM.world0).1 = None)
  /\ (forall apiKey,
        GEMINI_API_KEY SampleRequest.envAnswering = Some apiKey ->
        Js.truthy apiKey = true ->
        let w1 :=
          (llmService_generateReply SampleRequest.envAnswering
             "Where is my order?" [] SampleLLM.world0).1 in
        llmServiceInstance w1
        = Some (getGenerativeModel SampleRequest.envAnswering apiKey)
        /\ forall env' userMessage' history',
            llmService_generateReply env' userMessage' history' w1
            = LLMService.generateReply
                (getGenerativeModel SampleRequest.envAnswering apiKey)
                userMessage' history'
                (logged (CallGenerateReply userMessage' history') w1)).
Proof.
  apply (getLLMService_singleton SampleRequest.envAnswering
           "Where is my order?" [] SampleLLM.world0).
  reflexivity.
Defined.

End SingletonExtras.

(** ** [POST /chat/message], further *)

Section PostMessageExtras.

Import ConversationService.

Variable zodUuid : string -> bool.
Variable env : LLMEnv.

Lemma getOrCreateConversation_throw (id now : string)
    (sessionId : option string) (d d' : Db) (e : JsError) :
  getOrCreateConversation id now sessionId d = (d', Throw e) ->
  d' = d /\ is_Some (conversations d !! id).
Proof.
  assert (Hcreate : createConversation id now d = (d', Throw e) ->
                    d' = d /\ is_Some (conversations d !! id)).
  { unfold createConversation, bind, insertConversation.
    destruct (conversations d !! id) eqn:Hrow; [|by intros [=]].
    intros [= <- _]. by split; [|eexists]. }
  unfold getOrCreateConversation.
  destruct sessionId as [cid|]; [|exact Hcreate].
  destruct (Js.truthy cid); [|exact Hcreate].
  unfold bind at 1. unfold getConversation, gets at 1.
  destruct (selectConversation cid d); [by intros [=]|exact Hcreate].
Qed.

Lemma getHistory_found (sessionId : string) (w : World)
    (c : ConversationData) :
  isUuid sessionId = true ->
  selectConversation sessionId (db w) = Some c ->
  getHistory sessionId w
  = (w, Return {| status := 200;
                  body := Transcript sessionId (conv_createdAt c)
                            (selectMessages sessionId (db w)) |}).
Proof.
  intros Hid Hsel. unfold getHistory, tryCatch. rewrite Hid. simpl.
  unfold bind at 1. unfold liftDb at 1, getConversation, gets.
  rewrite Hsel. unfold bind, liftDb, getMessages, gets, ret.
  rewrite (selectConversation_id _ _ _ Hsel). by destruct w.
Qed.

(** [UPDATE] touches no key of the table. *)
Lemma alter_is_Some (f : ConversationRow -> ConversationRow) (i k : string)
    (rows : gmap string ConversationRow) :
  is_Some (alter f i rows !! k) <-> is_Some (rows !! k).
Proof.
  rewrite lookup_alter. case_decide as Hk; [subst k|done].
  destruct (rows !! i); simpl; split; intros [? ?]; by eauto.
Qed.

(** X6.  A request whose [INSERT]s hit a taken id is answered with 500,
    and what was written before the failing statement stays: when the id
    drawn for the conversation is taken, nothing is written; when the id
    drawn for the user's message is taken, a conversation created for the
    request stays, without messages of the request; when the id drawn for
    the reply is taken, the user's message stays stored and the generator
    has been called, but no reply is stored. *)
Theorem postMessage_storage_fault (ent : Entropy) (b : RequestBody)
    (w : World) (message : string) (sessionId : option string) :
  messageSchema zodUuid b = Some (message, sessionId) ->
  (forall d0 e,
      getOrCreateConversation (conversation_uuid ent) (conversation_now ent)
        sessionId (db w) = (d0, Throw e) ->
      postMessage zodUuid env ent b w = (w, Return internalServerError))
  /\ (forall d1 conversation,
        getOrCreateConversation (conversation_uuid ent)
          (conversation_now ent) sessionId (db w)
        = (d1, Return conversation) ->
        hasMessageId (userMessage_uuid ent) (messages d1) = true ->
        postMessage zodUuid env ent b w
        = (mkWorld d1 (llmServiceInstance w) (trace w),
           Return internalServerError)
        /\ messages d1 = messages (db w))
  /\ (forall d1 conversation,
        getOrCreateConversation (conversation_uuid ent)
          (conversation_now ent) sessionId (db w)
        = (d1, Return conversation) ->
        hasMessageId (userMessage_uuid ent) (messages d1) = false ->
        let userTurn :=
          mkMessage (userMessage_uuid ent) (conv_id conversation) user
                    message (userMessage_now ent) in
        hasMessageId (aiMessage_uuid ent) (messages d1 ++ [userTurn]) = true ->
        let served := postMessage zodUuid env ent b w in
        served.2 = Return internalServerError
        /\ db served.1 = withMessage userTurn d1
        /\ messages (db served.1) = (messages (db w) ++ [userTurn])%list
        /\ exists rest,
            trace served.1
            = (trace w
               ++ CallGenerateReply message
                    (selectMessages (conv_id conversation)
                       (withMessage userTurn d1)) :: rest)%list).
Proof.
  intros Hschema. split; [|split].
  - intros d0 e Hthrow.
    pose proof (getOrCreateConversation_throw _ _ _ _ _ _ Hthrow) as [-> _].
    unfold postMessage. rewrite Hschema.
    unfold tryCatch at 1. unfold bind at 1. unfold liftDb at 1.
    rewrite Hthrow. unfold ret. by destruct w.
  - intros d1 conversation Hresolve Huser.
    pose proof (getOrCreateConversation_result _ _ _ _ _ _ Hresolve)
      as (_ & Hmsgs & _).
    split; [|done].
    unfold postMessage. rewrite Hschema.
    unfold tryCatch at 1. unfold bind at 1. unfold liftDb at 1.
    rewrite Hresolve.
    unfold bind at 1. unfold liftDb at 1. simpl db.
    unfold addMessage, bind, insertMessage. simpl. by rewrite Huser.
  - intros d1 conversation Hresolve Huser userTurn Hai served.
    pose proof (getOrCreateConversation_result _ _ _ _ _ _ Hresolve)
      as (Hsel & Hmsgs & _).
    assert (Hconv : is_Some (conversations d1 !! conv_id conversation)).
    { apply selectConversation_Some in Hsel as (row & Hrow & _).
      by eexists. }
    pose proof (llmService_generateReply_db env message
                  (selectMessages (conv_id conversation)
                     (withMessage userTurn d1))
                  (mkWorld (withMessage userTurn d1) (llmServiceInstance w)
                           (trace w))) as Hdb.
    pose proof (llmService_generateReply_trace env message
                  (selectMessages (conv_id conversation)
                     (withMessage userTurn d1))
                  (mkWorld (withMessage userTurn d1) (llmServiceInstance w)
                           (trace w))) as Htrace.
    simpl in Hdb, Htrace.
    assert (Hstep : forall r w3,
      db w3 = withMessage userTurn d1 ->
      bind (liftDb (addMessage (aiMessage_uuid ent) (aiMessage_now ent)
                      (conv_id conversation) ai r))
           (fun _ => ret {| status := 200;
                            body := ChatReply r (conv_id conversation) |}) w3
      = (w3, Throw (uniqueViolation "messages.id"))).
    { intros r w3 Hw3. unfold bind, liftDb, addMessage, bind, insertMessage.
      destruct w3 as [d3 instance3 trace3]. simpl in Hw3. subst d3.
      simpl. by rewrite Hai. }
    assert (Hserved : served
                      = ((llmService_generateReply env message
                            (selectMessages (conv_id conversation)
                               (withMessage userTurn d1))
                            (mkWorld (withMessage userTurn d1)
                                     (llmServiceInstance w) (trace w))).1,
                         Return internalServerError)).
    { unfold served, postMessage. rewrite Hschema.
      unfold tryCatch at 1. unfold bind at 1. unfold liftDb at 1.
      rewrite Hresolve.
      unfold bind at 1. unfold liftDb at 1. simpl db.
      rewrite (addMessage_ok _ _ _ _ _ _ Huser Hconv). fold userTurn.
      unfold bind at 1. unfold liftDb at 1, getMessages, gets. simpl db.
      unfold bind at 1. unfold tryCatch at 1.
      destruct (llmService_generateReply env message _ _)
        as [w3 outcome]. simpl in Hdb.
      destruct outcome as [r|e]; simpl.
      - by rewrite Hstep.
      - unfold ret at 1. by rewrite Hstep. }
    rewrite Hserved. simpl. split; [done|]. split; [done|].
    split; [by rewrite Hdb; simpl; rewrite Hmsgs|].
    rewrite Htrace. unfold generatorEvents. by eexists.
Qed.

End PostMessageExtras.

Section PostMessageRoundTrip.

Import ConversationService.

Variable zodUuid : string -> bool.
Variable env : LLMEnv.

(** The served request, under the freshness the claims assume. *)
Lemma postMessage_served (ent : Entropy) (b : RequestBody) (w : World)
    (message : string) (sessionId : option string) :
  messageSchema zodUuid b = Some (message, sessionId) ->
  conversations (db w) !! conversation_uuid ent = None ->
  hasMessageId (userMessage_uuid ent) (messages (db w)) = false ->
  hasMessageId (aiMessage_uuid ent) (messages (db w)) = false ->
  userMessage_uuid ent <> aiMessage_uuid ent ->
  exists d1 conversation,
    getOrCreateConversation (conversation_uuid ent) (conversation_now ent)
      sessionId (db w) = (d1, Return conversation)
    /\ messages d1 = messages (db w)
    /\ let userTurn :=
         mkMessage (userMessage_uuid ent) (conv_id conversation) user message
                   (userMessage_now ent) in
       let d2 := withMessage userTurn d1 in
       let generation :=
         llmService_generateReply env message
           (selectMessages (conv_id conversation) d2)
           (mkWorld d2 (llmServiceInstance w) (trace w)) in
       let reply := replyOrFallback generation.2 in
       let aiTurn :=
         mkMessage (aiMessage_uuid ent) (conv_id conversation) ai reply
                   (aiMessage_now ent) in
       postMessage zodUuid env ent b w
       = (mkWorld (withMessage aiTurn d2) (llmServiceInstance generation.1)
                  (trace generation.1),
          Return {| status := 200;
                    body := ChatReply reply (conv_id conversation) |}).
Proof.
  intros Hschema Hfresh Huser Hai Hne.
  destruct (getOrCreateConversation_total (conversation_uuid ent)
              (conversation_now ent) sessionId (db w) Hfresh)
    as (d1 & conversation & Hresolve).
  pose proof (getOrCreateConversation_result _ _ _ _ _ _ Hresolve)
    as (_ & Hmsgs & _).
  exists d1, conversation. split; [done|]. split; [done|].
  rewrite <- Hmsgs in Huser, Hai.
  by apply (postMessage_run zodUuid env ent b w message sessionId d1
              conversation).
Qed.

(** X7.  What a request stores can be read back: on a reachable database,
    with identifiers in the identifier format and a clock that does not
    run backwards, [GET /chat/history] for the sessionId that
    [POST /chat/message] returned answers 200 with the transcript the
    conversation had before, followed by the user's message and the
    reply of the response, in this order. *)
Theorem postMessage_then_getHistory (ent : Entropy) (b : RequestBody)
    (w : World) (message : string) (sessionId : option string) :
  messageSchema zodUuid b = Some (message, sessionId) ->
  reachable (db w) ->
  isUuid (conversation_uuid ent) = true ->
  conversations (db w) !! conversation_uuid ent = None ->
  hasMessageId (userMessage_uuid ent) (messages (db w)) = false ->
  hasMessageId (aiMessage_uuid ent) (messages (db w)) = false ->
  userMessage_uuid ent <> aiMessage_uuid ent ->
  clockNotBehind (db w) (userMessage_now ent) ->
  String.le (userMessage_now ent) (aiMessage_now ent) ->
  exists reply sid createdAt,
    let served := postMessage zodUuid env ent b w in
    served.2 = Return {| status := 200; body := ChatReply reply sid |}
    /\ getHistory sid served.1
       = (served.1,
          Return {| status := 200;
                    body :=
                      Transcript sid createdAt
                        (selectMessages sid (db w)
                         ++ [mkMessage (userMessage_uuid ent) sid user message
                                       (userMessage_now ent);
                             mkMessage (aiMessage_uuid ent) sid ai reply
                                       (aiMessage_now ent)])%list |}).
Proof.
  intros Hschema Hreach Huuid Hfresh Huser Hai Hne Hclock Hlater.
  destruct (postMessage_served ent b w message sessionId Hschema Hfresh Huser
              Hai Hne) as (d1 & conversation & Hresolve & Hmsgs & Hrun).
  cbv zeta in Hrun.
  set (sid := conv_id conversation) in *.
  set (userTurn := mkMessage (userMessage_uuid ent) sid user message
                             (userMessage_now ent)) in *.
  set (reply := replyOrFallback _) in *.
  set (aiTurn := mkMessage (aiMessage_uuid ent) sid ai reply
                           (aiMessage_now ent)) in *.
  pose proof (getOrCreateConversation_result _ _ _ _ _ _ Hresolve)
    as (Hsel & _ & Hcases).
  assert (Hsid : isUuid sid = true).
  { destruct Hcases as [->|(_ & _ & ->)]; [|done].
    apply selectConversation_Some in Hsel as (row & Hrow & _).
    by eapply reachable_idsWellFormed. }
  assert (Hhistory :
    selectMessages sid (withMessage aiTurn (withMessage userTurn d1))
    = (selectMessages sid (db w) ++ [userTurn; aiTurn])%list).
  { change sid with (msg_conversationId aiTurn) at 1.
    rewrite selectMessages_withMessage. simpl msg_conversationId.
    change sid with (msg_conversationId userTurn) at 1.
    rewrite selectMessages_withMessage. simpl msg_conversationId.
    assert (Hold : selectMessages sid d1 = selectMessages sid (db w))
      by (unfold selectMessages; by rewrite Hmsgs).
    rewrite Hold.
    assert (Hbefore : Forall (fun x => tsLe x userTurn)
                             (selectMessages sid (db w))).
    { apply Forall_forall. intros x [_ Hx]%elem_of_selectMessages.
      by apply Hclock. }
    rewrite (insertByTimestamp_latest _ _ Hbefore).
    rewrite insertByTimestamp_latest; [by rewrite <- app_assoc|].
    apply Forall_app. split; [|by repeat constructor].
    eapply Forall_impl; [exact Hbefore|]. intros x Hx.
    unfold tsLe in *. simpl in *. by etrans. }
  apply selectConversation_Some in Hsel as (row & Hrow & _).
  exists reply, sid, (row_createdAt row). cbv zeta. rewrite Hrun. simpl.
  split; [done|].
  rewrite (getHistory_found sid _
             (mkConversation sid (row_createdAt row) (aiMessage_now ent)) Hsid).
  - simpl. by rewrite Hhistory.
  - unfold selectConversation. simpl.
    rewrite !lookup_alter_eq. unfold sid. by rewrite Hrow.
Qed.

End PostMessageRoundTrip.

Section PostMessageRoundTripWitnesses.

Import ConversationService.

Lemma postMessage_storage_fault_witness :
  let ent :=
    {| conversation_uuid := Sample.conversationB;
       conversation_now := Sample.t3;
       userMessage_uuid := Sample.messageA3;
       userMessage_now := Sample.t3;
       aiMessage_uuid := Sample.messageA1;
       aiMessage_now := Sample.t4 |} in
  let served :=
    postMessage isUuid SampleRequest.envAnswering ent SampleRequest.body
      SampleLLM.world0 in
  served.2 = Return internalServerError
  /\ messages (db served.1)
     = (messages Sample.db2
        ++ [mkMessage Sample.messageA3 Sample.conversationA user
                      "And when will it arrive?" Sample.t3])%list.
Proof.
  intros ent served.
  destruct (postMessage_storage_fault isUuid SampleRequest.envAnswering ent
              SampleRequest.body SampleLLM.world0 "And when will it arrive?"
              (Some Sample.conversationA) eq_refl) as (_ & _ & Hreply).
  destruct (Hreply Sample.db2
              (mkConversation Sample.conversationA Sample.t0 Sample.t2)
              eq_refl eq_refl eq_refl) as (Hstatus & _ & Hmessages & _).
  split; [exact Hstatus|exact Hmessages].
Defined.

Lemma postMessage_then_getHistory_witness :
  exists reply sid createdAt,
    let served :=
      postMessage isUuid SampleRequest.envAnswering SampleRequest.entropy
        SampleRequest.body SampleLLM.world0 in
    served.2 = Return {| status := 200; body := ChatReply reply sid |}
    /\ getHistory sid served.1
       = (served.1,
          Return {| status := 200;
                    body :=
                      Transcript sid createdAt
                        (selectMessages sid (db SampleLLM.world0)
                         ++ [mkMessage Sample.messageA3 sid user
                                       "And when will it arrive?" Sample.t3;
                             mkMessage Sample.messageA4 sid ai reply
                                       Sample.t4])%list |}).
Proof.
  apply (postMessage_then_getHistory isUuid SampleRequest.envAnswering
           SampleRequest.entropy SampleRequest.body
           SampleLLM.world0 "And when will it arrive?"
           (Some Sample.conversationA));
    try (by vm_compute).
  - exact sample_db2_reachable.
  - intros m Hm.
    apply elem_of_cons in Hm as [->|Hm]; [by vm_compute|].
    apply list_elem_of_singleton in Hm as ->. by vm_compute.
Defined.

End PostMessageRoundTripWitnesses.

Section PostMessageEdges.

Import ConversationService.

Variable zodUuid : string -> bool.
Variable env : LLMEnv.

(** Which conversation [getOrCreateConversation] returns. *)
Lemma getOrCreateConversation_id (id now : string)
    (sessionId : option string) (d d1 : Db) (c : ConversationData) :
  getOrCreateConversation id now sessionId d = (d1, Return c) ->
  (exists given,
      sessionId = Some given /\ Js.truthy given = true
      /\ is_Some (conversations d !! given)
      /\ conv_id c = given /\ d1 = d)
  \/ ((sessionId = None
       \/ exists given,
           sessionId = Some given
           /\ (Js.truthy given = false \/ conversations d !! given = None))
      /\ conv_id c = id
      /\ conversations d !! id = None
      /\ d1 = withConversation id (mkRow now now) d).
Proof.
  assert (Hcreate :
    createConversation id now d = (d1, Return c) ->
    conv_id c = id /\ conversations d !! id = None
    /\ d1 = withConversation id (mkRow now now) d).
  { by intros (Hfresh & -> & ->)%createConversation_inv. }
  unfold getOrCreateConversation.
  destruct sessionId as [given|]; [|intros H; right; by eauto].
  destruct (Js.truthy given) eqn:Hgiven;
    [|intros H; right; split; [right; by eauto|by apply Hcreate]].
  unfold bind at 1. unfold getConversation, gets at 1.
  destruct (selectConversation given d) as [c0|] eqn:Hsel.
  - intros [= <- <-]. left. exists given.
    pose proof (selectConversation_id _ _ _ Hsel) as Hid.
    apply selectConversation_Some in Hsel as (row & Hrow & _).
    split; [done|]. split; [done|]. split; [by eexists|]. by split.
  - intros H. right. apply selectConversation_None in Hsel.
    split; [right; by eauto|by apply Hcreate].
Qed.

(** X8.  The sessionId of the response is the supplied one when that is
    the id of a conversation, and then no conversation is created; in
    every other case it is the id the server drew with [randomUUID()],
    under which exactly one conversation is created.  A supplied id that
    does not resolve is never used as the id of the new conversation. *)
Theorem postMessage_session (ent : Entropy) (b : RequestBody) (w : World)
    (message : string) (sessionId : option string) :
  messageSchema zodUuid b = Some (message, sessionId) ->
  conversations (db w) !! conversation_uuid ent = None ->
  hasMessageId (userMessage_uuid ent) (messages (db w)) = false ->
  hasMessageId (aiMessage_uuid ent) (messages (db w)) = false ->
  userMessage_uuid ent <> aiMessage_uuid ent ->
  exists reply sid,
    let served := postMessage zodUuid env ent b w in
    served.2 = Return {| status := 200; body := ChatReply reply sid |}
    /\ ((sessionId = Some sid
         /\ is_Some (conversations (db w) !! sid)
         /\ forall k, is_Some (conversations (db served.1) !! k)
                      <-> is_Some (conversations (db w) !! k))
        \/ (sid = conversation_uuid ent
            /\ (forall given, sessionId = Some given ->
                  Js.truthy given = false
                  \/ conversations (db w) !! given = None)
            /\ forall k, is_Some (conversations (db served.1) !! k)
                         <-> is_Some (conversations (db w) !! k)
                             \/ k = sid)).
Proof.
  intros Hschema Hfresh Huser Hai Hne.
  destruct (postMessage_served zodUuid env ent b w message sessionId Hschema
              Hfresh Huser Hai Hne)
    as (d1 & conversation & Hresolve & Hmsgs & Hrun).
  cbv zeta in Hrun. eexists _, (conv_id conversation). cbv zeta.
  rewrite Hrun. simpl. split; [done|].
  destruct (getOrCreateConversation_id _ _ _ _ _ _ Hresolve)
    as [(given & -> & Hgiven & Hsome & Hid & ->)
       |(Hunresolved & Hid & _ & ->)].
  - left. rewrite Hid. split; [done|]. split; [done|].
    intros k. by rewrite !alter_is_Some.
  - right. split; [done|]. split.
    + intros given ->.
      destruct Hunresolved as [[=]|(given' & [= <-] & Hcase)]. exact Hcase.
    + intros k. rewrite !alter_is_Some. rewrite Hid.
      unfold withConversation. simpl. rewrite lookup_insert. case_decide as Hk.
      * subst k. split; [by right|]. intros _. by eexists.
      * split; [by left|]. by intros [H|H]; [|congruence].
Qed.

(** The generation of a request that cannot reach the provider. *)
Lemma generation_without_provider (message : string)
    (history : list MessageData) (w : World) :
  Js.trim message = EmptyString \/ serviceOf env w = None ->
  exists e,
    (llmService_generateReply env message history w).2 = Throw e
    /\ trace (llmService_generateReply env message history w).1
       = (trace w ++ [CallGenerateReply message history])%list
    /\ (serviceOf env w = None ->
        llmServiceInstance (llmService_generateReply env message history w).1
        = llmServiceInstance w).
Proof.
  intros Hcase. rewrite llmService_generateReply_trace.
  unfold generatorEvents. rewrite llmService_generateReply_unfold.
  destruct (serviceOf env w) as [model|] eqn:Hservice.
  - destruct Hcase as [Hblank|[=]]. rewrite Hblank.
    rewrite generateReply_blank by done. eexists. by repeat split.
  - eexists. by repeat split.
Qed.

(** A blank message the schema has accepted. *)
Lemma postMessage_blank_served (ent : Entropy) (b : RequestBody)
    (w : World) (message : string) (sessionId : option string) :
  messageSchema zodUuid b = Some (message, sessionId) ->
  conversations (db w) !! conversation_uuid ent = None ->
  hasMessageId (userMessage_uuid ent) (messages (db w)) = false ->
  hasMessageId (aiMessage_uuid ent) (messages (db w)) = false ->
  userMessage_uuid ent <> aiMessage_uuid ent ->
  Js.trim message = EmptyString ->
  exists sid history,
    let served := postMessage zodUuid env ent b w in
    served.2
    = Return {| status := 200; body := ChatReply FALLBACK_REPLY sid |}
    /\ trace served.1 = (trace w ++ [CallGenerateReply message history])%list
    /\ (noProviderCall (trace w) -> noProviderCall (trace served.1))
    /\ messages (db served.1)
       = (messages (db w)
          ++ [mkMessage (userMessage_uuid ent) sid user message
                        (userMessage_now ent);
              mkMessage (aiMessage_uuid ent) sid ai FALLBACK_REPLY
                        (aiMessage_now ent)])%list.
Proof.
  intros Hschema Hfresh Huser Hai Hne Hblank.
  destruct (postMessage_served zodUuid env ent b w message sessionId Hschema
              Hfresh Huser Hai Hne)
    as (d1 & conversation & Hresolve & Hmsgs & Hrun).
  cbv zeta in Hrun.
  set (d2 := withMessage _ d1) in *.
  set (w2 := mkWorld d2 _ _) in *.
  destruct (generation_without_provider message
              (selectMessages (conv_id conversation) d2) w2
              (or_introl Hblank)) as (e & Hout & Htrace & _).
  eexists (conv_id conversation), _. cbv zeta.
  rewrite Hrun, Hout. cbn [fst snd trace db replyOrFallback].
  rewrite Htrace. simpl. split; [done|]. split; [done|]. split.
  - intros Hnone prompt [Hin|[[=]|[]%elem_of_nil]%elem_of_cons]%elem_of_app.
    by apply (Hnone prompt).
  - by rewrite Hmsgs, <- app_assoc.
Qed.


(** X9.  A message of white space only, of 1 to 2000 characters, passes
    the schema, alone or with a sessionId that passes zod's test.  It is
    stored as the user's turn as it was sent, the generator refuses it
    without calling the provider, and the response is 200 with the
    fallback text, which is stored as the reply. *)
Theorem postMessage_blank_message (ent : Entropy) (w : World)
    (message : string) (sessionId : option string) :
  Js.trim message = EmptyString ->
  1 <= String.length message <= 2000 ->
  (forall given, sessionId = Some given -> zodUuid given = true) ->
  conversations (db w) !! conversation_uuid ent = None ->
  hasMessageId (userMessage_uuid ent) (messages (db w)) = false ->
  hasMessageId (aiMessage_uuid ent) (messages (db w)) = false ->
  userMessage_uuid ent <> aiMessage_uuid ent ->
  let b :=
    {| body_message := JString message;
       body_sessionId :=
         match sessionId with
         | Some given => JString given
         | None => JUndefined
         end |} in
  messageSchema zodUuid b = Some (message, sessionId)
  /\ exists sid history,
      let served := postMessage zodUuid env ent b w in
      served.2
      = Return {| status := 200; body := ChatReply FALLBACK_REPLY sid |}
      /\ trace served.1
         = (trace w ++ [CallGenerateReply message history])%list
      /\ (noProviderCall (trace w) -> noProviderCall (trace served.1))
      /\ messages (db served.1)
         = (messages (db w)
            ++ [mkMessage (userMessage_uuid ent) sid user message
                          (userMessage_now ent);
                mkMessage (aiMessage_uuid ent) sid ai FALLBACK_REPLY
                          (aiMessage_now ent)])%list.
Proof.
  intros Hblank [Hmin Hmax] Hsession Hfresh Huser Hai Hne b.
  assert (Hschema : messageSchema zodUuid b = Some (message, sessionId)).
  { unfold messageSchema, b. cbn [body_message body_sessionId].
    rewrite (proj2 (Nat.leb_le _ _) Hmin), (proj2 (Nat.leb_le _ _) Hmax).
    cbn [andb]. destruct sessionId as [given|]; [|done].
    by rewrite (Hsession given eq_refl). }
  split; [exact Hschema|].
  by apply (postMessage_blank_served ent b w message sessionId).
Qed.

(** X10.  While no model handle can be built (no handle is stored and the
    key is missing or empty), every accepted request is still answered
    with 200 and the fallback text; both turns are stored, the provider
    is not called, and the handle stays unset. *)
Theorem postMessage_missing_key (ent : Entropy) (b : RequestBody)
    (w : World) (message : string) (sessionId : option string) :
  messageSchema zodUuid b = Some (message, sessionId) ->
  conversations (db w) !! conversation_uuid ent = None ->
  hasMessageId (userMessage_uuid ent) (messages (db w)) = false ->
  hasMessageId (aiMessage_uuid ent) (messages (db w)) = false ->
  userMessage_uuid ent <> aiMessage_uuid ent ->
  serviceOf env w = None ->
  exists sid history,
    let served := postMessage zodUuid env ent b w in
    served.2
    = Return {| status := 200; body := ChatReply FALLBACK_REPLY sid |}
    /\ trace served.1 = (trace w ++ [CallGenerateReply message history])%list
    /\ (noProviderCall (trace w) -> noProviderCall (trace served.1))
    /\ llmServiceInstance served.1 = None
    /\ messages (db served.1)
       = (messages (db w)
          ++ [mkMessage (userMessage_uuid ent) sid user message
                        (userMessage_now ent);
              mkMessage (aiMessage_uuid ent) sid ai FALLBACK_REPLY
                        (aiMessage_now ent)])%list.
Proof.
  intros Hschema Hfresh Huser Hai Hne Hservice.
  destruct (postMessage_served zodUuid env ent b w message sessionId Hschema
              Hfresh Huser Hai Hne)
    as (d1 & conversation & Hresolve & Hmsgs & Hrun).
  cbv zeta in Hrun.
  set (d2 := withMessage _ d1) in *.
  set (w2 := mkWorld d2 _ _) in *.
  assert (Hinstance : llmServiceInstance w = None).
  { unfold serviceOf in Hservice. by destruct (llmServiceInstance w). }
  assert (Hservice2 : serviceOf env w2 = None) by exact Hservice.
  destruct (generation_without_provider message
              (selectMessages (conv_id conversation) d2) w2
              (or_intror Hservice2)) as (e & Hout & Htrace & Hkeep).
  eexists (conv_id conversation), _. cbv zeta.
  rewrite Hrun, Hout. cbn [fst snd trace db replyOrFallback llmServiceInstance].
  rewrite Htrace, (Hkeep Hservice2). simpl.
  split; [done|]. split; [done|]. split; [|split; [done|]].
  - intros Hnone prompt [Hin|[[=]|[]%elem_of_nil]%elem_of_cons]%elem_of_app.
    by apply (Hnone prompt).
  - by rewrite Hmsgs, <- app_assoc.
Qed.

End PostMessageEdges.

Section PostMessageEdgesWitnesses.

Import ConversationService.

Lemma postMessage_session_witness :
  exists reply sid,
    let served :=
      postMessage isUuid SampleRequest.envAnswering SampleRequest.entropy
        SampleRequest.body SampleLLM.world0 in
    served.2 = Return {| status := 200; body := ChatReply reply sid |}
    /\ ((Some Sample.conversationA = Some sid
         /\ is_Some (conversations (db SampleLLM.world0) !! sid)
         /\ forall k, is_Some (conversations (db served.1) !! k)
                      <-> is_Some (conversations (db SampleLLM.world0) !! k))
        \/ (sid = conversation_uuid SampleRequest.entropy
            /\ (forall given, Some Sample.conversationA = Some given ->
                  Js.truthy given = false
                  \/ conversations (db SampleLLM.world0) !! given = None)
            /\ forall k, is_Some (conversations (db served.1) !! k)
                         <-> is_Some (conversations (db SampleLLM.world0) !! k)
                             \/ k = sid)).
Proof.
  apply (postMessage_session isUuid SampleRequest.envAnswering
           SampleRequest.entropy SampleRequest.body SampleLLM.world0
           "And when will it arrive?" (Some Sample.conversationA));
    by vm_compute.
Defined.

Lemma postMessage_blank_message_witness :
  let b := {| body_message := JString "   "; body_sessionId := JUndefined |} in
  messageSchema isUuid b = Some ("   ", None)
  /\ exists sid history,
      let served :=
        postMessage isUuid SampleRequest.envAnswering SampleRequest.entropy b
          SampleLLM.world0 in
      served.2
      = Return {| status := 200; body := ChatReply FALLBACK_REPLY sid |}
      /\ trace served.1
         = (trace SampleLLM.world0 ++ [CallGenerateReply "   " history])%list
      /\ (noProviderCall (trace SampleLLM.world0)
          -> noProviderCall (trace served.1))
      /\ messages (db served.1)
         = (messages (db SampleLLM.world0)
            ++ [mkMessage Sample.messageA3 sid user "   " Sample.t3;
                mkMessage Sample.messageA4 sid ai FALLBACK_REPLY
                          Sample.t4])%list.
Proof.
  apply (postMessage_blank_message isUuid SampleRequest.envAnswering
           SampleRequest.entropy SampleLLM.world0 "   " None);
    [by vm_compute
    |split; by apply Nat.leb_le
    |by intros given [=]
    |by vm_compute..].
Defined.

Lemma postMessage_missing_key_witness :
  exists sid history,
    let served :=
      postMessage isUuid
        {| GEMINI_API_KEY := None;
           getGenerativeModel := fun _ => SampleLLM.answering |}
        SampleRequest.entropy SampleRequest.body SampleLLM.world0 in
    served.2
    = Return {| status := 200; body := ChatReply FALLBACK_REPLY sid |}
    /\ trace served.1
       = (trace SampleLLM.world0
          ++ [CallGenerateReply "And when will it arrive?" history])%list
    /\ (noProviderCall (trace SampleLLM.world0)
        -> noProviderCall (trace served.1))
    /\ llmServiceInstance served.1 = None
    /\ messages (db served.1)
       = (messages (db SampleLLM.world0)
          ++ [mkMessage Sample.messageA3 sid user "And when will it arrive?"
                        Sample.t3;
              mkMessage Sample.messageA4 sid ai FALLBACK_REPLY
                        Sample.t4])%list.
Proof.
  apply (postMessage_missing_key isUuid
           {| GEMINI_API_KEY := None;
              getGenerativeModel := fun _ => SampleLLM.answering |}
           SampleRequest.entropy SampleRequest.body SampleLLM.world0
           "And when will it arrive?" (Some Sample.conversationA));
    by vm_compute.
Defined.

End PostMessageEdgesWitnesses.

(** ** The identifier format *)

Section IdentifierFormat.

Lemma hexRun_Some (n : nat) (s r : string) :
  hexRun n s = Some r <->
  exists pre, s = pre +:+ r /\ String.length pre = n /\ allHex pre = true.
Proof.
  revert s. induction n as [|n IH]; intros s; simpl.
  - split.
    + intros [= ->]. by exists EmptyString.
    + intros (pre & -> & Hlen & _). by destruct pre.
  - destruct s as [|c s].
    + split; [done|]. intros (pre & Hs & Hlen & _). by destruct pre.
    + destruct (isHexDigit c) eqn:Hc.
      * rewrite IH. split.
        -- intros (pre & -> & Hlen & Hhex). exists (String c pre).
           simpl. rewrite Hc, Hlen. by repeat split.
        -- intros (pre & Hs & Hlen & Hhex). destruct pre as [|c' pre]; [done|].
           injection Hs as -> ->. simpl in Hlen, Hhex.
           apply andb_true_iff in Hhex as [_ Hhex].
           exists pre. repeat split; [lia|done].
      * split; [done|]. intros (pre & Hs & Hlen & Hhex).
        destruct pre as [|c' pre]; [done|]. injection Hs as -> ->.
        simpl in Hhex. rewrite Hc in Hhex. done.
Qed.

Lemma dashHexRun_Some (n : nat) (s r : string) :
  dashHexRun n s = Some r <->
  exists pre, s = "-" +:+ pre +:+ r /\ String.length pre = n
              /\ allHex pre = true.
Proof.
  unfold dashHexRun, dash.
  destruct s as [|c s].
  { split; [done|]. by intros (pre & [=] & _). }
  destruct (Ascii.eqb_spec c "-"%char) as [->|Hc].
  - rewrite hexRun_Some. split.
    + intros (pre & -> & H). by exists pre.
    + intros (pre & [= ->] & H). by exists pre.
  - split.
    + intros H. exfalso.
      by destruct c as [[] [] [] [] [] [] [] []].
    + intros (pre & [= -> _] & _). done.
Qed.

(** X11.  The identifier test of the routes accepts exactly the strings
    made of five runs of 8, 4, 4, 4 and 12 hexadecimal digits, of either
    case, with a dash between the runs; an accepted string therefore has
    36 characters, and the empty string is not accepted. *)
Theorem isUuid_format (s : string) :
  (isUuid s = true <->
   exists a b c d e,
     s = a +:+ "-" +:+ b +:+ "-" +:+ c +:+ "-" +:+ d +:+ "-" +:+ e
     /\ String.length a = 8 /\ String.length b = 4 /\ String.length c = 4
     /\ String.length d = 4 /\ String.length e = 12
     /\ allHex a = true /\ allHex b = true /\ allHex c = true
     /\ allHex d = true /\ allHex e = true)
  /\ (isUuid s = true -> String.length s = 36).
Proof.
  assert (Hformat :
    isUuid s = true <->
    exists a b c d e,
      s = a +:+ "-" +:+ b +:+ "-" +:+ c +:+ "-" +:+ d +:+ "-" +:+ e
      /\ String.length a = 8 /\ String.length b = 4 /\ String.length c = 4
      /\ String.length d = 4 /\ String.length e = 12
      /\ allHex a = true /\ allHex b = true /\ allHex c = true
      /\ allHex d = true /\ allHex e = true).
  { unfold isUuid. split.
    - destruct (hexRun 8 s) as [r1|] eqn:H1; [|done]. simpl.
      destruct (dashHexRun 4 r1) as [r2|] eqn:H2; [|done]. simpl.
      destruct (dashHexRun 4 r2) as [r3|] eqn:H3; [|done]. simpl.
      destruct (dashHexRun 4 r3) as [r4|] eqn:H4; [|done]. simpl.
      destruct (dashHexRun 12 r4) as [r5|] eqn:H5; [|done].
      destruct r5; [|done]. intros _.
      apply hexRun_Some in H1 as (a & -> & ? & ?).
      apply dashHexRun_Some in H2 as (b & -> & ? & ?).
      apply dashHexRun_Some in H3 as (c & -> & ? & ?).
      apply dashHexRun_Some in H4 as (d & -> & ? & ?).
      apply dashHexRun_Some in H5 as (e & -> & ? & ?).
      exists a, b, c, d, e. rewrite append_empty_r.
      by repeat split.
    - intros (a & b & c & d & e & -> & La & Lb & Lc & Ld & Le
              & Ha & Hb & Hc & Hd & He).
      assert (H1 : hexRun 8 (a +:+ "-" +:+ b +:+ "-" +:+ c +:+ "-" +:+ d
                              +:+ "-" +:+ e)
                   = Some ("-" +:+ b +:+ "-" +:+ c +:+ "-" +:+ d +:+ "-"
                           +:+ e)).
      { apply hexRun_Some. by exists a. }
      rewrite H1. simpl.
      assert (H2 : dashHexRun 4 ("-" +:+ b +:+ "-" +:+ c +:+ "-" +:+ d
                                 +:+ "-" +:+ e)
                   = Some ("-" +:+ c +:+ "-" +:+ d +:+ "-" +:+ e)).
      { apply dashHexRun_Some. by exists b. }
      rewrite H2. simpl.
      assert (H3 : dashHexRun 4 ("-" +:+ c +:+ "-" +:+ d +:+ "-" +:+ e)
                   = Some ("-" +:+ d +:+ "-" +:+ e)).
      { apply dashHexRun_Some. by exists c. }
      rewrite H3. simpl.
      assert (H4 : dashHexRun 4 ("-" +:+ d +:+ "-" +:+ e)
                   = Some ("-" +:+ e)).
      { apply dashHexRun_Some. by exists d. }
      rewrite H4. simpl.
      assert (H5 : dashHexRun 12 ("-" +:+ e) = Some EmptyString).
      { apply dashHexRun_Some. exists e. by rewrite append_empty_r. }
      by rewrite H5. }
  split; [exact Hformat|].
  intros (a & b & c & d & e & -> & La & Lb & Lc & Ld & Le & _)%Hformat.
  rewrite !length_append, La, Lb, Lc, Ld, Le. reflexivity.
Qed.

End IdentifierFormat.

(** ** The key check of the data endpoints *)

Section ApiKey.

(** X12.  [apiKeyAuth] lets every request through while [API_KEY] is
    unset or empty.  With a key configured it lets a request through
    exactly when the key it presents is that key, and the key a request
    presents is its [X-API-Key] header when that is not empty, the query
    parameter [apiKey] being read only otherwise: a wrong header is not
    made good by a right query parameter. *)
Theorem apiKeyAuth_decision (API_KEY header : option string)
    (query : QueryValue) :
  (API_KEY = None \/ API_KEY = Some EmptyString ->
   apiKeyAuth API_KEY header query = Next)
  /\ (forall valid,
        API_KEY = Some valid -> valid <> EmptyString ->
        (apiKeyAuth API_KEY header query = Next
         <-> presentedKey header query = QString valid)
        /\ (forall h, header = Some h -> h <> EmptyString ->
              (apiKeyAuth API_KEY header query = Next <-> h = valid))
        /\ (header = None \/ header = Some EmptyString ->
            (apiKeyAuth API_KEY header query = Next
             <-> query = QString valid))).
Proof.
  split.
  - by intros [->| ->].
  - intros valid -> Hvalid.
    assert (Hdecide :
      apiKeyAuth (Some valid) header query = Next
      <-> presentedKey header query = QString valid).
    { unfold apiKeyAuth.
      destruct valid as [|v0 valid]; [done|]. simpl.
      destruct (presentedKey header query) as [|k|]; [done| |done].
      destruct (Js.truthy k) eqn:Hk; simpl.
      - destruct (String.eqb_spec k (String v0 valid)) as [->|Hne].
        + done.
        + split; [done|]. by intros [= ->].
      - split; [done|]. intros [= ->]. done. }
    split; [exact Hdecide|]. split.
    + intros h -> Hh. rewrite Hdecide. unfold presentedKey.
      destruct h; [done|]. simpl. split; by intros [= ->].
    + intros [->| ->]; by rewrite Hdecide.
Qed.

End ApiKey.

(** ** The origin check *)

Section Cors.

Lemma split_nonempty (sep : ascii) (s : string) : JsText.split sep s <> [].
Proof.
  destruct s as [|c s]; simpl; [done|].
  destruct (Ascii.eqb c sep); [done|]. by destruct (JsText.split sep s).
Qed.

Lemma split_no_separator (sep : ascii) (s : string) :
  JsText.count sep s = 0 -> JsText.split sep s = [s].
Proof.
  induction s as [|c s IH]; simpl; [done|].
  destruct (Ascii.eqb c sep); [done|]. intros H. by rewrite IH.
Qed.

Lemma split_append (sep : ascii) (x rest : string) :
  JsText.count sep x = 0 ->
  JsText.split sep (x +:+ String sep rest) = x :: JsText.split sep rest.
Proof.
  induction x as [|c x IH].
  - intros _. change (EmptyString +:+ String sep rest) with (String sep rest).
    simpl. by rewrite Ascii.eqb_refl.
  - simpl JsText.count. intros H.
    change (String c x +:+ String sep rest)
      with (String c (x +:+ String sep rest)).
    simpl. destruct (Ascii.eqb c sep); [done|]. by rewrite IH.
Qed.

(** Splitting what was joined gives the entries back. *)
Lemma split_join (entries : list string) :
  entries <> [] ->
  Forall (fun e => JsText.count ","%char e = 0) entries ->
  JsText.split ","%char (Js.join "," entries) = entries.
Proof.
  intros Hne Hclean. induction Hclean as [|x xs Hx Hxs IH]; [done|].
  unfold Js.join in *. simpl. destruct xs as [|y ys].
  - by apply split_no_separator.
  - change ("," +:+ String.concat "," (y :: ys))
      with (String ","%char (String.concat "," (y :: ys))).
    rewrite split_append by done. by rewrite IH.
Qed.

Lemma existsb_eqb (o : string) (xs : list string) :
  existsb (String.eqb o) xs = true <-> o ∈ xs.
Proof.
  rewrite existsb_exists, list_elem_of_In. split.
  - by intros (x & Hx & ->%String.eqb_eq).
  - intros Ho. exists o. split; [done|apply String.eqb_refl].
Qed.

(** X13.  A request without an [Origin] is always allowed.  While
    [FRONTEND_URL] is unset or empty the allowed origins are the two
    local ones.  When it lists entries separated by commas, an origin is
    allowed exactly when it equals one of the entries with the white
    space around the entry removed. *)
Theorem corsOrigin_decision :
  (forall FRONTEND_URL,
      corsOrigin FRONTEND_URL None = true
      /\ corsOrigin FRONTEND_URL (Some EmptyString) = true)
  /\ (forall FRONTEND_URL origin,
        FRONTEND_URL = None \/ FRONTEND_URL = Some EmptyString ->
        origin <> EmptyString ->
        (corsOrigin FRONTEND_URL (Some origin) = true
         <-> origin = "http://localhost:5173"
             \/ origin = "http://localhost:3000"))
  /\ (forall entries origin,
        entries <> [] ->
        Forall (fun e => JsText.count ","%char e = 0) entries ->
        Js.join "," entries <> EmptyString ->
        origin <> EmptyString ->
        (corsOrigin (Some (Js.join "," entries)) (Some origin) = true
         <-> origin ∈ Js.trim <$> entries)).
Proof.
  split; [done|]. split.
  - intros FRONTEND_URL origin Hcfg Horigin.
    assert (Hallowed : allowedOrigins FRONTEND_URL = defaultOrigins)
      by (by destruct Hcfg as [->| ->]).
    unfold corsOrigin. destruct origin as [|c origin]; [done|]. simpl.
    rewrite Hallowed. change (String.eqb (String c origin) "http://localhost:5173"
            || (String.eqb (String c origin) "http://localhost:3000" || false)
            = true
            <-> String c origin = "http://localhost:5173"
                \/ String c origin = "http://localhost:3000").
    rewrite orb_false_r, orb_true_iff, !String.eqb_eq. done.
  - intros entries origin Hne Hclean Hjoin Horigin.
    unfold corsOrigin, allowedOrigins.
    destruct origin as [|c origin]; [done|]. simpl negb. cbv iota.
    destruct (Js.join "," entries) as [|j joined] eqn:Hj; [done|].
    simpl Js.truthy. cbv iota. rewrite <- Hj, split_join by done.
    apply existsb_eqb.
Qed.

End Cors.

(** ** The widget's text formatter *)

Section FormatMessage.







End FormatMessage.

(** ** The listings of the data endpoints *)

Section Listings.

Import ConversationService ConversationQueries.

Local Instance updatedAtGe_trans : Transitive updatedAtGe.
Proof. intros a b c Hab Hbc. unfold updatedAtGe in *. by etrans. Qed.

Local Instance tsGe_trans : Transitive tsGe.
Proof. intros a b c Hab Hbc. unfold tsGe in *. by etrans. Qed.

Lemma leb_le (a b : string) : String.leb a b = true <-> String.le a b.
Proof. unfold String.le. symmetry. apply Is_true_true. Qed.

Lemma leb_false_le (a b : string) : String.leb a b = false -> String.le b a.
Proof.
  intros H. apply leb_le. destruct (String.leb_total a b); congruence.
Qed.

Lemma insertByUpdatedAtDesc_perm (c : ConversationData)
    (l : list ConversationData) :
  insertByUpdatedAtDesc c l ≡ₚ c :: l.
Proof.
  induction l as [|x l IH]; simpl; [done|].
  destruct (String.leb _ _); [|done].
  rewrite IH. apply perm_swap.
Qed.

Lemma insertByUpdatedAtDesc_sorted (c : ConversationData)
    (l : list ConversationData) :
  StronglySorted updatedAtGe l ->
  StronglySorted updatedAtGe (insertByUpdatedAtDesc c l).
Proof.
  induction l as [|x l IH]; simpl; intros Hs.
  - repeat constructor.
  - apply StronglySorted_inv in Hs as [Hl Hx].
    destruct (String.leb _ _) eqn:Hle.
    + constructor; [by apply IH|].
      rewrite insertByUpdatedAtDesc_perm.
      constructor; [by apply leb_le|done].
    + apply leb_false_le in Hle.
      constructor; [by constructor|].
      constructor; [done|].
      eapply Forall_impl; [exact Hx|]. intros y Hy.
      unfold updatedAtGe in *. by etrans.
Qed.

Lemma orderByUpdatedAtDesc_snoc (l : list ConversationData)
    (c : ConversationData) :
  orderByUpdatedAtDesc (l ++ [c])
  = insertByUpdatedAtDesc c (orderByUpdatedAtDesc l).
Proof. unfold orderByUpdatedAtDesc. by rewrite foldl_app. Qed.

Lemma orderByUpdatedAtDesc_perm (l : list ConversationData) :
  orderByUpdatedAtDesc l ≡ₚ l.
Proof.
  induction l as [|c l IH] using rev_ind; [done|].
  rewrite orderByUpdatedAtDesc_snoc, insertByUpdatedAtDesc_perm, IH.
  by rewrite Permutation_app_comm.
Qed.

Lemma orderByUpdatedAtDesc_sorted (l : list ConversationData) :
  StronglySorted updatedAtGe (orderByUpdatedAtDesc l).
Proof.
  induction l as [|c l IH] using rev_ind; [constructor|].
  rewrite orderByUpdatedAtDesc_snoc. by apply insertByUpdatedAtDesc_sorted.
Qed.

Lemma insertByTimestampDesc_perm (m : MessageData) (l : list MessageData) :
  insertByTimestampDesc m l ≡ₚ m :: l.
Proof.
  induction l as [|x l IH]; simpl; [done|].
  destruct (String.leb _ _); [|done].
  rewrite IH. apply perm_swap.
Qed.

Lemma insertByTimestampDesc_sorted (m : MessageData)
    (l : list MessageData) :
  StronglySorted tsGe l -> StronglySorted tsGe (insertByTimestampDesc m l).
Proof.
  induction l as [|x l IH]; simpl; intros Hs.
  - repeat constructor.
  - apply StronglySorted_inv in Hs as [Hl Hx].
    destruct (String.leb _ _) eqn:Hle.
    + constructor; [by apply IH|].
      rewrite insertByTimestampDesc_perm.
      constructor; [by apply leb_le|done].
    + apply leb_false_le in Hle.
      constructor; [by constructor|].
      constructor; [done|].
      eapply Forall_impl; [exact Hx|]. intros y Hy.
      unfold tsGe in *. by etrans.
Qed.

Lemma orderByTimestampDesc_snoc (l : list MessageData) (m : MessageData) :
  orderByTimestampDesc (l ++ [m])
  = insertByTimestampDesc m (orderByTimestampDesc l).
Proof. unfold orderByTimestampDesc. by rewrite foldl_app. Qed.

Lemma orderByTimestampDesc_perm (l : list MessageData) :
  orderByTimestampDesc l ≡ₚ l.
Proof.
  induction l as [|m l IH] using rev_ind; [done|].
  rewrite orderByTimestampDesc_snoc, insertByTimestampDesc_perm, IH.
  by rewrite Permutation_app_comm.
Qed.

Lemma orderByTimestampDesc_sorted (l : list MessageData) :
  StronglySorted tsGe (orderByTimestampDesc l).
Proof.
  induction l as [|m l IH] using rev_ind; [constructor|].
  rewrite orderByTimestampDesc_snoc. by apply insertByTimestampDesc_sorted.
Qed.

(** The rows of [conversations] are what [getConversation] reads. *)
Lemma elem_of_conversationRows (c : ConversationData) (d : Db) :
  c ∈ conversationRows d <-> selectConversation (conv_id c) d = Some c.
Proof.
  unfold conversationRows, selectConversation.
  rewrite list_elem_of_fmap. split.
  - intros ([k row] & -> & Hrow%elem_of_map_to_list). simpl. by rewrite Hrow.
  - destruct (conversations d !! conv_id c) as [row|] eqn:Hrow; [|done].
    simpl. intros [= <-]. exists (conv_id c, row). simpl.
    split; [done|]. by apply elem_of_map_to_list.
Qed.

Lemma conversationRows_ids (d : Db) :
  conv_id <$> conversationRows d = (map_to_list (conversations d)).*1.
Proof.
  unfold conversationRows. rewrite <- list_fmap_compose.
  by apply list_fmap_ext.
Qed.

Lemma conversationRows_length (d : Db) :
  length (conversationRows d) = size (conversations d).
Proof.
  unfold conversationRows. by rewrite length_fmap, length_map_to_list.
Qed.

Lemma scanByTimestampDesc_perm (l : list MessageData) :
  scanByTimestampDesc l ≡ₚ l.
Proof.
  unfold scanByTimestampDesc.
  by rewrite <- Permutation_rev, orderByTimestamp_perm.
Qed.

Lemma scanByTimestampDesc_sorted (l : list MessageData) :
  StronglySorted tsGe (scanByTimestampDesc l).
Proof.
  unfold scanByTimestampDesc.
  pose proof (orderByTimestamp_sorted l) as Hsorted.
  induction Hsorted as [|x rest Hrest IH Hx]; [constructor|].
  simpl. apply StronglySorted_app. split; [|split; [done|]].
  - intros y z Hy Hz. apply list_elem_of_singleton in Hz as ->.
    apply list_elem_of_In, in_rev, list_elem_of_In in Hy.
    rewrite Forall_forall in Hx. by apply Hx.
  - repeat constructor.
Qed.

Lemma sqliteInteger_Some (n : JsNumber) (z : Z) :
  sqliteInteger n = Some z <-> n = Int z /\ (- 2 ^ 63 < z < 2 ^ 63)%Z.
Proof.
  destruct n as [|x| |]; simpl; try (split; [done|by intros [[=] _]]).
  destruct (Z.ltb_spec (- 2 ^ 63) x) as [Hlow|Hlow],
           (Z.ltb_spec x (2 ^ 63)) as [Hhigh|Hhigh]; simpl.
  - split; [by intros [= ->]|by intros [[= ->] _]].
  - split; [done|]. intros [[= ->] ?]. lia.
  - split; [done|]. intros [[= ->] ?]. lia.
  - split; [done|]. intros [[= ->] ?]. lia.
Qed.

Lemma sqliteInteger_None (n : JsNumber) :
  sqliteInteger n = None <-> ~ bindable n.
Proof.
  unfold bindable. split.
  - intros Hnone (z & -> & Hz).
    assert (sqliteInteger (Int z) = Some z) by (by apply sqliteInteger_Some).
    congruence.
  - intros Hn. destruct (sqliteInteger n) as [z|] eqn:Hz; [|done].
    apply sqliteInteger_Some in Hz as [-> Hz]. destruct Hn. by exists z.
Qed.

Lemma sqliteInteger_nat (n : nat) :
  (Z.of_nat n < 2 ^ 63)%Z -> sqliteInteger (Int (Z.of_nat n)) = Some (Z.of_nat n).
Proof. intros Hn. apply sqliteInteger_Some. split; [done|lia]. Qed.

Lemma limitRows_nat {A : Type} (l o : nat) (rows : list A) :
  limitRows (Z.of_nat l) (Z.of_nat o) rows = take l (drop o rows).
Proof.
  unfold limitRows. rewrite !Nat2Z.id.
  by rewrite (proj2 (Z.ltb_ge _ _) (Nat2Z.is_nonneg l)).
Qed.

(** The outcome of [LIMIT ? OFFSET ?]. *)
Lemma sqlLimit_throws {A : Type} (limit : JsNumber)
    (offset : option JsNumber) (rows : list A) :
  sqlLimit limit offset rows = Throw datatypeMismatch
  <-> ~ bindable limit \/ exists o, offset = Some o /\ ~ bindable o.
Proof.
  unfold sqlLimit. destruct (sqliteInteger limit) as [l|] eqn:Hl.
  - assert (Hlimit : bindable limit).
    { apply sqliteInteger_Some in Hl as [-> ?]. by eexists. }
    destruct offset as [o|].
    + destruct (sqliteInteger o) as [z|] eqn:Ho.
      * split; [done|]. intros [?|(o' & [= <-] & Hno)]; [done|].
        apply sqliteInteger_None in Hno. congruence.
      * split; [|done]. intros _. right. exists o.
        split; [done|]. by apply sqliteInteger_None.
    + split; [done|]. by intros [?|(o' & [=] & _)].
  - split; [|done]. intros _. left. by apply sqliteInteger_None.
Qed.

Lemma sqlLimit_nat {A : Type} (l o : nat) (rows : list A) :
  (Z.of_nat l < 2 ^ 63)%Z -> (Z.of_nat o < 2 ^ 63)%Z ->
  sqlLimit (Int (Z.of_nat l)) (Some (Int (Z.of_nat o))) rows
  = Return (take l (drop o rows)).
Proof.
  intros Hl Ho. unfold sqlLimit.
  by rewrite !sqliteInteger_nat, limitRows_nat.
Qed.

Lemma sqlLimit_nat_no_offset {A : Type} (l : nat) (rows : list A) :
  (Z.of_nat l < 2 ^ 63)%Z ->
  sqlLimit (Int (Z.of_nat l)) None rows = Return (take l rows).
Proof.
  intros Hl. unfold sqlLimit. rewrite sqliteInteger_nat by done.
  change 0%Z with (Z.of_nat 0). by rewrite limitRows_nat.
Qed.

Lemma take_drop_tile {A : Type} (l l' o : nat) (rows : list A) :
  (take l (drop o rows) ++ take l' (drop (o + l) rows))%list
  = take (l + l') (drop o rows).
Proof.
  rewrite <- drop_drop. generalize (drop o rows). clear rows. intros rows.
  revert rows. induction l as [|l IH]; intros [|x rows]; simpl;
    try done.
  - by rewrite take_nil.
  - by rewrite IH.
Qed.

Lemma NoDup_fmap_eq {A B : Type} (f : A -> B) (l : list A) (x y : A) :
  NoDup (f <$> l) -> x ∈ l -> y ∈ l -> f x = f y -> x = y.
Proof.
  induction l as [|z l IH]; [by intros _ ?%elem_of_nil|].
  rewrite fmap_cons. intros [Hz Hl]%NoDup_cons.
  intros [->|Hx]%elem_of_cons [->|Hy]%elem_of_cons Heq; [done| | |by apply IH].
  - destruct Hz. rewrite Heq. by apply list_elem_of_fmap_2.
  - destruct Hz. rewrite <- Heq. by apply list_elem_of_fmap_2.
Qed.

(** With keys that are pairwise different, [ORDER BY updatedAt DESC] has
    one result. *)
Lemma orderByUpdatedAtDesc_unique (rows sorted : list ConversationData) :
  NoDup (conv_updatedAt <$> rows) ->
  sorted ≡ₚ rows -> StronglySorted updatedAtGe sorted ->
  sorted = orderByUpdatedAtDesc rows.
Proof.
  intros Hkeys Hperm Hsorted.
  apply (StronglySorted_unique_strong updatedAtGe);
    [|done|apply orderByUpdatedAtDesc_sorted
     |by rewrite orderByUpdatedAtDesc_perm].
  intros x y Hx Hy Hxy Hyx.
  apply (NoDup_fmap_eq conv_updatedAt rows); [done| | |].
  - by rewrite <- Hperm.
  - by rewrite <- (orderByUpdatedAtDesc_perm rows).
  - unfold updatedAtGe in *. by apply (anti_symm String.le).
Qed.

(** X15.  [getAllConversations] without a limit lists every conversation
    once, each as [getConversation] returns it, the most recently updated
    first; [getConversationCount] is the length of that listing.  An
    offset given without a limit is ignored. *)
Theorem getAllConversations_listing (d : Db) :
  let full := orderByUpdatedAtDesc (conversationRows d) in
  (forall offset, getAllConversations None offset d = (d, Return full))
  /\ StronglySorted updatedAtGe full
  /\ NoDup (conv_id <$> full)
  /\ (forall c, c ∈ full
                <-> getConversation (conv_id c) d = (d, Return (Some c)))
  /\ getConversationCount d = (d, Return (length full)).
Proof.
  intros full. split; [done|].
  split; [apply orderByUpdatedAtDesc_sorted|]. split; [|split].
  - unfold full. rewrite orderByUpdatedAtDesc_perm, conversationRows_ids.
    apply NoDup_fst_map_to_list.
  - intros c. unfold full.
    rewrite orderByUpdatedAtDesc_perm, elem_of_conversationRows.
    unfold getConversation, gets. split; [by intros ->|by intros [= ->]].
  - unfold getConversationCount, gets, full.
    by rewrite orderByUpdatedAtDesc_perm, conversationRows_length.
Qed.

(** X16.  Where no two conversations have the same [updatedAt], the
    listing of [getAllConversations] is the one order [ORDER BY] allows.
    With a limit, the result is the segment of that listing that starts
    at the offset (at the beginning when there is no offset) and has at
    most [limit] rows, a negative limit standing for no limit; a page and
    the page that starts where it ends make up the page of both limits
    together.  The call throws SQLite's [datatype mismatch] exactly when
    the limit, or the offset given with it, is not a number strictly
    between -2^63 and 2^63. *)
Theorem getAllConversations_pages (d : Db) :
  NoDup (conv_updatedAt <$> conversationRows d) ->
  exists full,
    getAllConversations None None d = (d, Return full)
    /\ (forall sorted,
          sorted ≡ₚ conversationRows d -> StronglySorted updatedAtGe sorted ->
          sorted = full)
    /\ (forall l o : nat,
          (Z.of_nat l < 2 ^ 63)%Z -> (Z.of_nat o < 2 ^ 63)%Z ->
          getAllConversations (Some (Int (Z.of_nat l)))
            (Some (Int (Z.of_nat o))) d
          = (d, Return (take l (drop o full))))
    /\ (forall l : nat,
          (Z.of_nat l < 2 ^ 63)%Z ->
          getAllConversations (Some (Int (Z.of_nat l))) None d
          = (d, Return (take l full)))
    /\ (forall (l : Z) (o : nat),
          (- 2 ^ 63 < l < 0)%Z -> (Z.of_nat o < 2 ^ 63)%Z ->
          getAllConversations (Some (Int l)) (Some (Int (Z.of_nat o))) d
          = (d, Return (drop o full)))
    /\ (forall l l' o : nat,
          (Z.of_nat (l + l') < 2 ^ 63)%Z -> (Z.of_nat (o + l) < 2 ^ 63)%Z ->
          exists p q,
            getAllConversations (Some (Int (Z.of_nat l)))
              (Some (Int (Z.of_nat o))) d
            = (d, Return p)
            /\ getAllConversations (Some (Int (Z.of_nat l')))
                 (Some (Int (Z.of_nat (o + l)))) d
               = (d, Return q)
            /\ getAllConversations (Some (Int (Z.of_nat (l + l'))))
                 (Some (Int (Z.of_nat o))) d
               = (d, Return (p ++ q)%list))
    /\ (forall limit offset,
          getAllConversations (Some limit) offset d
          = (d, Throw datatypeMismatch)
          <-> ~ bindable limit \/ exists o, offset = Some o /\ ~ bindable o).
Proof.
  intros Hkeys. exists (orderByUpdatedAtDesc (conversationRows d)).
  split; [done|]. split; [|split; [|split; [|split; [|split]]]].
  - intros sorted Hperm Hsorted. by apply orderByUpdatedAtDesc_unique.
  - intros l o Hl Ho. unfold getAllConversations. by rewrite sqlLimit_nat.
  - intros l Hl. unfold getAllConversations.
    by rewrite sqlLimit_nat_no_offset.
  - intros l o Hl Ho. unfold getAllConversations, sqlLimit.
    rewrite (proj2 (sqliteInteger_Some (Int l) l)) by (split; [done|lia]).
    rewrite sqliteInteger_nat by done. unfold limitRows.
    rewrite Nat2Z.id. by rewrite (proj2 (Z.ltb_lt _ _)) by lia.
  - intros l l' o Hl Ho. unfold getAllConversations. eexists _, _.
    rewrite !sqlLimit_nat by lia. split; [reflexivity|].
    split; [reflexivity|]. by rewrite take_drop_tile.
  - intros limit offset. unfold getAllConversations.
    rewrite <- (sqlLimit_throws limit offset
                  (orderByUpdatedAtDesc (conversationRows d))).
    split; [by intros [= ->]|by intros ->].
Qed.

End Listings.

(** ** The data routes *)

Section DataRoutes.

Import ConversationService ConversationQueries.

Lemma beyondInt64_not_bindable (o : JsNumber) :
  offsetRefused (Some o) = false -> (~ bindable o <-> beyondInt64 o).
Proof.
  unfold bindable, beyondInt64. destruct o as [|z| |]; simpl; try done.
  - intros Hz%Z.ltb_ge. split.
    + intros Hn. right. exists z. split; [done|].
      destruct (Z.le_gt_cases (2 ^ 63) z); [done|].
      destruct Hn. exists z. split; [done|lia].
    + intros [[=]|(z' & [= <-] & Hbig)] (z'' & [= <-] & Hsmall). lia.
  - intros _. split; [by left|]. by intros _ (z & [=] & _).
Qed.


(** X18.  [GET /data/conversations/:id] and [GET /chat/history/:id]
    decide alike: both change nothing, neither answers 500, they answer
    with the same status, and where that is 200 the transcript of the
    one has the id, the creation time and the messages of the
    conversation of the other. *)
Theorem getConversationRoute_agrees_with_getHistory (id : string)
    (w : World) :
  exists chatResponse dataResponse,
    getHistory id w = (w, Return chatResponse)
    /\ getConversationRoute id w = (w, Return dataResponse)
    /\ status chatResponse = data_status dataResponse
    /\ (status chatResponse = 200 \/ status chatResponse = 400
        \/ status chatResponse = 404)
    /\ (status chatResponse = 400 <-> isUuid id = false)
    /\ (status chatResponse = 404
        <-> isUuid id = true /\ conversations (db w) !! id = None)
    /\ (status chatResponse = 200 ->
        exists c msgs,
          body chatResponse = Transcript (conv_id c) (conv_createdAt c) msgs
          /\ data_body dataResponse = ConversationDetail c msgs
          /\ conv_id c = id
          /\ getConversation id (db w) = (db w, Return (Some c))
          /\ getMessages id (db w) = (db w, Return msgs)).
Proof.
  unfold getHistory, getConversationRoute, tryCatch.
  destruct (isUuid id) eqn:Huuid; simpl negb; cbv iota.
  2:{ eexists _, _. simpl. split; [reflexivity|]. split; [reflexivity|].
      split; [done|]. split; [by eauto|]. split; [done|].
      split; [|done]. split; [done|]. by intros [[=] _]. }
  unfold bind, liftDb, getConversationWithMessages, getConversation,
    getMessages, gets, ret, bind.
  destruct w as [d instance events]. simpl.
  destruct (selectConversation id d) as [c|] eqn:Hsel; simpl.
  - eexists _, _. split; [reflexivity|]. split; [reflexivity|]. simpl.
    split; [done|]. split; [by eauto|]. split; [done|].
    split.
    + split; [done|]. intros [_ Hnone].
      apply selectConversation_Some in Hsel as (row & Hrow & _). congruence.
    + intros _. exists c, (selectMessages id d).
      pose proof (selectConversation_id _ _ _ Hsel). by repeat split.
  - eexists _, _. split; [reflexivity|]. split; [reflexivity|]. simpl.
    split; [done|]. split; [by eauto|]. split; [done|].
    split; [|done]. split; [|done]. intros _. split; [done|].
    by apply selectConversation_None.
Qed.

(** X19.  [getAllMessages] without a limit returns the messages it
    selects, latest first: all the messages when no conversation id is
    given or the empty one, and the messages [getMessages] returns for
    the id otherwise.  With a limit it returns the segment of that
    listing that starts at the offset and has at most [limit] rows, and
    it throws SQLite's [datatype mismatch] exactly when the limit, or the
    offset given with it, is not a number strictly between -2^63 and
    2^63. *)
Theorem getAllMessages_listing (d : Db) (conversationId : option string) :
  exists listing,
    (forall offset,
        getAllMessages None offset conversationId d = (d, Return listing))
    /\ StronglySorted tsGe listing
    /\ (conversationId = None \/ conversationId = Some EmptyString ->
        listing ≡ₚ messages d)
    /\ (forall cid, conversationId = Some cid -> cid <> EmptyString ->
        exists msgs, getMessages cid d = (d, Return msgs) /\ listing ≡ₚ msgs)
    /\ (forall l o : nat,
          (Z.of_nat l < 2 ^ 63)%Z -> (Z.of_nat o < 2 ^ 63)%Z ->
          getAllMessages (Some (Int (Z.of_nat l))) (Some (Int (Z.of_nat o)))
            conversationId d
          = (d, Return (take l (drop o listing))))
    /\ (forall l : nat,
          (Z.of_nat l < 2 ^ 63)%Z ->
          getAllMessages (Some (Int (Z.of_nat l))) None conversationId d
          = (d, Return (take l listing)))
    /\ (forall limit offset,
          getAllMessages (Some limit) offset conversationId d
          = (d, Throw datatypeMismatch)
          <-> ~ bindable limit \/ exists o, offset = Some o /\ ~ bindable o).
Proof.
  unfold getAllMessages.
  set (listing :=
    match conversationId with
    | Some cid =>
        if Js.truthy cid
        then orderByTimestampDesc (ofConversation cid (messages d))
        else scanByTimestampDesc (messages d)
    | None => scanByTimestampDesc (messages d)
    end).
  exists listing. split; [done|]. split; [|split; [|split; [|split; [|split]]]].
  - unfold listing. destruct conversationId as [cid|];
      [destruct (Js.truthy cid)|];
      apply orderByTimestampDesc_sorted || apply scanByTimestampDesc_sorted.
  - unfold listing. intros [->| ->]; simpl; apply scanByTimestampDesc_perm.
  - intros cid -> Hcid. destruct cid as [|c0 cid]; [done|].
    exists (selectMessages (String c0 cid) d). split; [done|].
    unfold listing, selectMessages. simpl.
    by rewrite orderByTimestampDesc_perm, orderByTimestamp_perm.
  - intros l o Hl Ho. by rewrite sqlLimit_nat.
  - intros l Hl. by rewrite sqlLimit_nat_no_offset.
  - intros limit offset. rewrite <- (sqlLimit_throws limit offset listing).
    split; [by intros [= ->]|by intros ->].
Qed.

(** X20.  On a reachable database, for the id of no conversation, in the
    identifier format, [GET /data/conversations/:id] answers 404, where
    [GET /data/messages], its limit and offset passing the checks of the
    route, answers 200 with no message; unless a limit is given together
    with an offset of 2^63 or more, which SQLite refuses: then it answers
    500. *)
Theorem getMessagesRoute_unknown_conversation (limit offset : option JsNumber)
    (cid : string) (w : World) :
  reachable (db w) ->
  limitRefused limit = false ->
  offsetRefused offset = false ->
  isUuid cid = true ->
  conversations (db w) !! cid = None ->
  let refusedBySqlite :=
    limit <> None /\ exists o, offset = Some o /\ beyondInt64 o in
  getConversationRoute cid w
  = (w, Return {| data_status := 404;
                  data_body := DataError "Conversation not found" |})
  /\ (refusedBySqlite ->
      getMessagesRoute limit offset (Some cid) w
      = (w, Return dataServerError))
  /\ (~ refusedBySqlite ->
      getMessagesRoute limit offset (Some cid) w
      = (w, Return {| data_status := 200;
                      data_body :=
                        MessagesPage [] (numberOr limit 0)
                          (numberOr offset 0) (Some cid) |})).
Proof.
  intros Hreach Hlimit Hoffset Huuid Hnone refusedBySqlite.
  assert (Htruthy : Js.truthy cid = true) by (by apply isUuid_truthy).
  assert (Hempty : ofConversation cid (messages (db w)) = []).
  { unfold ofConversation.
    pose proof (reachable_referentialIntegrity _ Hreach) as Hrefs.
    unfold referentialIntegrity in Hrefs. revert Hrefs.
    generalize (messages (db w)). intros l Hrefs.
    induction l as [|m l IH]; [done|].
    rewrite filter_cons. destruct (decide _) as [Hcid|_].
    - destruct (Hrefs m) as [row Hrow]; [left|]. congruence.
    - apply IH. intros x Hx. apply Hrefs. by right. }
  split.
  { unfold getConversationRoute, tryCatch. rewrite Huuid. simpl negb.
    cbv iota.
    unfold bind, liftDb, getConversationWithMessages, getConversation,
      gets, ret, bind.
    apply selectConversation_None in Hnone.
    destruct w as [d instance events]. simpl in *. by rewrite Hnone. }
  assert (Hrun :
    getMessagesRoute limit offset (Some cid) w
    = match limit with
      | Some l =>
          match sqlLimit l offset (@nil MessageData) with
          | Return page =>
              (w, Return {| data_status := 200;
                            data_body :=
                              MessagesPage page
                                (numberOr limit (Z.of_nat (length page)))
                                (numberOr offset 0) (Some cid) |})
          | Throw _ => (w, Return dataServerError)
          end
      | None =>
          (w, Return {| data_status := 200;
                        data_body :=
                          MessagesPage [] (numberOr limit 0)
                            (numberOr offset 0) (Some cid) |})
      end).
  { unfold getMessagesRoute, tryCatch. rewrite Hlimit, Hoffset, Htruthy, Huuid.
    simpl andb. cbv iota.
    unfold bind, liftDb, getAllMessages, ret.
    destruct w as [d instance events]. simpl in *. rewrite Htruthy, Hempty.
    change (orderByTimestampDesc []) with (@nil MessageData).
    destruct limit as [l|]; [|done].
    by destruct (sqlLimit l offset []). }
  rewrite Hrun. clear Hrun.
  destruct limit as [limit|]; cycle 1.
  { split; [by intros [[] _]|done]. }
  destruct limit as [|l| |]; try done.
  simpl in Hlimit. apply orb_false_iff in Hlimit as [Hl1 Hl100].
  apply Z.ltb_ge in Hl1, Hl100.
  assert (Hzero : (l =? 0)%Z = false) by (apply Z.eqb_neq; lia).
  assert (Hnil : forall o, limitRows l o (@nil MessageData) = []).
  { intros o. unfold limitRows.
    by destruct (l <? 0)%Z; rewrite ?drop_nil, ?take_nil. }
  unfold sqlLimit.
  rewrite (proj2 (sqliteInteger_Some (Int l) l)) by (split; [done|lia]).
  destruct offset as [o|]; cycle 1.
  { rewrite Hnil. simpl. rewrite Hzero.
    split; [by intros (_ & o & [=] & _)|done]. }
  pose proof (beyondInt64_not_bindable o Hoffset) as Hbeyond.
  destruct (sqliteInteger o) as [z|] eqn:Ho.
  - rewrite Hnil. simpl numberOr at 1. rewrite Hzero. split; [|done].
    intros (_ & o' & [= <-] & Hbig). exfalso.
    apply sqliteInteger_Some in Ho as [-> Hz].
    apply Hbeyond in Hbig. apply Hbig. by exists z.
  - split; [done|]. intros Hnot. exfalso. apply Hnot. split; [done|].
    exists o. split; [done|]. by apply Hbeyond, sqliteInteger_None.
Qed.

End DataRoutes.

Section DataRoutesWitnesses.

Import ConversationQueries.

Lemma sample_db5_reachable : reachable SampleData.db5.
Proof.
  apply (reachable_add _ SampleData.messageC2 Sample.t4
           SampleData.conversationC ai "Yes, we do." SampleData.db4b
           SampleData.db5
           (mkMessage SampleData.messageC2 SampleData.conversationC ai
                      "Yes, we do." Sample.t4));
    [|vm_compute; reflexivity|exact I|vm_compute; reflexivity].
  apply (reachable_add _ SampleData.messageB1 Sample.t3
           Sample.conversationB user "Hello" SampleData.db4a SampleData.db4b
           (mkMessage SampleData.messageB1 Sample.conversationB user "Hello"
                      Sample.t3));
    [|vm_compute; reflexivity|exact I|vm_compute; reflexivity].
  apply (reachable_add _ SampleData.messageC1 Sample.t3
           SampleData.conversationC user "Do you ship to Canada?"
           SampleData.db4 SampleData.db4a
           (mkMessage SampleData.messageC1 SampleData.conversationC user
                      "Do you ship to Canada?" Sample.t3));
    [|vm_compute; reflexivity|exact I|vm_compute; reflexivity].
  apply (reachable_create _ SampleData.conversationC Sample.t3
           SampleData.db3 SampleData.db4
           (mkConversation SampleData.conversationC Sample.t3 Sample.t3));
    [|vm_compute; reflexivity|exact I|vm_compute; reflexivity].
  apply (reachable_create _ Sample.conversationB Sample.t2 Sample.db2
           SampleData.db3
           (mkConversation Sample.conversationB Sample.t2 Sample.t2));
    [|vm_compute; reflexivity|exact I|vm_compute; reflexivity].
  exact sample_db2_reachable.
Qed.

(** Three conversations updated at three different times: the second
    page of two holds the one updated first. *)
Lemma getAllConversations_pages_witness :
  exists full,
    getAllConversations None None SampleData.db5
    = (SampleData.db5, Return full)
    /\ full
       = [mkConversation SampleData.conversationC Sample.t3 Sample.t4;
          mkConversation Sample.conversationB Sample.t2 Sample.t3;
          mkConversation Sample.conversationA Sample.t0 Sample.t2]
    /\ getAllConversations (Some (Int 2)) (Some (Int 2)) SampleData.db5
       = (SampleData.db5,
          Return [mkConversation Sample.conversationA Sample.t0 Sample.t2])
    /\ getAllConversations (Some (Int 2)) (Some (Int (10 ^ 20)))
         SampleData.db5
       = (SampleData.db5, Throw datatypeMismatch).
Proof.
  destruct (getAllConversations_pages SampleData.db5)
    as (full & Hfull & _ & Hpage & _ & _ & _ & Hthrows).
  { apply (bool_decide_unpack _). by vm_compute. }
  assert (Hvalue :
    full = [mkConversation SampleData.conversationC Sample.t3 Sample.t4;
            mkConversation Sample.conversationB Sample.t2 Sample.t3;
            mkConversation Sample.conversationA Sample.t0 Sample.t2]).
  { pose proof (f_equal snd Hfull) as Hsnd. cbn [snd] in Hsnd.
    assert (Hrun :
      (getAllConversations None None SampleData.db5).2
      = Return [mkConversation SampleData.conversationC Sample.t3 Sample.t4;
                mkConversation Sample.conversationB Sample.t2 Sample.t3;
                mkConversation Sample.conversationA Sample.t0 Sample.t2])
      by (vm_compute; reflexivity).
    rewrite Hrun in Hsnd. by injection Hsnd as <-. }
  exists full. split; [exact Hfull|]. split; [exact Hvalue|]. split.
  - rewrite Hvalue in Hpage.
    exact (Hpage 2 2 ltac:(by vm_compute) ltac:(by vm_compute)).
  - apply Hthrows. right. exists (Int (10 ^ 20)). split; [reflexivity|].
    intros (z & [= <-] & _ & Hz). lia.
Defined.

Lemma getMessagesRoute_unknown_conversation_witness :
  getConversationRoute Sample.conversationB SampleLLM.world0
  = (SampleLLM.world0,
     Return {| data_status := 404;
               data_body := DataError "Conversation not found" |})
  /\ getMessagesRoute (Some (Int 20)) (Some (Int 5))
       (Some Sample.conversationB) SampleLLM.world0
     = (SampleLLM.world0,
        Return {| data_status := 200;
                  data_body :=
                    MessagesPage [] (Int 20) (Int 5)
                      (Some Sample.conversationB) |}).
Proof.
  destruct (getMessagesRoute_unknown_conversation (Some (Int 20))
              (Some (Int 5)) Sample.conversationB SampleLLM.world0)
    as (Hdetail & _ & Hpage);
    [exact sample_db2_reachable|by vm_compute..|].
  split; [exact Hdetail|]. apply Hpage.
  intros (_ & o & [= <-] & [[=]|(z & [= <-] & Hz)]). lia.
Defined.

(** The listings and the routes on the sample: the two messages of equal
    timestamp come latest-inserted first when the whole table is listed;
    an offset beyond the 64-bit integers is answered with 500. *)
Example getAllMessages_sample :
  (getAllMessages None None None SampleData.db5).2
  = Return
      [mkMessage SampleData.messageC2 SampleData.conversationC ai
                 "Yes, we do." Sample.t4;
       mkMessage SampleData.messageB1 Sample.conversationB user "Hello"
                 Sample.t3;
       mkMessage SampleData.messageC1 SampleData.conversationC user
                 "Do you ship to Canada?" Sample.t3;
       mkMessage Sample.messageA2 Sample.conversationA ai "Let me check."
                 Sample.t2;
       mkMessage Sample.messageA1 Sample.conversationA user
                 "Where is my order?" Sample.t1].
Proof. by vm_compute. Qed.

Example getConversationsRoute_sample :
  (getConversationsRoute (Some (Int 2)) (Some (Int 0)) SampleData.world5).2
  = Return
      {| data_status := 200;
         data_body :=
           ConversationsPage
             [mkConversation SampleData.conversationC Sample.t3 Sample.t4;
              mkConversation Sample.conversationB Sample.t2 Sample.t3]
             3 (Int 2) (Int 0) true |}.
Proof. by vm_compute. Qed.

Example getConversationsRoute_large_offset :
  (getConversationsRoute (Some (Int 1)) (Some (Int (10 ^ 19)))
     SampleData.world5).2
  = Return dataServerError.
Proof. by vm_compute. Qed.

Example getMessagesRoute_large_offset :
  (getMessagesRoute (Some (Int 1)) (Some (Int (10 ^ 19))) None
     SampleData.world5).2
  = Return dataServerError.
Proof. by vm_compute. Qed.

End DataRoutesWitnesses.

(** ** The statistics *)

Section Statistics.

Import ConversationService ConversationQueries.

Lemma length_by_sender (l : list MessageData) :
  length l
  = length (filter (fun m => msg_sender m = user) l)
    + length (filter (fun m => msg_sender m = ai) l).
Proof.
  induction l as [|m l IH]; [done|].
  rewrite !filter_cons. destruct (msg_sender m) eqn:Hsender.
  - rewrite decide_True, decide_False by done. simpl. lia.
  - rewrite decide_False, decide_True by done. simpl. lia.
Qed.

Lemma sum_list_absent (k0 : string) (ks : list string) :
  k0 ∉ ks ->
  sum_list ((fun k => if decide (k0 = k) then 1 else 0) <$> ks) = 0.
Proof.
  induction ks as [|k ks IH]; [done|].
  intros [Hne Hnotin]%not_elem_of_cons. csimpl.
  rewrite decide_False by done. by rewrite IH.
Qed.

Lemma sum_list_present (k0 : string) (ks : list string) :
  NoDup ks -> k0 ∈ ks ->
  sum_list ((fun k => if decide (k0 = k) then 1 else 0) <$> ks) = 1.
Proof.
  induction 1 as [|k ks Hnotin Hnodup IH]; [by intros ?%elem_of_nil|].
  intros [->|Hin]%elem_of_cons; csimpl.
  - rewrite decide_True by done. by rewrite sum_list_absent.
  - rewrite decide_False by (intros ->; done). by rewrite IH.
Qed.

(** Rows that each carry one of the keys are as many as the rows of all
    the keys together. *)
Lemma length_by_key (ks : list string) (l : list MessageData) :
  NoDup ks ->
  Forall (fun m => msg_conversationId m ∈ ks) l ->
  length l = sum_list ((fun k => length (ofConversation k l)) <$> ks).
Proof.
  intros Hnodup. induction 1 as [|m l Hm _ IH].
  - clear Hnodup. induction ks as [|k ks IHks]; [done|].
    simpl in *. exact IHks.
  - assert (Hsplit : forall ks',
      sum_list ((fun k => length (ofConversation k (m :: l))) <$> ks')
      = sum_list ((fun k => if decide (msg_conversationId m = k)
                            then 1 else 0) <$> ks')
        + sum_list ((fun k => length (ofConversation k l)) <$> ks')).
    { intros ks'. induction ks' as [|k ks' IHks]; [done|]. csimpl.
      rewrite IHks. unfold ofConversation at 1. rewrite filter_cons.
      destruct (decide (msg_conversationId m = k)); simpl;
        unfold ofConversation; lia. }
    rewrite Hsplit, sum_list_present by done. simpl. by rewrite IH.
Qed.

Lemma size_alter_row (f : ConversationRow -> ConversationRow) (k : string)
    (m : gmap string ConversationRow) :
  size (alter f k m) = size m.
Proof. by rewrite <- !size_dom, dom_alter_L. Qed.

(** X21.  The counts of [getStats] agree with each other and with the
    listings: the messages are the user's and the assistant's together,
    the conversations are as many as [getConversationCount] says and as
    [getAllConversations] lists, and on a reachable database every
    message is counted in exactly one of the listed conversations. *)
Theorem getStatCounts_totals (d : Db) :
  exists stats,
    getStatCounts d = (d, Return stats)
    /\ totalMessages stats = userMessages stats + aiMessages stats
    /\ getConversationCount d = (d, Return (totalConversations stats))
    /\ (forall listing,
          getAllConversations None None d = (d, Return listing) ->
          length listing = totalConversations stats
          /\ (reachable d ->
              totalMessages stats
              = sum_list ((fun c => length (selectMessages (conv_id c) d))
                            <$> listing))).
Proof.
  eexists. split; [reflexivity|]. simpl.
  split; [apply length_by_sender|]. split; [done|].
  intros listing [= <-]. split.
  - by rewrite orderByUpdatedAtDesc_perm, conversationRows_length.
  - intros Hreach.
    set (full := orderByUpdatedAtDesc (conversationRows d)).
    assert (Hids : NoDup (conv_id <$> full)).
    { unfold full. rewrite orderByUpdatedAtDesc_perm, conversationRows_ids.
      apply NoDup_fst_map_to_list. }
    assert (Hrefs : Forall (fun m => msg_conversationId m ∈ conv_id <$> full)
                           (messages d)).
    { apply Forall_forall. intros m Hm.
      destruct (reachable_referentialIntegrity _ Hreach m Hm) as [row Hrow].
      apply list_elem_of_fmap.
      exists (mkConversation (msg_conversationId m) (row_createdAt row)
                             (row_updatedAt row)).
      split; [done|]. unfold full.
      rewrite orderByUpdatedAtDesc_perm. apply elem_of_conversationRows.
      simpl. unfold selectConversation. by rewrite Hrow. }
    rewrite (length_by_key _ _ Hids Hrefs), <- list_fmap_compose.
    f_equal. apply list_fmap_ext. intros _ c _. simpl.
    unfold selectMessages. by rewrite orderByTimestamp_length.
Qed.

Variable zodUuid : string -> bool.
Variable env : LLMEnv.

(** X22.  A request that [POST /chat/message] serves adds two to the
    message count of [getStats], one to the user's and one to the
    assistant's, whether the reply was generated or is the fallback; the
    conversation count stays when the supplied sessionId is the id of a
    conversation and grows by one otherwise. *)
Theorem postMessage_stat_counts (ent : Entropy) (b : RequestBody)
    (w : World) (message : string) (sessionId : option string) :
  messageSchema zodUuid b = Some (message, sessionId) ->
  conversations (db w) !! conversation_uuid ent = None ->
  hasMessageId (userMessage_uuid ent) (messages (db w)) = false ->
  hasMessageId (aiMessage_uuid ent) (messages (db w)) = false ->
  userMessage_uuid ent <> aiMessage_uuid ent ->
  exists before after,
    let served := postMessage zodUuid env ent b w in
    let known :=
      exists given, sessionId = Some given /\ Js.truthy given = true
                    /\ is_Some (conversations (db w) !! given) in
    getStatCounts (db w) = (db w, Return before)
    /\ getStatCounts (db served.1) = (db served.1, Return after)
    /\ totalMessages after = totalMessages before + 2
    /\ userMessages after = userMessages before + 1
    /\ aiMessages after = aiMessages before + 1
    /\ (known -> totalConversations after = totalConversations before)
    /\ (~ known -> totalConversations after = totalConversations before + 1).
Proof.
  intros Hschema Hfresh Huser Hai Hne.
  destruct (postMessage_served zodUuid env ent b w message sessionId Hschema
              Hfresh Huser Hai Hne)
    as (d1 & conversation & Hresolve & Hmsgs & Hrun).
  cbv zeta in Hrun. eexists _, _. cbv zeta. rewrite Hrun.
  split; [reflexivity|]. split; [reflexivity|]. simpl.
  unfold countMessagesOf. simpl. rewrite Hmsgs.
  rewrite !length_app, !filter_app, !length_app. simpl.
  rewrite !size_alter_row.
  split; [lia|]. split; [lia|]. split; [lia|].
  destruct (getOrCreateConversation_id _ _ _ _ _ _ Hresolve)
    as [(given & -> & Hgiven & Hsome & Hid & ->)
       |(Hunresolved & Hid & _ & ->)].
  - split; [done|]. intros Hknown. exfalso. apply Hknown. by exists given.
  - simpl. rewrite map_size_insert_None by done. split; [|lia].
    intros (given & -> & Hgiven & Hsome).
    destruct Hunresolved as [?|(given' & [= <-] & [?|Hnone])];
      [done|congruence|].
    rewrite Hnone in Hsome. by destruct Hsome.
Qed.

End Statistics.

Section StatisticsWitnesses.

Import ConversationQueries.

Lemma postMessage_stat_counts_witness :
  exists before after,
    let served :=
      postMessage isUuid SampleRequest.envAnswering SampleRequest.entropy
        SampleRequest.body SampleLLM.world0 in
    let known :=
      exists given,
        Some Sample.conversationA = Some given /\ Js.truthy given = true
        /\ is_Some (conversations (db SampleLLM.world0) !! given) in
    getStatCounts (db SampleLLM.world0) = (db SampleLLM.world0, Return before)
    /\ getStatCounts (db served.1) = (db served.1, Return after)
    /\ totalMessages after = totalMessages before + 2
    /\ userMessages after = userMessages before + 1
    /\ aiMessages after = aiMessages before + 1
    /\ (known -> totalConversations after = totalConversations before)
    /\ (~ known -> totalConversations after = totalConversations before + 1).
Proof.
  apply (postMessage_stat_counts isUuid SampleRequest.envAnswering
           SampleRequest.entropy SampleRequest.body SampleLLM.world0
           "And when will it arrive?" (Some Sample.conversationA));
    by vm_compute.
Defined.

End StatisticsWitnesses.
